(** * EReceipt front end: API client, receipt form and dashboard send flow

    A shallow embedding of the browser code of the EReceipt application:
    - [services/api.js]: token storage, [apiRequest] with its refresh-and-retry
      on 401, and the [authAPI], [receiptsAPI] and [notificationsAPI] objects;
    - [components/ReceiptForm.jsx]: the form state, its handlers and totals;
    - [context/AuthContext.jsx] and [App.jsx]: the auth state, the protected
      route and the dashboard handlers;
    - [pages/Login.jsx], [pages/Signup.jsx] and [components/Navbar.jsx]: the
      submit and logout handlers;
    - [components/ReceiptCard.jsx] and the status badge of
      [components/ReceiptPreview.jsx]: what they compute from a receipt, and
      whether React renders it.

    JavaScript values are modelled as they are at run time: Numbers are
    IEEE 754 binary64 ([PrimFloat.float]), strings are byte strings (UTF-8),
    objects read from JSON are association lists in property order, the
    browser's local storage is a finite map from keys to strings.  Awaited
    promises are run to completion in program order; a rejection is a thrown
    exception of the state-and-exception monad [M]. *)

From Stdlib Require Import ZArith Floats.PrimFloat Floats.FloatOps Floats.SpecFloat.
From Stdlib Require Uint63.
From Stdlib Require Import Strings.String Strings.Ascii Lists.List.
From stdpp Require Import gmap strings list pretty.

Local Open Scope Z_scope.
Local Open Scope string_scope.
Local Open Scope list_scope.

(* Decimal Number literals such as 0.1 denote the nearest binary64 value, as
   they do in JavaScript; no induction scheme is wanted for the nested type
   of values. *)
#[local] Set Warnings "-inexact-float,-register-all".

(** ** Numbers *)

Module Number.

Local Open Scope Z_scope.

(** [x] is a finite non-zero Number [±m·2^e]; the interval of reals that
    round to it is written over the common denominator [den]:
    [lo/den .. hi/den] around [num/den], closed when [m] is even. *)
Record Interval := mkInterval
  { num : Z; lo : Z; hi : Z; den : Z; closed : bool }.

Definition interval_of (m : positive) (e : Z) : Interval :=
  let m := Z.pos m in
  let below := if (m =? 2 ^ 52) && (-1074 <? e) then 4 * m - 1 else 4 * m - 2 in
  let sh := e - 2 in
  let up := if 0 <=? sh then 2 ^ sh else 1 in
  {| num := 4 * m * up; lo := below * up; hi := (4 * m + 2) * up;
     den := if 0 <=? sh then 1 else 2 ^ (- sh);
     closed := Z.even m |}.

(** Is [s·10^p] inside the interval? *)
Definition inside (i : Interval) (s p : Z) : bool :=
  let l := if 0 <=? p then s * 10 ^ p * den i else s * den i in
  let sc := if 0 <=? p then 1 else 10 ^ (- p) in
  if closed i then (lo i * sc <=? l) && (l <=? hi i * sc)
  else (lo i * sc <? l) && (l <? hi i * sc).

(** The multiple of [10^p] nearest to the Number, when one lies inside the
    interval (ties go to the even one). *)
Definition nearest (i : Interval) (p : Z) : option Z :=
  let sc := if 0 <=? p then den i * 10 ^ p else den i in
  let n := if 0 <=? p then num i else num i * 10 ^ (- p) in
  let f := n / sc in
  let c := f + 1 in
  let df := n - f * sc in
  let dc := c * sc - n in
  let okf := (0 <? f) && inside i f p in
  let okc := inside i c p in
  match okf, okc with
  | true, true =>
      if df <? dc then Some f
      else if dc <? df then Some c
      else if Z.even f then Some f else Some c
  | true, false => Some f
  | false, true => Some c
  | false, false => None
  end.

(** The shortest digit string: the largest [p] at which a multiple of
    [10^p] rounds to the Number.  The search starts just above the decimal
    magnitude of the Number and needs at most 17 digits. *)
Fixpoint shortest (fuel : nat) (i : Interval) (p : Z) : Z * Z :=
  match fuel with
  | O => (num i / den i, 0)
  | S fuel' =>
      match nearest i p with
      | Some s => (s, p)
      | None => shortest fuel' i (p - 1)
      end
  end.

Definition magnitude (i : Interval) : Z :=
  (Z.log2 (hi i) - Z.log2 (den i) + 1) * 30103 / 100000 + 2.

Definition digits_of (s : Z) : string := pretty (Z.to_N s).

Fixpoint zeros (n : nat) : string :=
  match n with O => "" | S n' => "0" +:+ zeros n' end.

Definition substring_from (n : nat) (s : string) : string :=
  substring n (String.length s - n) s.

(** Steps 5 to 10 of Number::toString for radix 10: [s] has the [k] digits
    [ds] and the Number is [s·10^(n-k)]. *)
Definition layout (ds : string) (n : Z) : string :=
  let k := Z.of_nat (String.length ds) in
  if (k <=? n) && (n <=? 21) then ds +:+ zeros (Z.to_nat (n - k))
  else if (0 <? n) && (n <=? 21) then
    substring 0 (Z.to_nat n) ds +:+ "." +:+ substring_from (Z.to_nat n) ds
  else if (-6 <? n) && (n <=? 0) then "0." +:+ zeros (Z.to_nat (- n)) +:+ ds
  else
    let ex := n - 1 in
    let sign := if 0 <=? ex then "+" else "-" in
    let mant := if k =? 1 then ds
                else substring 0 1 ds +:+ "." +:+ substring_from 1 ds in
    mant +:+ "e" +:+ sign +:+ pretty (Z.abs_N ex).

(** Number::toString(x) of ECMA-262, radix 10, as used by template
    literals, [String(x)], [x.toString()] and [JSON.stringify]. *)
Definition toString (x : float) : string :=
  match Prim2SF x with
  | S754_nan => "NaN"
  | S754_zero _ => "0"
  | S754_infinity neg => if neg then "-Infinity" else "Infinity"
  | S754_finite neg m e =>
      let i := interval_of m e in
      let '(s, p) := shortest 48 i (magnitude i) in
      let ds := digits_of s in
      (if neg then "-" else "") +:+ layout ds (p + Z.of_nat (String.length ds))
  end.

(** The Number of a small counter value. *)
Definition of_N (n : N) : float := PrimFloat.of_uint63 (Uint63.of_Z (Z.of_N n)).

(** ToBoolean on a Number: false for [+0], [-0] and [NaN]. *)
Definition truthy (x : float) : bool :=
  match Prim2SF x with
  | S754_nan | S754_zero _ => false
  | _ => true
  end.

(** A Number that can appear in JSON text ([JSON.stringify] writes [null]
    for the others). *)
Definition finite (x : float) : bool :=
  match Prim2SF x with
  | S754_nan | S754_infinity _ => false
  | _ => true
  end.

End Number.

(** ** Values *)

(** The values the code handles: what [JSON.parse] produces, plus
    [undefined].  An object lists its properties in creation order, each
    name once. *)
Inductive JsVal :=
| JUndefined
| JNull
| JBool (b : bool)
| JNum (x : float)
| JStr (s : string)
| JArr (items : list JsVal)
| JObj (props : list (string * JsVal)).

(** Thrown values: [new Error(msg)] of the code, and the [TypeError] and
    [SyntaxError] objects the engine and the fetch API raise.  Handlers only
    read [message]. *)
Inductive Exn :=
| Error (message : string)
| TypeError (message : string)
| SyntaxError (message : string).

Definition exn_message (e : Exn) : string :=
  match e with Error m | TypeError m | SyntaxError m => m end.

Inductive Result (A : Type) :=
| Ret (a : A)
| Throw (e : Exn).
Arguments Ret {A} a.
Arguments Throw {A} e.

Module Js.

(** [!!s] on a string: the empty string is falsy. *)
Definition nonempty (s : string) : bool :=
  match s with EmptyString => false | _ => true end.

(** ToBoolean. *)
Definition truthy (v : JsVal) : bool :=
  match v with
  | JUndefined | JNull => false
  | JBool b => b
  | JNum x => Number.truthy x
  | JStr s => nonempty s
  | JArr _ | JObj _ => true
  end.

(** [a || b]. *)
Definition or (a b : JsVal) : JsVal := if truthy a then a else b.

Fixpoint join (sep : string) (l : list string) : string :=
  match l with
  | [] => ""
  | [s] => s
  | s :: rest => s +:+ sep +:+ join sep rest
  end.

(** ToString, as applied by template literals, [new Error(v)] and
    [localStorage.setItem]. *)
Fixpoint toString (v : JsVal) : string :=
  match v with
  | JUndefined => "undefined"
  | JNull => "null"
  | JBool b => if b then "true" else "false"
  | JNum x => Number.toString x
  | JStr s => s
  | JArr l =>
      join "," (List.map (fun e => match e with
                                   | JUndefined | JNull => ""
                                   | _ => toString e
                                   end) l)
  | JObj _ => "[object Object]"
  end.

(** [v.name] for the property names the code reads ([access_token],
    [receipts], [results], [sent], ...): none of them is a property of a
    primitive or of an array, so only an object can hold one.  Reading a
    property of [null] or [undefined] throws (V8's wording). *)
Fixpoint lookup (name : string) (props : list (string * JsVal)) : JsVal :=
  match props with
  | [] => JUndefined
  | (k, v) :: rest => if String.eqb k name then v else lookup name rest
  end.

Definition get (v : JsVal) (name : string) : Result JsVal :=
  match v with
  | JUndefined | JNull =>
      Throw (TypeError ("Cannot read properties of " +:+ toString v
                        +:+ " (reading '" +:+ name +:+ "')"))
  | JObj props => Ret (lookup name props)
  | _ => Ret JUndefined
  end.

(** [v?.name]. *)
Definition get_opt (v : JsVal) (name : string) : JsVal :=
  match v with
  | JObj props => lookup name props
  | _ => JUndefined
  end.

Definition hex_digit (n : N) : ascii :=
  ascii_of_N (if (n <? 10)%N then 48 + n else 87 + n)%N.

Definition dquote : string := String (ascii_of_N 34) "".

(** QuoteJSONString, one code unit at a time. *)
Definition quote_char (c : ascii) : string :=
  let n := N_of_ascii c in
  if (n =? 34)%N then "\" +:+ dquote
  else if (n =? 92)%N then "\\"
  else if (n =? 8)%N then "\b"
  else if (n =? 9)%N then "\t"
  else if (n =? 10)%N then "\n"
  else if (n =? 12)%N then "\f"
  else if (n =? 13)%N then "\r"
  else if (n <? 32)%N then
    "\u00" +:+ String (hex_digit (n / 16)) (String (hex_digit (n mod 16)) "")
  else String c "".

Fixpoint quote_body (s : string) : string :=
  match s with
  | EmptyString => ""
  | String c rest => quote_char c +:+ quote_body rest
  end.

Definition quote (s : string) : string := dquote +:+ quote_body s +:+ dquote.

(** [JSON.stringify(v)]: [None] stands for the result [undefined]. *)
Fixpoint stringify (v : JsVal) : option string :=
  match v with
  | JUndefined => None
  | JNull => Some "null"
  | JBool b => Some (if b then "true" else "false")
  | JNum x => Some (if Number.finite x then Number.toString x else "null")
  | JStr s => Some (quote s)
  | JArr l =>
      Some ("[" +:+ join "," (List.map (fun e => match stringify e with
                                                 | Some s => s
                                                 | None => "null"
                                                 end) l) +:+ "]")
  | JObj props =>
      Some ("{" +:+ join ","
               ((fix members (ps : list (string * JsVal)) : list string :=
                   match ps with
                   | [] => []
                   | (k, e) :: rest =>
                       match stringify e with
                       | Some s => (quote k +:+ ":" +:+ s) :: members rest
                       | None => members rest
                       end
                   end) props) +:+ "}")
  end.

(** [JSON.stringify(v)] where a string is expected ([setItem]). *)
Definition stringify_toString (v : JsVal) : string :=
  match stringify v with Some s => s | None => "undefined" end.

End Js.

(** ** The browser: local storage, location, console and network *)

(** What [fetch] is called with: the URL and the [method], [headers] and
    [body] of its init object ([method] is absent for a plain GET). *)
Record Request := mkRequest
  { url : string;
    method : option string;
    headers : gmap string string;
    body : option string }.

(** What the code reads of a [Response]: [status], [ok] (a status from 200
    to 299) and [json()], which rejects with a [SyntaxError] when the body is
    not JSON text. *)
Record Response := mkResponse
  { status : N;
    json : Result JsVal }.

Definition ok (r : Response) : bool :=
  ((200 <=? status r) && (status r <=? 299))%N.

Inductive FetchOutcome :=
| Resolves (r : Response)
| Rejects (e : Exn).

Inductive ConsoleEntry :=
| ConsoleError (label : string) (e : Exn)
| ConsoleWarn (text : string).

(** The state a handler runs in.  [network] answers each request, given the
    requests issued before it; [requests] logs every [fetch] in order;
    [VITE_API_URL] is the build-time environment entry of that name. *)
Record World := mkWorld
  { localStorage : gmap string string;
    location_href : string;
    console : list ConsoleEntry;
    requests : list Request;
    network : list Request -> Request -> FetchOutcome;
    VITE_API_URL : option string }.

(** Computations over a state [S] that return or throw; an [await] is run to
    completion where it stands, a rejected promise is a throw. *)
Definition Eff (S A : Type) : Type := S -> Result A * S.

Definition ret {S A} (a : A) : Eff S A := fun s => (Ret a, s).

Definition throw {S A} (e : Exn) : Eff S A := fun s => (Throw e, s).

Definition bind {S A B} (m : Eff S A) (k : A -> Eff S B) : Eff S B :=
  fun s =>
    match m s with
    | (Ret a, s') => k a s'
    | (Throw e, s') => (Throw e, s')
    end.

Notation "'let*' x := m 'in' k" := (bind m (fun x => k))
  (at level 10, x name, m at level 100, k at level 200).
Notation "m >> k" := (bind m (fun _ => k))
  (at level 90, right associativity).

(** [try { m } catch (e) { h e }] *)
Definition try_catch {S A} (m : Eff S A) (h : Exn -> Eff S A) : Eff S A :=
  fun s =>
    match m s with
    | (Ret a, s') => (Ret a, s')
    | (Throw e, s') => h e s'
    end.

(** [try { m } finally { f }] *)
Definition finally {S A} (m : Eff S A) (f : Eff S unit) : Eff S A :=
  fun s =>
    let '(r, s') := m s in
    match f s' with
    | (Ret _, s'') => (r, s'')
    | (Throw e, s'') => (Throw e, s'')
    end.

Definition lift {S A} (r : Result A) : Eff S A := fun s => (r, s).

(** The API layer runs over the browser alone. *)
Definition M : Type -> Type := Eff World.

Definition getItem (key : string) : M (option string) :=
  fun w => (Ret (localStorage w !! key), w).

Definition set_storage (f : gmap string string -> gmap string string) (w : World) : World :=
  {| localStorage := f (localStorage w);
     location_href := location_href w;
     console := console w;
     requests := requests w;
     network := network w;
     VITE_API_URL := VITE_API_URL w |}.

Definition setItem (key value : string) : M unit :=
  fun w => (Ret tt, set_storage (insert key value) w).

Definition removeItem (key : string) : M unit :=
  fun w => (Ret tt, set_storage (delete key) w).

(** [window.location.href = target]. *)
Definition navigate (target : string) : M unit :=
  fun w => (Ret tt,
            {| localStorage := localStorage w;
               location_href := target;
               console := console w;
               requests := requests w;
               network := network w;
               VITE_API_URL := VITE_API_URL w |}).

Definition log (entry : ConsoleEntry) : M unit :=
  fun w => (Ret tt,
            {| localStorage := localStorage w;
               location_href := location_href w;
               console := console w ++ [entry];
               requests := requests w;
               network := network w;
               VITE_API_URL := VITE_API_URL w |}).

Definition sent (req : Request) (w : World) : World :=
  {| localStorage := localStorage w;
     location_href := location_href w;
     console := console w;
     requests := requests w ++ [req];
     network := network w;
     VITE_API_URL := VITE_API_URL w |}.

(** [await fetch(url, init)]: the request is logged and the network's answer
    is returned, or thrown when the promise rejects. *)
Definition fetch (req : Request) : M Response :=
  fun w =>
    match network w (requests w) req with
    | Resolves r => (Ret r, sent req w)
    | Rejects e => (Throw e, sent req w)
    end.

(** A string or [null] in a boolean position or a template literal. *)
Definition truthy_item (o : option string) : bool :=
  match o with Some s => Js.nonempty s | None => false end.

Definition item_toString (o : option string) : string :=
  match o with Some s => s | None => "null" end.

(** ** services/api.js *)

Definition API_BASE_URL (w : World) : string :=
  match VITE_API_URL w with
  | Some s => if Js.nonempty s then s else "http://localhost:5000/api"
  | None => "http://localhost:5000/api"
  end.

Definition base_url : M string := fun w => (Ret (API_BASE_URL w), w).

Definition getToken : M (option string) := getItem "access_token".

(** [setTokens(accessToken, refreshToken)] *)
Definition setTokens (accessToken refreshToken : JsVal) : M unit :=
  setItem "access_token" (Js.toString accessToken) >>
  if Js.truthy refreshToken
  then setItem "refresh_token" (Js.toString refreshToken)
  else ret tt.

Definition clearTokens : M unit :=
  removeItem "access_token" >>
  removeItem "refresh_token" >>
  removeItem "user".

(** The [options] argument of [apiRequest]. *)
Record Options := mkOptions
  { opt_method : option string;
    opt_body : option string;
    opt_headers : gmap string string }.

Definition no_options : Options :=
  {| opt_method := None; opt_body := None; opt_headers := ∅ |}.

Definition json_headers : gmap string string :=
  {[ "Content-Type" := "application/json" ]}.

(** [refreshAccessToken(refreshToken)] *)
Definition refreshAccessToken (refreshToken : string) : M bool :=
  try_catch
    (let* base := base_url in
     let* response := fetch {| url := base +:+ "/auth/refresh";
                          method := Some "POST";
                          headers := <[ "Authorization" := "Bearer " +:+ refreshToken ]> json_headers;
                          body := None |} in
     if ok response then
       let* data := lift (json response) in
       let* access_token := lift (Js.get data "access_token") in
       setItem "access_token" (Js.toString access_token) >>
       ret true
     else ret false)
    (fun _ => ret false).

(** [apiRequest(endpoint, options)] *)
Definition apiRequest (endpoint : string) (options : Options) : M Response :=
  let* token := getToken in
  let headers0 := opt_headers options ∪ json_headers in
  let headers1 :=
    if truthy_item token
    then <[ "Authorization" := "Bearer " +:+ item_toString token ]> headers0
    else headers0 in
  let* base := base_url in
  let* response := fetch {| url := base +:+ endpoint;
                            method := opt_method options;
                            headers := headers1;
                            body := opt_body options |} in
  if (status response =? 401)%N then
    let session_expired : M Response :=
      clearTokens >>
      navigate "/login" >>
      throw (Error "Session expired") in
    let* refreshToken := getItem "refresh_token" in
    if truthy_item refreshToken then
      let* refreshed := refreshAccessToken (item_toString refreshToken) in
      if refreshed then
        let* fresh := getToken in
        fetch {| url := base +:+ endpoint;
                 method := opt_method options;
                 headers := <[ "Authorization" := "Bearer " +:+ item_toString fresh ]> headers1;
                 body := opt_body options |}
      else session_expired
    else session_expired
  else ret response.

(** The object [{ ok: response.ok, data }] every API method returns. *)
Record ApiResult := mkApiResult
  { res_ok : bool;
    res_data : JsVal }.

(** [return { ok: response.ok, data: await response.json() }] *)
Definition ok_and_data (response : Response) : M ApiResult :=
  let* data := lift (json response) in
  ret {| res_ok := ok response; res_data := data |}.

Definition post (b : option string) : Options :=
  {| opt_method := Some "POST"; opt_body := b; opt_headers := ∅ |}.

Module authAPI.

Definition register (userData : JsVal) : M ApiResult :=
  let* base := base_url in
  let* response := fetch {| url := base +:+ "/auth/register";
                            method := Some "POST";
                            headers := json_headers;
                            body := Js.stringify userData |} in
  let* data := lift (json response) in
  (if ok response then
     let* access_token := lift (Js.get data "access_token") in
     let* refresh_token := lift (Js.get data "refresh_token") in
     setTokens access_token refresh_token >>
     let* user := lift (Js.get data "user") in
     setItem "user" (Js.stringify_toString user)
   else ret tt) >>
  ret {| res_ok := ok response; res_data := data |}.

Definition login (email password : JsVal) : M ApiResult :=
  let* base := base_url in
  let* response := fetch {| url := base +:+ "/auth/login";
                            method := Some "POST";
                            headers := json_headers;
                            body := Js.stringify (JObj [("email", email);
                                                        ("password", password)]) |} in
  let* data := lift (json response) in
  (if ok response then
     let* access_token := lift (Js.get data "access_token") in
     let* refresh_token := lift (Js.get data "refresh_token") in
     setTokens access_token refresh_token >>
     let* user := lift (Js.get data "user") in
     setItem "user" (Js.stringify_toString user)
   else ret tt) >>
  ret {| res_ok := ok response; res_data := data |}.

Definition logout : M unit := clearTokens.

Definition getProfile : M ApiResult :=
  let* response := apiRequest "/auth/profile" no_options in
  ok_and_data response.

Definition updateProfile (profileData : JsVal) : M ApiResult :=
  let* response := apiRequest "/auth/profile"
                     {| opt_method := Some "PUT";
                        opt_body := Js.stringify profileData;
                        opt_headers := ∅ |} in
  ok_and_data response.

Definition changePassword (currentPassword newPassword : JsVal) : M ApiResult :=
  let* response := apiRequest "/auth/change-password"
                     (post (Js.stringify (JObj [("current_password", currentPassword);
                                                ("new_password", newPassword)]))) in
  ok_and_data response.

Definition isAuthenticated : M bool :=
  let* token := getToken in
  ret (truthy_item token).

(** [getUser()]; [JSON_parse] is the engine's [JSON.parse]. *)
Definition getUser (JSON_parse : string -> Result JsVal) : M JsVal :=
  let* user := getItem "user" in
  if truthy_item user then lift (JSON_parse (item_toString user)) else ret JNull.

End authAPI.

(** The application/x-www-form-urlencoded serializer behind
    [URLSearchParams.prototype.toString], over the UTF-8 bytes of each name
    and value. *)
Module URLSearchParams.

Definition upper_hex (n : N) : ascii :=
  ascii_of_N (if (n <? 10)%N then 48 + n else 55 + n)%N.

Definition unreserved (n : N) : bool :=
  ((48 <=? n) && (n <=? 57) || (65 <=? n) && (n <=? 90) || (97 <=? n) && (n <=? 122)
   || (n =? 42) || (n =? 45) || (n =? 46) || (n =? 95))%N.

Definition encode_byte (c : ascii) : string :=
  let n := N_of_ascii c in
  if (n =? 32)%N then "+"
  else if unreserved n then String c ""
  else String "%" (String (upper_hex (n / 16)) (String (upper_hex (n mod 16)) "")).

Fixpoint encode (s : string) : string :=
  match s with
  | EmptyString => ""
  | String c rest => encode_byte c +:+ encode rest
  end.

Definition toString (params : list (string * string)) : string :=
  Js.join "&" (List.map (fun '(k, v) => encode k +:+ "=" +:+ encode v) params).

End URLSearchParams.

Module receiptsAPI.

Definition create (receiptData : JsVal) : M ApiResult :=
  let* response := apiRequest "/receipts" (post (Js.stringify receiptData)) in
  ok_and_data response.

(** The [params] object of [getAll] after the two conditional appends;
    an absent argument takes its default. *)
Definition getAll_params (page perPage : option float) (search status : option string)
  : list (string * string) :=
  let page := default 1%float page in
  let perPage := default 20%float perPage in
  let search := default "" search in
  let status := default "" status in
  [("page", Number.toString page); ("per_page", Number.toString perPage)]
    ++ (if Js.nonempty search then [("search", search)] else [])
    ++ (if Js.nonempty status then [("status", status)] else []).

Definition getAll (page perPage : option float) (search status : option string)
  : M ApiResult :=
  let params := getAll_params page perPage search status in
  let* response := apiRequest ("/receipts?" +:+ URLSearchParams.toString params)
                              no_options in
  ok_and_data response.

Definition getById (id : JsVal) : M ApiResult :=
  let* response := apiRequest ("/receipts/" +:+ Js.toString id) no_options in
  ok_and_data response.

Definition update (id : JsVal) (receiptData : JsVal) : M ApiResult :=
  let* response := apiRequest ("/receipts/" +:+ Js.toString id)
                     {| opt_method := Some "PUT";
                        opt_body := Js.stringify receiptData;
                        opt_headers := ∅ |} in
  ok_and_data response.

Definition delete (id : JsVal) : M ApiResult :=
  let* response := apiRequest ("/receipts/" +:+ Js.toString id)
                     {| opt_method := Some "DELETE";
                        opt_body := None;
                        opt_headers := ∅ |} in
  ok_and_data response.

Definition getStats : M ApiResult :=
  let* response := apiRequest "/receipts/stats" no_options in
  ok_and_data response.

End receiptsAPI.

Module notificationsAPI.

(** [value ? { name: value } : {}] *)
Definition optional_field (name : string) (value : JsVal) : list (string * JsVal) :=
  if Js.truthy value then [(name, value)] else [].

Definition sendEmail (receiptId email : JsVal) : M ApiResult :=
  let body := JObj (optional_field "email" email) in
  let* response := apiRequest ("/notifications/send-email/" +:+ Js.toString receiptId)
                              (post (Js.stringify body)) in
  ok_and_data response.

Definition sendSMS (receiptId phone : JsVal) : M ApiResult :=
  let body := JObj (optional_field "phone" phone) in
  let* response := apiRequest ("/notifications/send-sms/" +:+ Js.toString receiptId)
                              (post (Js.stringify body)) in
  ok_and_data response.

Definition sendBoth (receiptId email phone : JsVal) : M ApiResult :=
  let body := JObj (optional_field "email" email ++ optional_field "phone" phone) in
  let* response := apiRequest ("/notifications/send-both/" +:+ Js.toString receiptId)
                              (post (Js.stringify body)) in
  ok_and_data response.

Definition testEmail (email : JsVal) : M ApiResult :=
  let* response := apiRequest "/notifications/test-email"
                              (post (Js.stringify (JObj [("email", email)]))) in
  ok_and_data response.

Definition testSMS (phone : JsVal) : M ApiResult :=
  let* response := apiRequest "/notifications/test-sms"
                              (post (Js.stringify (JObj [("phone", phone)]))) in
  ok_and_data response.

Definition getConfig : M ApiResult :=
  let* response := apiRequest "/notifications/config" no_options in
  ok_and_data response.

End notificationsAPI.

(** ** components/ReceiptForm.jsx *)

Module ReceiptForm.

(** A line item [{ id, name, quantity, price }].  The ids come from the
    counter [nextId], which only takes small whole values; it is kept as a
    natural number. *)
Record Item := mkItem
  { id : N;
    name : string;
    quantity : float;
    price : float }.

(** The [useState] cells of the component. *)
Record State := mkState
  { customerName : string;
    customerEmail : string;
    transactionDate : string;
    items : list Item;
    taxRate : float;
    nextId : N }.

Definition blank_item (i : N) : Item :=
  {| id := i; name := ""; quantity := 1; price := 0 |}.

Definition initial : State :=
  {| customerName := ""; customerEmail := ""; transactionDate := "";
     items := [blank_item 1]; taxRate := 10; nextId := 2 |}.

(** [items.reduce((sum, item) => sum + item.quantity * item.price, 0)] *)
Definition subtotal (st : State) : float :=
  fold_left (fun sum item => (sum + quantity item * price item)%float) (items st) 0%float.

Definition tax (st : State) : float := (subtotal st * taxRate st / 100)%float.

Definition total (st : State) : float := (subtotal st + tax st)%float.

Definition set_items (l : list Item) (st : State) : State :=
  {| customerName := customerName st; customerEmail := customerEmail st;
     transactionDate := transactionDate st;
     items := l; taxRate := taxRate st; nextId := nextId st |}.

Definition handleAddItem (st : State) : State :=
  {| customerName := customerName st; customerEmail := customerEmail st;
     transactionDate := transactionDate st;
     items := items st ++ [blank_item (nextId st)];
     taxRate := taxRate st;
     nextId := (nextId st + 1)%N |}.

Definition handleRemoveItem (i : N) (st : State) : State :=
  if (1 <? length (items st))%nat
  then set_items (List.filter (fun item => negb (id item =? i)%N) (items st)) st
  else st.

(** The [field] and [value] the inputs pass to [handleUpdateItem]:
    the text of the name input, or [Number(e.target.value)] of the
    quantity or price input. *)
Inductive FieldValue :=
| name_value (s : string)
| quantity_value (x : float)
| price_value (x : float).

Definition with_field (item : Item) (fv : FieldValue) : Item :=
  match fv with
  | name_value s => {| id := id item; name := s; quantity := quantity item; price := price item |}
  | quantity_value x => {| id := id item; name := name item; quantity := x; price := price item |}
  | price_value x => {| id := id item; name := name item; quantity := quantity item; price := x |}
  end.

Definition handleUpdateItem (i : N) (fv : FieldValue) (st : State) : State :=
  set_items (List.map (fun item => if (id item =? i)%N then with_field item fv else item)
                      (items st)) st.

(** The object handed to [onSubmit]. *)
Record Receipt := mkReceipt
  { r_customerName : string;
    r_customerEmail : string;
    r_transactionDate : string;
    r_items : list Item;
    r_subtotal : float;
    r_tax : float;
    r_total : float;
    r_taxRate : float }.

Inductive Outcome :=
| Alert (text : string)
| OnSubmit (data : Receipt).

Definition incomplete (item : Item) : bool :=
  negb (Js.nonempty (name item)) || (price item <=? 0)%float.

Definition handleSubmit (st : State) : Outcome * State :=
  if negb (Js.nonempty (customerName st)) || negb (Js.nonempty (customerEmail st))
     || negb (Js.nonempty (transactionDate st))
  then (Alert "Please fill in all customer details", st)
  else if existsb incomplete (items st)
  then (Alert "Please fill in all item details", st)
  else (OnSubmit {| r_customerName := customerName st;
                    r_customerEmail := customerEmail st;
                    r_transactionDate := transactionDate st;
                    r_items := items st;
                    r_subtotal := subtotal st;
                    r_tax := tax st;
                    r_total := total st;
                    r_taxRate := taxRate st |},
        {| customerName := ""; customerEmail := ""; transactionDate := "";
           items := [blank_item 1]; taxRate := taxRate st; nextId := 2 |}).

(** What the user can do to the form: edit an input, press a button. *)
Inductive Event :=
| SetCustomerName (s : string)
| SetCustomerEmail (s : string)
| SetTransactionDate (s : string)
| SetTaxRate (x : float)
| AddItem
| RemoveItem (i : N)
| UpdateItem (i : N) (fv : FieldValue)
| Submit.

Definition step (st : State) (ev : Event) : option Outcome * State :=
  match ev with
  | SetCustomerName s =>
      (None, {| customerName := s; customerEmail := customerEmail st;
                transactionDate := transactionDate st; items := items st;
                taxRate := taxRate st; nextId := nextId st |})
  | SetCustomerEmail s =>
      (None, {| customerName := customerName st; customerEmail := s;
                transactionDate := transactionDate st; items := items st;
                taxRate := taxRate st; nextId := nextId st |})
  | SetTransactionDate s =>
      (None, {| customerName := customerName st; customerEmail := customerEmail st;
                transactionDate := s; items := items st;
                taxRate := taxRate st; nextId := nextId st |})
  | SetTaxRate x =>
      (None, {| customerName := customerName st; customerEmail := customerEmail st;
                transactionDate := transactionDate st; items := items st;
                taxRate := x; nextId := nextId st |})
  | AddItem => (None, handleAddItem st)
  | RemoveItem i => (None, handleRemoveItem i st)
  | UpdateItem i fv => (None, handleUpdateItem i fv st)
  | Submit => let '(out, st') := handleSubmit st in (Some out, st')
  end.

(** The form after a sequence of events, and what it emitted on the way
    (alerts and submitted receipts, oldest first). *)
Fixpoint run (st : State) (evs : list Event) : list Outcome * State :=
  match evs with
  | [] => ([], st)
  | ev :: rest =>
      let '(out, st') := step st ev in
      let '(outs, st'') := run st' rest in
      (match out with Some o => o :: outs | None => outs end, st'')
  end.

Definition submitted (outs : list Outcome) : list Receipt :=
  omap (fun o => match o with OnSubmit d => Some d | Alert _ => None end) outs.

End ReceiptForm.

(** ** context/AuthContext.jsx *)

Module AuthContext.

Record State := mkState
  { user : JsVal;
    loading : bool }.

Definition initial : State := {| user := JNull; loading := true |}.

Definition C : Type -> Type := Eff (State * World).

Definition api {A} (m : M A) : C A :=
  fun s => let '(r, w) := m (snd s) in (r, (fst s, w)).

Definition setUser (v : JsVal) : C unit :=
  fun s => (Ret tt, ({| user := v; loading := loading (fst s) |}, snd s)).

Definition setLoading (b : bool) : C unit :=
  fun s => (Ret tt, ({| user := user (fst s); loading := b |}, snd s)).

(** The effect run once on mount. *)
Definition on_mount (JSON_parse : string -> Result JsVal) : C unit :=
  let* storedUser := api (authAPI.getUser JSON_parse) in
  let* authenticated := (if Js.truthy storedUser
                         then api authAPI.isAuthenticated
                         else ret false) in
  (if Js.truthy storedUser && authenticated then setUser storedUser else ret tt) >>
  setLoading false.

(** [{ success: true }] or [{ success: false, error }] *)
Record Outcome := mkOutcome
  { success : bool;
    error : JsVal }.

Definition login (email password : JsVal) : C Outcome :=
  let* result := api (authAPI.login email password) in
  if res_ok result then
    let* u := lift (Js.get (res_data result) "user") in
    setUser u >>
    ret {| success := true; error := JUndefined |}
  else
    let* e := lift (Js.get (res_data result) "error") in
    ret {| success := false; error := e |}.

Definition signup (userData : JsVal) : C Outcome :=
  let* result := api (authAPI.register userData) in
  if res_ok result then
    let* u := lift (Js.get (res_data result) "user") in
    setUser u >>
    ret {| success := true; error := JUndefined |}
  else
    let* e := lift (Js.get (res_data result) "error") in
    ret {| success := false; error := e |}.

Definition logout : C unit :=
  api authAPI.logout >>
  setUser JNull.

(** [isAuthenticated: !!user] of the context value. *)
Definition isAuthenticated (st : State) : bool := Js.truthy (user st).

End AuthContext.

(** ** App.jsx *)

(** What [ProtectedRoute] renders. *)
Inductive Element (A : Type) :=
| Spinner
| Navigate (to : string) (replace : bool)
| Children (children : A).
Arguments Spinner {A}.
Arguments Navigate {A} to replace.
Arguments Children {A} children.

Definition ProtectedRoute {A} (auth : AuthContext.State) (children : A) : Element A :=
  if AuthContext.loading auth then Spinner
  else if negb (AuthContext.isAuthenticated auth) then Navigate "/login" true
  else Children children.

Module Dashboard.

(** What [formData] holds: the object built by [handleCreateReceipt]
    (the submitted form data, [receiptNumber], the [Date] under
    [timestamp], [status]), or a receipt of the list passed to
    [handleViewReceipt]. *)
Inductive FormData :=
| Composed (data : ReceiptForm.Receipt) (receiptNumber : string)
           (timestamp : float) (status : string)
| Viewed (receipt : JsVal).

Record State := mkState
  { receipts : JsVal;
    formData : option FormData;
    showPreview : bool;
    toastMessage : string;
    isSending : bool;
    (** pending [setTimeout(() => setToastMessage(""), 5000)] callbacks *)
    toastTimers : nat }.

Definition initial : State :=
  {| receipts := JArr []; formData := None; showPreview := false;
     toastMessage := ""; isSending := false; toastTimers := 0 |}.

Definition D : Type -> Type := Eff (State * World).

Definition api {A} (m : M A) : D A :=
  fun s => let '(r, w) := m (snd s) in (r, (fst s, w)).

Definition get_state : D State := fun s => (Ret (fst s), s).

Definition modify (f : State -> State) : D unit :=
  fun s => (Ret tt, (f (fst s), snd s)).

Definition setReceipts (v : JsVal) : D unit :=
  modify (fun st => {| receipts := v; formData := formData st;
                       showPreview := showPreview st; toastMessage := toastMessage st;
                       isSending := isSending st; toastTimers := toastTimers st |}).

Definition setFormData (v : option FormData) : D unit :=
  modify (fun st => {| receipts := receipts st; formData := v;
                       showPreview := showPreview st; toastMessage := toastMessage st;
                       isSending := isSending st; toastTimers := toastTimers st |}).

Definition setShowPreview (b : bool) : D unit :=
  modify (fun st => {| receipts := receipts st; formData := formData st;
                       showPreview := b; toastMessage := toastMessage st;
                       isSending := isSending st; toastTimers := toastTimers st |}).

Definition setToastMessage (text : string) : D unit :=
  modify (fun st => {| receipts := receipts st; formData := formData st;
                       showPreview := showPreview st; toastMessage := text;
                       isSending := isSending st; toastTimers := toastTimers st |}).

Definition setIsSending (b : bool) : D unit :=
  modify (fun st => {| receipts := receipts st; formData := formData st;
                       showPreview := showPreview st; toastMessage := toastMessage st;
                       isSending := b; toastTimers := toastTimers st |}).

(** [setTimeout(() => setToastMessage(""), 5000)] *)
Definition clear_toast_later : D unit :=
  modify (fun st => {| receipts := receipts st; formData := formData st;
                       showPreview := showPreview st; toastMessage := toastMessage st;
                       isSending := isSending st; toastTimers := S (toastTimers st) |}).

(** One of the pending callbacks runs. *)
Definition toast_timer_fires : D unit :=
  modify (fun st => {| receipts := receipts st; formData := formData st;
                       showPreview := showPreview st; toastMessage := "";
                       isSending := isSending st; toastTimers := pred (toastTimers st) |}).

Definition console_error (label : string) (e : Exn) : D unit :=
  api (log (ConsoleError label e)).

Definition loadReceipts : D unit :=
  try_catch
    (let* response := api (receiptsAPI.getAll (Some 1%float) (Some 20%float) None None) in
     if res_ok response then
       let* list := lift (Js.get (res_data response) "receipts") in
       if Js.truthy list then setReceipts list else ret tt
     else ret tt)
    (fun error => console_error "Failed to load receipts:" error).

(** The effect run once on mount. *)
Definition on_mount : D unit := loadReceipts.

(** What [checkNotificationConfig] returns besides [null]. *)
Inductive ConfigCheck :=
| config_error (message : string)
| config_warning (message : string).

Definition checkNotificationConfig : D (option ConfigCheck) :=
  try_catch
    (let* response := api notificationsAPI.getConfig in
     if res_ok response then
       let config := res_data response in
       let* email := lift (Js.get config "email") in
       let* sms := lift (Js.get config "sms") in
       if negb (Js.truthy (Js.get_opt email "configured"))
          && negb (Js.truthy (Js.get_opt sms "configured"))
       then ret (Some (config_error "Email and SMS services are not configured. Please configure at least one service in your backend environment variables."))
       else if negb (Js.truthy (Js.get_opt email "configured"))
       then ret (Some (config_warning "Email service is not configured. Only SMS will be sent if phone number is available."))
       else ret None
     else ret None)
    (fun error =>
       console_error "Failed to check notification config:" error >>
       ret None).

(** [handleCreateReceipt(data)]; [now] is the value of [Date.now()] and
    [date] the time of [new Date()]. *)
Definition handleCreateReceipt (now date : float) (data : ReceiptForm.Receipt) : D unit :=
  let receiptNumber := "REC-" +:+ Number.toString now in
  setFormData (Some (Composed data receiptNumber date "Not Sent")) >>
  setShowPreview true.

Definition item_object (item : ReceiptForm.Item) : JsVal :=
  JObj [("id", JNum (Number.of_N (ReceiptForm.id item)));
        ("name", JStr (ReceiptForm.name item));
        ("quantity", JNum (ReceiptForm.quantity item));
        ("price", JNum (ReceiptForm.price item))].

(** [formData.name] for the properties [handleSendReceipt] reads. *)
Definition formData_get (fd : FormData) (name : string) : Result JsVal :=
  match fd with
  | Composed data receiptNumber _ status =>
      Ret (Js.lookup name
             [("customerName", JStr (ReceiptForm.r_customerName data));
              ("customerEmail", JStr (ReceiptForm.r_customerEmail data));
              ("transactionDate", JStr (ReceiptForm.r_transactionDate data));
              ("items", JArr (List.map item_object (ReceiptForm.r_items data)));
              ("subtotal", JNum (ReceiptForm.r_subtotal data));
              ("tax", JNum (ReceiptForm.r_tax data));
              ("total", JNum (ReceiptForm.r_total data));
              ("taxRate", JNum (ReceiptForm.r_taxRate data));
              ("receiptNumber", JStr receiptNumber);
              ("status", JStr status)])
  | Viewed receipt => Js.get receipt name
  end.

(** [formData] in a boolean position, for a [formData] other than
    [null]. *)
Definition formData_truthy (fd : FormData) : bool :=
  match fd with
  | Composed _ _ _ _ => true
  | Viewed receipt => Js.truthy receipt
  end.

(** [item => ({ name: item.name, quantity: item.quantity, price: item.price })] *)
Definition line (item : JsVal) : Result JsVal :=
  match Js.get item "name", Js.get item "quantity", Js.get item "price" with
  | Ret n, Ret q, Ret p => Ret (JObj [("name", n); ("quantity", q); ("price", p)])
  | Throw e, _, _ | _, Throw e, _ | _, _, Throw e => Throw e
  end.

Fixpoint map_lines (l : list JsVal) : Result (list JsVal) :=
  match l with
  | [] => Ret []
  | item :: rest =>
      match line item with
      | Throw e => Throw e
      | Ret o =>
          match map_lines rest with
          | Throw e => Throw e
          | Ret os => Ret (o :: os)
          end
      end
  end.

(** [formData.items.map(...)] *)
Definition items_map (items : JsVal) : Result JsVal :=
  match items with
  | JArr l =>
      match map_lines l with
      | Ret os => Ret (JArr os)
      | Throw e => Throw e
      end
  | JUndefined | JNull =>
      Throw (TypeError ("Cannot read properties of " +:+ Js.toString items
                        +:+ " (reading 'map')"))
  | _ => Throw (TypeError "formData.items.map is not a function")
  end.

(** The object literal [receiptData] of [handleSendReceipt]. *)
Definition receiptData_of (fd : FormData) : Result JsVal :=
  match formData_get fd "customerName", formData_get fd "customerEmail",
        formData_get fd "customerPhone", formData_get fd "transactionDate" with
  | Ret customerName, Ret customerEmail, Ret customerPhone, Ret transactionDate =>
      match formData_get fd "items" with
      | Throw e => Throw e
      | Ret items =>
          match items_map items with
          | Throw e => Throw e
          | Ret lines =>
              match formData_get fd "subtotal", formData_get fd "taxRate",
                    formData_get fd "tax", formData_get fd "total",
                    formData_get fd "receiptNumber" with
              | Ret subtotal, Ret taxRate, Ret tax, Ret total, Ret receiptNumber =>
                  Ret (JObj [("customer_name", customerName);
                             ("customer_email", customerEmail);
                             ("customer_phone", Js.or customerPhone JNull);
                             ("transaction_date", transactionDate);
                             ("items", lines);
                             ("subtotal", subtotal);
                             ("tax_rate", taxRate);
                             ("tax", tax);
                             ("total", total);
                             ("receipt_number", receiptNumber)])
              | Throw e, _, _, _, _ | _, Throw e, _, _, _ | _, _, Throw e, _, _
              | _, _, _, Throw e, _ | _, _, _, _, Throw e => Throw e
              end
          end
      end
  | Throw e, _, _, _ | _, Throw e, _, _ | _, _, Throw e, _ | _, _, _, Throw e => Throw e
  end.

Definition check_mark : string := "✓".
Definition cross_mark : string := "✗".

(** [x?.channel?.message || "Unknown error"] in a template literal *)
Definition channel_message (results : JsVal) (channel : string) : string :=
  Js.toString (Js.or (Js.get_opt (Js.get_opt results channel) "message")
                     (JStr "Unknown error")).

(** Step 2 of [handleSendReceipt]: send the created receipt by email and,
    when there is a phone number, by SMS.  Returns [sendMessage]. *)
Definition send_step (receiptId customer_email customer_phone : JsVal) : D string :=
  if Js.truthy customer_phone then
    let* sendBothResponse :=
      api (notificationsAPI.sendBoth receiptId customer_email customer_phone) in
    if res_ok sendBothResponse then
      let* results := lift (Js.get (res_data sendBothResponse) "results") in
      let emailSent := Js.or (Js.get_opt (Js.get_opt results "email") "sent") (JBool false) in
      let smsSent := Js.or (Js.get_opt (Js.get_opt results "sms") "sent") (JBool false) in
      if Js.truthy emailSent && Js.truthy smsSent then
        ret (check_mark +:+ " Receipt sent via email and SMS to "
             +:+ Js.toString customer_email)
      else if Js.truthy emailSent then
        ret (check_mark +:+ " Receipt sent via email to " +:+ Js.toString customer_email
             +:+ " (SMS failed: " +:+ channel_message results "sms" +:+ ")")
      else if Js.truthy smsSent then
        ret (check_mark +:+ " Receipt sent via SMS (Email failed: "
             +:+ channel_message results "email" +:+ ")")
      else
        throw (Error ("Failed to send: " +:+ channel_message results "email"))
    else
      let* emailResponse := api (notificationsAPI.sendEmail receiptId customer_email) in
      let* success := (if res_ok emailResponse
                       then lift (Js.get (res_data emailResponse) "success")
                       else ret (JBool false)) in
      if res_ok emailResponse && Js.truthy success then
        ret (check_mark +:+ " Receipt sent via email to " +:+ Js.toString customer_email)
      else
        let* error := lift (Js.get (res_data emailResponse) "error") in
        throw (Error (Js.toString (Js.or error (JStr "Failed to send receipt"))))
  else
    let* emailResponse := api (notificationsAPI.sendEmail receiptId customer_email) in
    let* success := (if res_ok emailResponse
                     then lift (Js.get (res_data emailResponse) "success")
                     else ret (JBool false)) in
    if res_ok emailResponse && Js.truthy success then
      ret (check_mark +:+ " Receipt sent via email to " +:+ Js.toString customer_email)
    else
      let* error := lift (Js.get (res_data emailResponse) "error") in
      throw (Error (Js.toString (Js.or error (JStr "Failed to send email")))).

(** The configuration check and Step 1 of [handleSendReceipt]: build
    [receiptData], create the receipt in the database and read its id.
    Returns [receiptData] and [receiptId]. *)
Definition create_step (fd : FormData) : D (JsVal * JsVal) :=
  let* configCheck := checkNotificationConfig in
  match configCheck with
  | Some (config_error message) => throw (Error message)
  | Some (config_warning message) => api (log (ConsoleWarn message))
  | None => ret tt
  end >>
  let* receiptData := lift (receiptData_of fd) in
  let* createResponse := api (receiptsAPI.create receiptData) in
  (if negb (res_ok createResponse) then
     let* error := lift (Js.get (res_data createResponse) "error") in
     throw (Error (Js.toString (Js.or error (JStr "Failed to create receipt"))))
   else ret tt) >>
  let* receipt := lift (Js.get (res_data createResponse) "receipt") in
  let receiptId := Js.or (Js.get_opt receipt "id") (Js.get_opt receipt "_id") in
  (if negb (Js.truthy receiptId)
   then throw (Error "Failed to get receipt ID from response")
   else ret tt) >>
  ret (receiptData, receiptId).

(** The body of the [try] block up to [sendMessage]: [create_step], then
    Step 2 on the email and phone of [receiptData]. *)
Definition create_and_send (fd : FormData) : D string :=
  let* created := create_step fd in
  let receiptData := fst created in
  let receiptId := snd created in
  let* customer_email := lift (Js.get receiptData "customer_email") in
  let* customer_phone := lift (Js.get receiptData "customer_phone") in
  send_step receiptId customer_email customer_phone.

(** [handleSendReceipt()]; [formData] is the value of the render the
    handler was created in. *)
Definition handleSendReceipt : D unit :=
  let* st := get_state in
  match formData st with
  | None => ret tt
  | Some fd =>
      if negb (formData_truthy fd) then ret tt
      else
        setIsSending true >>
        setToastMessage "" >>
        finally
          (try_catch
             (let* sendMessage := create_and_send fd in
              setToastMessage sendMessage >>
              clear_toast_later >>
              loadReceipts >>
              setShowPreview false >>
              setFormData None)
             (fun error =>
                console_error "Error sending receipt:" error >>
                setToastMessage
                  (cross_mark +:+ " Error: "
                   +:+ (if Js.nonempty (exn_message error)
                        then exn_message error
                        else "Failed to send receipt")) >>
                clear_toast_later))
          (setIsSending false)
  end.

Definition handleViewReceipt (receipt : JsVal) : D unit :=
  setFormData (Some (Viewed receipt)) >>
  setShowPreview true.


(** The dashboard renders the form until a preview is shown; the form's
    [onSubmit] is [handleCreateReceipt]. *)
Definition form_submitted (now date : float) (form : ReceiptForm.State)
  : D (ReceiptForm.Outcome * ReceiptForm.State) :=
  let '(out, form') := ReceiptForm.handleSubmit form in
  match out with
  | ReceiptForm.OnSubmit data => handleCreateReceipt now date data
  | ReceiptForm.Alert _ => ret tt
  end >>
  ret (out, form').

End Dashboard.

(** ** Strings as the engine measures and compares them *)

Module JsString.

(** The UTF-16 code units a byte of UTF-8 text stands for: a continuation
    byte adds none, the lead byte of a four-byte sequence a surrogate
    pair. *)
Definition units (c : ascii) : nat :=
  let n := N_of_ascii c in
  if (n <? 128)%N then 1
  else if (n <? 192)%N then 0
  else if (n <? 240)%N then 1
  else 2.

(** [s.length] *)
Fixpoint length (s : string) : nat :=
  match s with
  | EmptyString => 0
  | String c rest => units c + length rest
  end.

(** [v === "text"] *)
Definition strict_eq (v : JsVal) (text : string) : bool :=
  match v with
  | JStr s => String.eqb s text
  | _ => false
  end.

End JsString.

(** ** Numbers in fixed notation *)

Module NumberFormat.

Local Open Scope Z_scope.

(** The integer [n] for which [n / 10^f] is nearest to [m·2^e], the larger
    one when two are as near. *)
Definition scaled (f : nat) (m : positive) (e : Z) : Z :=
  let p := 10 ^ Z.of_nat f in
  if 0 <=? e then Z.pos m * 2 ^ e * p
  else (2 * Z.pos m * p + 2 ^ (- e)) / (2 * 2 ^ (- e)).

(** The digits of [n] with a point before the last [f] of them, after
    padding with zeros to [f + 1] digits. *)
Definition pointed (f : nat) (n : Z) : string :=
  let digits := pretty (Z.to_N n) in
  let k := String.length digits in
  let m := if (k <=? f)%nat then Number.zeros (f + 1 - k) +:+ digits else digits in
  if (f =? 0)%nat then m
  else substring 0 (String.length m - f) m +:+ "." +:+ substring (String.length m - f) f m.

(** [x.toFixed(f)] of ECMA-262, for [f] from 0 to 100. *)
Definition toFixed (f : nat) (x : float) : string :=
  match Prim2SF x with
  | S754_nan | S754_infinity _ => Number.toString x
  | S754_zero _ => pointed f 0
  | S754_finite neg m e =>
      if (0 <=? e) && (10 ^ 21 <=? Z.pos m * 2 ^ e) then Number.toString x
      else (if neg then "-" else "") +:+ pointed f (scaled f m e)
  end.

End NumberFormat.

(** ** What React renders *)

Module React.

(** A value in child position, [{value}] in JSX.  React shows a string or
    a number as text and nothing for a boolean, [null] or [undefined]; it
    takes the items of an array as children in their turn; any other
    object it refuses (Objects are not valid as a React child), which
    throws out of the render.  The values here are read from JSON, so an
    object among them is never a React element. *)
Fixpoint valid_child (v : JsVal) : bool :=
  match v with
  | JObj _ => false
  | JArr items => forallb valid_child items
  | _ => true
  end.

(** How the render of a component ends: with what it shows, with the
    exception thrown while its element was built, or with a child
    refused. *)
Inductive Rendering {A : Type} :=
| Shown (a : A)
| Threw (e : Exn)
| Refused.

(** The element is built, then its values in child position are
    checked. *)
Definition render {A} (element : Result A) (children : A -> list JsVal) : @Rendering A :=
  match element with
  | Throw e => Threw e
  | Ret a => if forallb valid_child (children a) then Shown a else Refused
  end.

End React.

(** ** components/ReceiptCard.jsx *)

Module ReceiptCard.

(** [{ text, color }] of [getStatusInfo]. *)
Record StatusInfo := mkStatusInfo
  { text : string;
    color : string }.

Definition pending_mark : string := "⏱".

(** [getStatusInfo()], over the constants it closes over. *)
Definition getStatusInfo (status emailSent smsSent : JsVal) : StatusInfo :=
  if JsString.strict_eq status "both_sent" || (Js.truthy emailSent && Js.truthy smsSent) then
    {| text := Dashboard.check_mark +:+ " Sent (Email & SMS)"; color := "text-success" |}
  else if JsString.strict_eq status "email_sent" || Js.truthy emailSent then
    {| text := Dashboard.check_mark +:+ " Email Sent"; color := "text-success" |}
  else if JsString.strict_eq status "sms_sent" || Js.truthy smsSent then
    {| text := Dashboard.check_mark +:+ " SMS Sent"; color := "text-success" |}
  else if JsString.strict_eq status "Sent" then
    {| text := Dashboard.check_mark +:+ " Sent"; color := "text-success" |}
  else
    {| text := pending_mark +:+ " Pending"; color := "text-warning" |}.

(** The constants the component computes from its [receipt] prop, and the
    text [total.toFixed(2)] it renders after the dollar sign. *)
Record Card := mkCard
  { receiptNumber : JsVal;
    customerName : JsVal;
    transactionDate : JsVal;
    total : JsVal;
    status : JsVal;
    emailSent : JsVal;
    smsSent : JsVal;
    isSent : JsVal;
    statusInfo : StatusInfo;
    total_text : string }.

(** [total.toFixed(2)]: only a Number has the method. *)
Definition toFixed2 (total : JsVal) : Result string :=
  match total with
  | JNum x => Ret (NumberFormat.toFixed 2 x)
  | _ => Throw (TypeError "total.toFixed is not a function")
  end.

(** The call [ReceiptCard({ receipt })]: the body of the function with the
    one method call of its JSX.  Reading a property throws when [receipt]
    is [null] or [undefined], at the first read. *)
Definition element (receipt : JsVal) : Result Card :=
  match Js.get receipt "receiptNumber" with
  | Throw e => Throw e
  | Ret _ =>
      let prop := Js.get_opt receipt in
      let total := Js.or (prop "total") (JNum 0) in
      let status := Js.or (prop "status") (JStr "created") in
      let emailSent := Js.or (prop "email_sent") (JBool false) in
      let smsSent := Js.or (prop "sms_sent") (JBool false) in
      match toFixed2 total with
      | Throw e => Throw e
      | Ret text =>
          Ret {| receiptNumber :=
                   Js.or (prop "receiptNumber")
                         (Js.or (prop "receipt_number") (JStr "N/A"));
                 customerName :=
                   Js.or (prop "customerName")
                         (Js.or (prop "customer_name") (JStr "Unknown Customer"));
                 transactionDate :=
                   Js.or (prop "transactionDate")
                         (Js.or (prop "transaction_date") (JStr "N/A"));
                 total := total;
                 status := status;
                 emailSent := emailSent;
                 smsSent := smsSent;
                 isSent :=
                   if JsString.strict_eq status "Sent"
                      || JsString.strict_eq status "email_sent"
                      || JsString.strict_eq status "sms_sent"
                      || JsString.strict_eq status "both_sent"
                   then JBool true
                   else Js.or emailSent smsSent;
                 statusInfo := getStatusInfo status emailSent smsSent;
                 total_text := text |}
      end
  end.

(** [{isSent && <CheckCircle ... />}]: is the check icon rendered? *)
Definition check_icon (c : Card) : bool := Js.truthy (isSent c).

(** The values of the receipt in child position: [{receiptNumber}],
    [{customerName}] and [{transactionDate}].  The other children are
    elements, [false] and strings. *)
Definition children (c : Card) : list JsVal :=
  [receiptNumber c; customerName c; transactionDate c].

(** The card of [receipt] as React renders it. *)
Definition card (receipt : JsVal) : @React.Rendering Card :=
  React.render (element receipt) children.

End ReceiptCard.

(** ** components/ReceiptPreview.jsx *)

Module ReceiptPreview.






End ReceiptPreview.

(** ** Pages *)

(** What a page component runs in: its own [useState] cells, the targets
    it has passed to [navigate] of [useNavigate] (oldest first), the auth
    context and the browser. *)
Record Page {S : Type} := mkPage
  { view : S;
    history : list string;
    auth : AuthContext.State;
    browser : World }.

Module Router.

Definition get_view {S} : Eff (@Page S) S := fun p => (Ret (view p), p).

Definition set_view {S} (f : S -> S) : Eff (@Page S) unit :=
  fun p => (Ret tt, {| view := f (view p); history := history p;
                       auth := auth p; browser := browser p |}).

(** [navigate(to)] *)
Definition navigate {S} (to : string) : Eff (@Page S) unit :=
  fun p => (Ret tt, {| view := view p; history := history p ++ [to];
                       auth := auth p; browser := browser p |}).

(** A function of the auth context called from the page. *)
Definition context {S A} (m : AuthContext.C A) : Eff (@Page S) A :=
  fun p =>
    let '(r, s) := m (auth p, browser p) in
    (r, {| view := view p; history := history p; auth := fst s; browser := snd s |}).

End Router.

(** ** components/Navbar.jsx *)

Module Navbar.

Definition handleLogout : Eff (@Page unit) unit :=
  Router.context AuthContext.logout >>
  Router.navigate "/login".

(** [user?.business_name || "My Business"] *)
Definition business_name (user : JsVal) : JsVal :=
  Js.or (Js.get_opt user "business_name") (JStr "My Business").

End Navbar.

(** ** pages/Login.jsx *)

Module Login.

Record State := mkState
  { email : string;
    password : string;
    showPassword : bool;
    error : JsVal;
    loading : bool }.

Definition initial : State :=
  {| email := ""; password := ""; showPassword := false;
     error := JStr ""; loading := false |}.

Definition setError (v : JsVal) : Eff (@Page State) unit :=
  Router.set_view (fun st => {| email := email st; password := password st;
                                showPassword := showPassword st;
                                error := v; loading := loading st |}).

Definition setLoading (b : bool) : Eff (@Page State) unit :=
  Router.set_view (fun st => {| email := email st; password := password st;
                                showPassword := showPassword st;
                                error := error st; loading := b |}).

(** [handleSubmit(e)]; [email] and [password] are those of the render the
    handler was created in. *)
Definition handleSubmit : Eff (@Page State) unit :=
  let* st := Router.get_view in
  setError (JStr "") >>
  setLoading true >>
  finally
    (try_catch
       (let* result := Router.context
                         (AuthContext.login (JStr (email st)) (JStr (password st))) in
        if AuthContext.success result then Router.navigate "/"
        else setError (Js.or (AuthContext.error result)
                             (JStr "Login failed. Please try again.")))
       (fun _ => setError (JStr "An unexpected error occurred. Please try again.")))
    (setLoading false).

End Login.

(** ** pages/Signup.jsx *)

Module Signup.

(** The [formData] object. *)
Record FormData := mkFormData
  { email : string;
    password : string;
    confirmPassword : string;
    business_name : string;
    phone : string }.

Record State := mkState
  { formData : FormData;
    showPassword : bool;
    showConfirmPassword : bool;
    error : JsVal;
    loading : bool }.

Definition initial : State :=
  {| formData := {| email := ""; password := ""; confirmPassword := "";
                    business_name := ""; phone := "" |};
     showPassword := false; showConfirmPassword := false;
     error := JStr ""; loading := false |}.

(** The [name] attributes of the inputs wired to [handleChange]. *)
Inductive Field :=
| business_name_input
| email_input
| phone_input
| password_input
| confirmPassword_input.

(** [{ ...formData, [name]: value }] *)
Definition with_field (fd : FormData) (name : Field) (value : string) : FormData :=
  match name with
  | business_name_input =>
      {| email := email fd; password := password fd;
         confirmPassword := confirmPassword fd;
         business_name := value; phone := phone fd |}
  | email_input =>
      {| email := value; password := password fd;
         confirmPassword := confirmPassword fd;
         business_name := business_name fd; phone := phone fd |}
  | phone_input =>
      {| email := email fd; password := password fd;
         confirmPassword := confirmPassword fd;
         business_name := business_name fd; phone := value |}
  | password_input =>
      {| email := email fd; password := value;
         confirmPassword := confirmPassword fd;
         business_name := business_name fd; phone := phone fd |}
  | confirmPassword_input =>
      {| email := email fd; password := password fd;
         confirmPassword := value;
         business_name := business_name fd; phone := phone fd |}
  end.

Definition setFormData (fd : FormData) : Eff (@Page State) unit :=
  Router.set_view (fun st => {| formData := fd; showPassword := showPassword st;
                                showConfirmPassword := showConfirmPassword st;
                                error := error st; loading := loading st |}).

Definition setError (v : JsVal) : Eff (@Page State) unit :=
  Router.set_view (fun st => {| formData := formData st; showPassword := showPassword st;
                                showConfirmPassword := showConfirmPassword st;
                                error := v; loading := loading st |}).

Definition setLoading (b : bool) : Eff (@Page State) unit :=
  Router.set_view (fun st => {| formData := formData st; showPassword := showPassword st;
                                showConfirmPassword := showConfirmPassword st;
                                error := error st; loading := b |}).

(** [handleChange(e)], with the name and value of [e.target]. *)
Definition handleChange (name : Field) (value : string) : Eff (@Page State) unit :=
  let* st := Router.get_view in
  setFormData (with_field (formData st) name value).

(** The object handed to [signup]. *)
Definition userData (fd : FormData) : JsVal :=
  JObj [("email", JStr (email fd));
        ("password", JStr (password fd));
        ("business_name", JStr (business_name fd));
        ("phone", Js.or (JStr (phone fd)) JUndefined)].

(** [handleSubmit(e)]; [formData] is that of the render the handler was
    created in. *)
Definition handleSubmit : Eff (@Page State) unit :=
  let* st := Router.get_view in
  let fd := formData st in
  setError (JStr "") >>
  if negb (String.eqb (password fd) (confirmPassword fd)) then
    setError (JStr "Passwords do not match")
  else if (JsString.length (password fd) <? 6)%nat then
    setError (JStr "Password must be at least 6 characters")
  else
    setLoading true >>
    finally
      (try_catch
         (let* result := Router.context (AuthContext.signup (userData fd)) in
          if AuthContext.success result then Router.navigate "/"
          else setError (Js.or (AuthContext.error result)
                               (JStr "Registration failed. Please try again.")))
         (fun _ => setError (JStr "An unexpected error occurred. Please try again.")))
      (setLoading false).

End Signup.

(** * Vocabulary of the properties *)

(** ** Receipt totals *)

Module Totals.
Import ReceiptForm.

Definition line_total (item : Item) : float := (quantity item * price item)%float.

(** The sum of the first [k] line totals, as the spec writes it: the
    empty sum is 0 and each further term is added to the sum so far. *)
Fixpoint partial_sum (l : list Item) (k : nat) : float :=
  match k with
  | O => 0%float
  | S k' => (partial_sum l k' + line_total (nth k' l (blank_item 0)))%float
  end.

(** Σ quantity×price over the items. *)
Definition sum_of_lines (l : list Item) : float := partial_sum l (length l).

(** The same terms added from the last one backwards. *)
Fixpoint sum_from_the_right (l : list Item) : float :=
  match l with
  | [] => 0%float
  | item :: rest => (line_total item + sum_from_the_right rest)%float
  end.

(** What a submitted receipt must satisfy. *)
Definition consistent (d : Receipt) : Prop :=
  r_total d = (r_subtotal d + r_tax d)%float
  /\ r_subtotal d = sum_of_lines (r_items d)
  /\ r_tax d = (r_subtotal d * r_taxRate d / 100)%float.

End Totals.

(** ** The item list of the form *)

Module Items.
Import ReceiptForm.

(** What every reachable form state satisfies: the list is not empty, and
    the ids are distinct and below the counter (which is what makes
    [handleRemoveItem] remove one item only). *)
Record Inv (st : State) : Prop := mkInv
  { inv_nonempty : items st <> [];
    inv_distinct : List.NoDup (List.map id (items st));
    inv_below : Forall (fun item => (id item < nextId st)%N) (items st) }.

Definition keeps (i : N) (item : Item) : bool := negb (id item =? i)%N.

End Items.

(** ** The requests of the API layer *)

Module Wire.

(** The request [apiRequest(endpoint, options)] issues first: JSON
    content type, the caller's headers, the stored access token as bearer
    when there is one. *)
Definition original (endpoint : string) (options : Options) (w : World) : Request :=
  let token := localStorage w !! "access_token" in
  let h := opt_headers options ∪ json_headers in
  {| url := API_BASE_URL w +:+ endpoint;
     method := opt_method options;
     headers := if truthy_item token
                then <[ "Authorization" := "Bearer " +:+ item_toString token ]> h
                else h;
     body := opt_body options |}.

(** The request to the refresh endpoint, bearing the refresh token. *)
Definition refresh (w : World) (refreshToken : string) : Request :=
  {| url := API_BASE_URL w +:+ "/auth/refresh";
     method := Some "POST";
     headers := <[ "Authorization" := "Bearer " +:+ refreshToken ]> json_headers;
     body := None |}.

(** The original request again, bearing [token]. *)
Definition retry (endpoint : string) (options : Options) (w : World) (token : string)
  : Request :=
  let o := original endpoint options w in
  {| url := url o; method := method o;
     headers := <[ "Authorization" := "Bearer " +:+ token ]> (headers o);
     body := body o |}.

(** The refresh token in storage, if one is stored (an empty entry is no
    token). *)
Definition stored_refresh_token (w : World) : option string :=
  match localStorage w !! "refresh_token" with
  | Some s => if Js.nonempty s then Some s else None
  | None => None
  end.

(** The access token a refresh answer yields: the answer must be an ok
    response whose JSON body is an object (or any value with properties);
    anything else is a failed refresh. *)
Definition refreshed_token (answer : FetchOutcome) : option string :=
  match answer with
  | Resolves r =>
      if ok r then
        match json r with
        | Ret data =>
            match Js.get data "access_token" with
            | Ret v => Some (Js.toString v)
            | Throw _ => None
            end
        | Throw _ => None
        end
      else None
  | Rejects _ => None
  end.

(** What an awaited [fetch] gives for an answer. *)
Definition settle (answer : FetchOutcome) : Result Response :=
  match answer with
  | Resolves r => Ret r
  | Rejects e => Throw e
  end.

Definition cleared (storage : gmap string string) : gmap string string :=
  delete "user" (delete "refresh_token" (delete "access_token" storage)).

(** The world after [apiRequest] gave up: tokens and user wiped, the
    browser sent to the login page, [sent] requests logged. *)
Definition expired (w : World) (issued : list Request) : World :=
  {| localStorage := cleared (localStorage w);
     location_href := "/login";
     console := console w;
     requests := requests w ++ issued;
     network := network w;
     VITE_API_URL := VITE_API_URL w |}.

(** The world after a refresh that stored [token] and the retry. *)
Definition refreshed (w : World) (token : string) (issued : list Request) : World :=
  {| localStorage := <[ "access_token" := token ]> (localStorage w);
     location_href := location_href w;
     console := console w;
     requests := requests w ++ issued;
     network := network w;
     VITE_API_URL := VITE_API_URL w |}.

End Wire.

(** ** The methods of receiptsAPI and notificationsAPI *)

Module Calls.

(** A call of one of the twelve methods, with its arguments. *)
Inductive Call :=
| receipts_create (receiptData : JsVal)
| receipts_getAll (page perPage : option float) (search status : option string)
| receipts_getById (id : JsVal)
| receipts_update (id receiptData : JsVal)
| receipts_delete (id : JsVal)
| receipts_getStats
| notifications_sendEmail (receiptId email : JsVal)
| notifications_sendSMS (receiptId phone : JsVal)
| notifications_sendBoth (receiptId email phone : JsVal)
| notifications_testEmail (email : JsVal)
| notifications_testSMS (phone : JsVal)
| notifications_getConfig.

Definition perform (c : Call) : M ApiResult :=
  match c with
  | receipts_create d => receiptsAPI.create d
  | receipts_getAll page perPage search status =>
      receiptsAPI.getAll page perPage search status
  | receipts_getById id => receiptsAPI.getById id
  | receipts_update id d => receiptsAPI.update id d
  | receipts_delete id => receiptsAPI.delete id
  | receipts_getStats => receiptsAPI.getStats
  | notifications_sendEmail id email => notificationsAPI.sendEmail id email
  | notifications_sendSMS id phone => notificationsAPI.sendSMS id phone
  | notifications_sendBoth id email phone => notificationsAPI.sendBoth id email phone
  | notifications_testEmail email => notificationsAPI.testEmail email
  | notifications_testSMS phone => notificationsAPI.testSMS phone
  | notifications_getConfig => notificationsAPI.getConfig
  end.

(** [{ ok, data }] read off a response: [ok] is its ok flag, [data] its
    parsed JSON body. *)
Definition read (r : Response) : Result ApiResult :=
  match json r with
  | Ret d => Ret {| res_ok := ok r; res_data := d |}
  | Throw e => Throw e
  end.

(** The query string of [getAll] as the spec describes it. *)
Definition query (page perPage : option float) (search status : option string) : string :=
  "page=" +:+ URLSearchParams.encode (Number.toString (default 1%float page))
  +:+ "&per_page=" +:+ URLSearchParams.encode (Number.toString (default 20%float perPage))
  +:+ (match search with
       | Some (String c s) => "&search=" +:+ URLSearchParams.encode (String c s)
       | _ => ""
       end)
  +:+ (match status with
       | Some (String c s) => "&status=" +:+ URLSearchParams.encode (String c s)
       | _ => ""
       end).

(** The GET requests to [/receipts] with the given query among [l]. *)
Definition receipts_gets (w : World) (q : string) (l : list Request) : list Request :=
  List.filter (fun r => String.eqb (url r) (API_BASE_URL w +:+ "/receipts?" +:+ q)
                        && match method r with None => true | Some _ => false end) l.

End Calls.

Module CallTable.
Import Calls.

(** The endpoint and options each method hands to [apiRequest]. *)
Definition endpoint (c : Call) : string :=
  match c with
  | receipts_create _ => "/receipts"
  | receipts_getAll page perPage search status =>
      "/receipts?" +:+ query page perPage search status
  | receipts_getById id | receipts_update id _ | receipts_delete id =>
      "/receipts/" +:+ Js.toString id
  | receipts_getStats => "/receipts/stats"
  | notifications_sendEmail id _ => "/notifications/send-email/" +:+ Js.toString id
  | notifications_sendSMS id _ => "/notifications/send-sms/" +:+ Js.toString id
  | notifications_sendBoth id _ _ => "/notifications/send-both/" +:+ Js.toString id
  | notifications_testEmail _ => "/notifications/test-email"
  | notifications_testSMS _ => "/notifications/test-sms"
  | notifications_getConfig => "/notifications/config"
  end.

Definition with_method (m : string) (b : option string) : Options :=
  {| opt_method := Some m; opt_body := b; opt_headers := ∅ |}.

Definition options (c : Call) : Options :=
  match c with
  | receipts_create d => post (Js.stringify d)
  | receipts_update _ d => with_method "PUT" (Js.stringify d)
  | receipts_delete _ => with_method "DELETE" None
  | notifications_sendEmail _ email =>
      post (Js.stringify (JObj (notificationsAPI.optional_field "email" email)))
  | notifications_sendSMS _ phone =>
      post (Js.stringify (JObj (notificationsAPI.optional_field "phone" phone)))
  | notifications_sendBoth _ email phone =>
      post (Js.stringify (JObj (notificationsAPI.optional_field "email" email
                                ++ notificationsAPI.optional_field "phone" phone)))
  | notifications_testEmail email => post (Js.stringify (JObj [("email", email)]))
  | notifications_testSMS phone => post (Js.stringify (JObj [("phone", phone)]))
  | receipts_getAll _ _ _ _ | receipts_getById _ | receipts_getStats
  | notifications_getConfig => no_options
  end.

(** The requests one [apiRequest] issues, by the network's answers: the
    original; after a 401 with a stored refresh token, the refresh call;
    after a refresh that yields a token, the retry. *)
Definition issued (endpoint : string) (options : Options) (w : World) : list Request :=
  let o := Wire.original endpoint options w in
  match network w (requests w) o with
  | Rejects _ => [o]
  | Resolves r =>
      if (status r =? 401)%N then
        match Wire.stored_refresh_token w with
        | Some tok =>
            let f := Wire.refresh w tok in
            match Wire.refreshed_token (network w (requests w ++ [o]) f) with
            | Some t => [o; f; Wire.retry endpoint options w t]
            | None => [o; f]
            end
        | None => [o]
        end
      else [o]
  end.

(** Does [apiRequest] go as far as the retry?  It does when the first
    answer is a 401 response, a refresh token is stored and the refresh
    call yields an access token. *)
Definition retried (endpoint : string) (options : Options) (w : World) : bool :=
  let o := Wire.original endpoint options w in
  match network w (requests w) o with
  | Rejects _ => false
  | Resolves r =>
      (status r =? 401)%N
      && match Wire.stored_refresh_token w with
         | Some tok =>
             match Wire.refreshed_token
                     (network w (requests w ++ [o]) (Wire.refresh w tok)) with
             | Some _ => true
             | None => false
             end
         | None => false
         end
  end.

End CallTable.

(** ** Login and registration *)

Module AuthCalls.

Inductive AuthCall :=
| auth_login (email password : JsVal)
| auth_register (userData : JsVal).

Definition perform (c : AuthCall) : M ApiResult :=
  match c with
  | auth_login email password => authAPI.login email password
  | auth_register userData => authAPI.register userData
  end.

(** The one request of a call: a POST of the credentials, without a bearer
    token. *)
Definition request (c : AuthCall) (w : World) : Request :=
  match c with
  | auth_login email password =>
      {| url := API_BASE_URL w +:+ "/auth/login";
         method := Some "POST";
         headers := json_headers;
         body := Js.stringify (JObj [("email", email); ("password", password)]) |}
  | auth_register userData =>
      {| url := API_BASE_URL w +:+ "/auth/register";
         method := Some "POST";
         headers := json_headers;
         body := Js.stringify userData |}
  end.

(** Local storage after the session in [data] was stored: the access
    token, the refresh token when [data] carries one, and the user as JSON
    text. *)
Definition session_stored (data : JsVal) (storage : gmap string string)
  : gmap string string :=
  let with_access :=
    <[ "access_token" := Js.toString (Js.get_opt data "access_token") ]> storage in
  let with_refresh :=
    if Js.truthy (Js.get_opt data "refresh_token")
    then <[ "refresh_token" := Js.toString (Js.get_opt data "refresh_token") ]> with_access
    else with_access in
  <[ "user" := Js.stringify_toString (Js.get_opt data "user") ]> with_refresh.

End AuthCalls.

(** ** Requests over a computation *)

(** States that contain the browser. *)
Class HasWorld (S : Type) := world_of : S -> World.

#[global] Instance world_has_world : HasWorld World := fun w => w.
#[global] Instance dashboard_has_world : HasWorld (Dashboard.State * World) := snd.

Module Log.

(** Every run of [m] takes a state to one related to it by [R]. *)
Definition respects {S A} (R : relation S) (m : Eff S A) : Prop :=
  forall s, R s (snd (m s)).

(** [s'] comes after [s]: the request log has only grown. *)
Definition extends {S} `{HasWorld S} : relation S :=
  fun s s' => exists l, requests (world_of s') = requests (world_of s) ++ l.

(** A computation that only adds to the request log. *)
Definition appends {S A} `{HasWorld S} (m : Eff S A) : Prop :=
  respects extends m.

(** The dashboard state is the same: only the browser has changed. *)
Definition same_view : relation (Dashboard.State * World) :=
  fun s s' => fst s' = fst s.

(** After [m] from [s], the log starts with [l]. *)
Definition reaches {S A} `{HasWorld S} (m : Eff S A) (s : S) (l : list Request) : Prop :=
  exists rest, requests (world_of (snd (m s))) = l ++ rest.

(** Was a request to [endpoint] among [l]? *)
Definition attempts (base endpoint : string) (l : list Request) : bool :=
  existsb (fun r => String.eqb (url r) (base +:+ endpoint)) l.

End Log.

(** ** The send flow *)

Module SendFlow.

(** Did the combined call report the channel as sent? *)
Definition channel_sent (results : JsVal) (channel : string) : bool :=
  Js.truthy (Js.get_opt (Js.get_opt results channel) "sent").

(** The status message after an ok answer of the combined call, by the
    channels that succeeded. *)
Definition combined_message (email results : JsVal) : Result string :=
  match channel_sent results "email", channel_sent results "sms" with
  | true, true =>
      Ret (Dashboard.check_mark +:+ " Receipt sent via email and SMS to "
           +:+ Js.toString email)
  | true, false =>
      Ret (Dashboard.check_mark +:+ " Receipt sent via email to " +:+ Js.toString email
           +:+ " (SMS failed: " +:+ Dashboard.channel_message results "sms" +:+ ")")
  | false, true =>
      Ret (Dashboard.check_mark +:+ " Receipt sent via SMS (Email failed: "
           +:+ Dashboard.channel_message results "email" +:+ ")")
  | false, false =>
      Throw (Error ("Failed to send: " +:+ Dashboard.channel_message results "email"))
  end.

(** The status message after an email-only send, by its outcome; [text] is
    the error text used when the answer carries none. *)
Definition email_message (text : string) (email : JsVal) (outcome : Result ApiResult)
  : Result string :=
  match outcome with
  | Throw e => Throw e
  | Ret v =>
      let failure :=
        match Js.get (res_data v) "error" with
        | Ret err => Throw (Error (Js.toString (Js.or err (JStr text))))
        | Throw e => Throw e
        end in
      if res_ok v then
        match Js.get (res_data v) "success" with
        | Ret success =>
            if Js.truthy success
            then Ret (Dashboard.check_mark +:+ " Receipt sent via email to "
                      +:+ Js.toString email)
            else failure
        | Throw e => Throw e
        end
      else failure
  end.

(** Did the combined call return a result that is not ok? *)
Definition combined_failed (outcome : Result ApiResult) : bool :=
  match outcome with
  | Ret v => negb (res_ok v)
  | Throw _ => false
  end.

End SendFlow.

(** ** Sample data *)

(** Sample worlds.  [scripted answers] is a network that gives the k-th
    request the k-th answer and fails once the script is over. *)
Module Sample.

Definition scripted (answers : list FetchOutcome) : list Request -> Request -> FetchOutcome :=
  fun log _ => nth (length log) answers (Rejects (TypeError "Failed to fetch")).

Definition answer (code : N) (v : JsVal) : FetchOutcome :=
  Resolves {| status := code; json := Ret v |}.

Definition world (storage : gmap string string) (answers : list FetchOutcome) : World :=
  {| localStorage := storage;
     location_href := "/";
     console := [];
     requests := [];
     network := scripted answers;
     VITE_API_URL := None |}.

Definition logged_in : gmap string string :=
  <[ "user" := "{}" ]> (<[ "refresh_token" := "r1" ]> (<[ "access_token" := "a1" ]> ∅)).

Definition unauthorized : FetchOutcome :=
  answer 401 (JObj [("msg", JStr "Token has expired")]).

Definition stats : JsVal := JObj [("total_receipts", JNum 3)].

(** The access token has expired; the refresh token is still good. *)
Definition expired_access : World :=
  world logged_in
    [unauthorized; answer 200 (JObj [("access_token", JStr "a2")]); answer 200 stats].

(** No token is stored and the server answers 401. *)
Definition signed_out : World := world ∅ [unauthorized].

(** The backend accepts the credentials. *)
Definition session : JsVal :=
  JObj [("access_token", JStr "a9");
        ("refresh_token", JStr "r9");
        ("user", JObj [("email", JStr "ann@example.com")])].

Definition accepting : World := world ∅ [answer 200 session].

(** The backend refuses the credentials. *)
Definition refusing : World :=
  world logged_in [answer 401 (JObj [("error", JStr "Invalid email or password")])].

(** The login endpoint is behind a gateway that answers 502 with an HTML
    page. *)
Definition bad_gateway : World :=
  world ∅ [Resolves {| status := 502;
                       json := Throw (SyntaxError "Unexpected token '<'") |}].

(** A form filled in with two line items. *)
Definition filled_form : ReceiptForm.State :=
  {| ReceiptForm.customerName := "Ann";
     ReceiptForm.customerEmail := "ann@example.com";
     ReceiptForm.transactionDate := "2024-05-01";
     ReceiptForm.items :=
       [ {| ReceiptForm.id := 1; ReceiptForm.name := "Pen";
            ReceiptForm.quantity := 2; ReceiptForm.price := 1.5 |};
         {| ReceiptForm.id := 2; ReceiptForm.name := "Ink";
            ReceiptForm.quantity := 1; ReceiptForm.price := 4 |} ];
     ReceiptForm.taxRate := 25;
     ReceiptForm.nextId := 3 |}.

(** What the form hands to [onSubmit] from there. *)
Definition submitted_receipt : ReceiptForm.Receipt :=
  {| ReceiptForm.r_customerName := "Ann";
     ReceiptForm.r_customerEmail := "ann@example.com";
     ReceiptForm.r_transactionDate := "2024-05-01";
     ReceiptForm.r_items := ReceiptForm.items filled_form;
     ReceiptForm.r_subtotal := 7;
     ReceiptForm.r_tax := 1.75;
     ReceiptForm.r_total := 8.75;
     ReceiptForm.r_taxRate := 25 |}.

(** The [receiptData] object built from it when it is sent. *)
Definition receipt_data : JsVal :=
  JObj [("customer_name", JStr "Ann");
        ("customer_email", JStr "ann@example.com");
        ("customer_phone", JNull);
        ("transaction_date", JStr "2024-05-01");
        ("items", JArr [JObj [("name", JStr "Pen"); ("quantity", JNum 2);
                              ("price", JNum 1.5)];
                        JObj [("name", JStr "Ink"); ("quantity", JNum 1);
                              ("price", JNum 4)]]);
        ("subtotal", JNum 7);
        ("tax_rate", JNum 25);
        ("tax", JNum 1.75);
        ("total", JNum 8.75);
        ("receipt_number", JStr "REC-1714560000000")].

(** A signed-in browser whose backend has email configured, stores the
    receipt, sends the email and lists the receipts. *)
Definition healthy : World :=
  world logged_in
    [answer 200 (JObj [("email", JObj [("configured", JBool true)]);
                       ("sms", JObj [("configured", JBool false)])]);
     answer 201 (JObj [("receipt", JObj [("id", JStr "r-17")])]);
     answer 200 (JObj [("success", JBool true)]);
     answer 200 (JObj [("receipts", JArr [])])].

Definition submitted_at : float := 1714560000000.

(** The dashboard after that form was submitted. *)
Definition previewing : Dashboard.State * World :=
  snd (Dashboard.form_submitted submitted_at submitted_at filled_form
         (Dashboard.initial, healthy)).

(** The receipt is stored under this id. *)
Definition receipt_id : JsVal := JStr "r-17".

Definition ann : JsVal := JStr "ann@example.com".

Definition phone : JsVal := JStr "+15550100".

(** The combined call is answered 500; the email-only call goes through. *)
Definition combined_down : World :=
  world logged_in
    [answer 500 (JObj [("error", JStr "SMS gateway unreachable")]);
     answer 200 (JObj [("success", JBool true)])].

(** The combined call sends on both channels. *)
Definition both_sent : World :=
  world logged_in
    [answer 200 (JObj [("results",
                        JObj [("email", JObj [("sent", JBool true)]);
                              ("sms", JObj [("sent", JBool true)])])])].

(** The combined call sends the email; the SMS provider refuses the
    number. *)
Definition sms_refused : World :=
  world logged_in
    [answer 200 (JObj [("results",
                        JObj [("email", JObj [("sent", JBool true)]);
                              ("sms", JObj [("sent", JBool false);
                                            ("message", JStr "Invalid number")])])])].

(** The network is down. *)
Definition offline : World := world logged_in [].

(** A gateway answers the combined call 502 with an HTML page; an
    email-only call would go through. *)
Definition gateway_error : Response :=
  {| status := 502; json := Throw (SyntaxError "Unexpected token '<'") |}.

Definition combined_behind_gateway : World :=
  world logged_in
    [Resolves gateway_error; answer 200 (JObj [("success", JBool true)])].

(** The send step for Ann's receipt on a fresh dashboard, and the URLs it
    requested. *)
Definition run (w : World) : Result string * (Dashboard.State * World) :=
  Dashboard.send_step receipt_id ann phone (Dashboard.initial, w).

Definition urls (s : Result string * (Dashboard.State * World)) : list string :=
  List.map url (requests (snd (snd s))).

Definition lines : JsVal :=
  JArr [JObj [("name", JStr "Pen"); ("quantity", JNum 2); ("price", JNum 1.5)];
        JObj [("name", JStr "Ink"); ("quantity", JNum 1); ("price", JNum 4)]].

(** Ann's receipt as the backend lists it, with her phone number under the
    backend's name for it. *)
Definition listed_receipt : JsVal :=
  JObj [("id", JStr "r-16");
        ("receipt_number", JStr "REC-1714560000000");
        ("customer_name", JStr "Ann");
        ("customer_email", JStr "ann@example.com");
        ("customer_phone", phone);
        ("transaction_date", JStr "2024-05-01");
        ("items", lines);
        ("subtotal", JNum 7);
        ("tax_rate", JNum 25);
        ("tax", JNum 1.75);
        ("total", JNum 8.75);
        ("status", JStr "created")].

(** The same receipt under the names [handleSendReceipt] reads. *)
Definition phoned_receipt : JsVal :=
  JObj [("customerName", JStr "Ann");
        ("customerEmail", ann);
        ("customerPhone", phone);
        ("transactionDate", JStr "2024-05-01");
        ("items", lines);
        ("subtotal", JNum 7);
        ("taxRate", JNum 25);
        ("tax", JNum 1.75);
        ("total", JNum 8.75);
        ("receiptNumber", JStr "REC-1714560000000");
        ("status", JStr "created")].

(** A signed-in browser whose backend has both services configured and
    stores the receipt under [r-17]; the request after that gets each of
    [next] in turn, and from then on an email-only send goes through and
    the receipts are listed. *)
Definition backend (next : list FetchOutcome) : World :=
  world logged_in
    ([answer 200 (JObj [("email", JObj [("configured", JBool true)]);
                        ("sms", JObj [("configured", JBool true)])]);
      answer 201 (JObj [("receipt", JObj [("id", receipt_id)])])]
     ++ next
     ++ [answer 200 (JObj [("success", JBool true)]);
         answer 200 (JObj [("receipts", JArr [])])]).

(** The receipt is opened from the list of a fresh dashboard and sent. *)
Definition view_and_send (receipt : JsVal) (w : World) : Dashboard.State * World :=
  snd (Dashboard.handleSendReceipt
         (snd (Dashboard.handleViewReceipt receipt (Dashboard.initial, w)))).

(** The method and URL of each request made, in order. *)
Definition requested (s : Dashboard.State * World) : list (string * string) :=
  List.map (fun r => (default "GET" (method r), url r)) (requests (snd s)).

End Sample.

(** ** The profile methods of authAPI *)

Module ProfileCalls.

(** A call of one of the three methods of [authAPI] that need a session. *)
Inductive ProfileCall :=
| auth_getProfile
| auth_updateProfile (profileData : JsVal)
| auth_changePassword (currentPassword newPassword : JsVal).

Definition perform (c : ProfileCall) : M ApiResult :=
  match c with
  | auth_getProfile => authAPI.getProfile
  | auth_updateProfile profileData => authAPI.updateProfile profileData
  | auth_changePassword currentPassword newPassword =>
      authAPI.changePassword currentPassword newPassword
  end.

End ProfileCalls.

(** ** Query strings *)

(** The parser of application/x-www-form-urlencoded text, which is what
    reads the query string of a request on the other side: the text is cut
    at every ampersand, each non-empty piece at its first equals sign, and
    both halves are decoded (a plus sign is a space, a percent sign and two
    hexadecimal digits are a byte). *)
Module FormUrlencoded.

Definition unhex (c : ascii) : option N :=
  let n := N_of_ascii c in
  if ((48 <=? n) && (n <=? 57))%N then Some (n - 48)%N
  else if ((65 <=? n) && (n <=? 70))%N then Some (n - 55)%N
  else if ((97 <=? n) && (n <=? 102))%N then Some (n - 87)%N
  else None.

Fixpoint decode (s : string) : string :=
  match s with
  | EmptyString => ""
  | String c rest =>
      if (N_of_ascii c =? 43)%N then String " " (decode rest)
      else if (N_of_ascii c =? 37)%N then
        match rest with
        | String a (String b rest') =>
            match unhex a, unhex b with
            | Some x, Some y => String (ascii_of_N (16 * x + y)) (decode rest')
            | _, _ => String c (decode rest)
            end
        | _ => String c (decode rest)
        end
      else String c (decode rest)
  end.

(** The pieces of [s] between the occurrences of [sep]. *)
Fixpoint split (sep : ascii) (s : string) : list string :=
  match s with
  | EmptyString => [""]
  | String c rest =>
      if Ascii.eqb c sep then "" :: split sep rest
      else match split sep rest with
           | first :: others => String c first :: others
           | [] => [String c ""]
           end
  end.

(** A piece cut at its first equals sign. *)
Fixpoint name_value (s : string) : string * string :=
  match s with
  | EmptyString => ("", "")
  | String c rest =>
      if Ascii.eqb c "=" then ("", rest)
      else let '(n, v) := name_value rest in (String c n, v)
  end.

Definition parse (query : string) : list (string * string) :=
  List.map (fun piece => let '(n, v) := name_value piece in (decode n, decode v))
           (List.filter Js.nonempty (split "&" query)).

(** No byte of [s] satisfies [p]. *)
Fixpoint free_of (p : ascii -> bool) (s : string) : bool :=
  match s with
  | EmptyString => true
  | String c rest => negb (p c) && free_of p rest
  end.

(** The two bytes that delimit names and values. *)
Definition delimiter (c : ascii) : bool := Ascii.eqb c "&" || Ascii.eqb c "=".

(** One parameter as [URLSearchParams] writes it. *)
Definition pair_text (kv : string * string) : string :=
  let '(k, v) := kv in URLSearchParams.encode k +:+ "=" +:+ URLSearchParams.encode v.

End FormUrlencoded.

(** ** Signing in through the context *)

Module ContextCalls.

(** [login] and [signup] of the auth context, by the API call they make. *)
Definition enter (c : AuthCalls.AuthCall) : AuthContext.C AuthContext.Outcome :=
  match c with
  | AuthCalls.auth_login email password => AuthContext.login email password
  | AuthCalls.auth_register userData => AuthContext.signup userData
  end.

(** What a page shows after [login] or [signup] came back: where it
    navigated and the error it set; [text] is the page's own wording for a
    failure without a message. *)
Definition shown (text : string) (attempt : Result AuthContext.Outcome)
  : list string * JsVal :=
  match attempt with
  | Ret result =>
      if AuthContext.success result then (["/"], JStr "")
      else ([], Js.or (AuthContext.error result) (JStr text))
  | Throw _ => ([], JStr "An unexpected error occurred. Please try again.")
  end.

End ContextCalls.

(** ** What the form lets through *)

Module Validity.
Import ReceiptForm.

(** Customer details and line items that are filled in: no customer field
    is empty, every item has a name, and no price compares as at most 0. *)
Definition filled (customer email date : string) (l : list Item) : Prop :=
  customer <> "" /\ email <> "" /\ date <> ""
  /\ Forall (fun item => name item <> "" /\ (price item <=? 0)%float = false) l.

Definition valid (d : Receipt) : Prop :=
  filled (r_customerName d) (r_customerEmail d) (r_transactionDate d) (r_items d).

Definition complete (st : State) : Prop :=
  filled (customerName st) (customerEmail st) (transactionDate st) (items st).

End Validity.

(** ** The SMS channel *)

Module Channels.

(** A request to one of the two endpoints that send an SMS. *)
Definition sms (base : string) (r : Request) : bool :=
  String.prefix (base +:+ "/notifications/send-both/") (url r)
  || String.prefix (base +:+ "/notifications/send-sms/") (url r).

(** [s'] comes after [s] and no request in between went to the SMS
    channel. *)
Definition without_sms {S} `{HasWorld S} : relation S :=
  fun s s' =>
    API_BASE_URL (world_of s') = API_BASE_URL (world_of s)
    /\ exists l, requests (world_of s') = requests (world_of s) ++ l
                 /\ Forall (fun r => sms (API_BASE_URL (world_of s)) r = false) l.

(** An endpoint outside the SMS channel. *)
Definition plain (endpoint : string) : bool :=
  negb (String.prefix "/notifications/send-both/" endpoint)
  && negb (String.prefix "/notifications/send-sms/" endpoint).

End Channels.

(** ** The console *)

Module Console.

(** The browser after [console.error(label, e)]. *)
Definition logged (label : string) (e : Exn) (w : World) : World :=
  snd (log (ConsoleError label e) w).

End Console.

(** * Properties *)

(** ** Receipt totals *)

Module TotalsFacts.
Import ReceiptForm Totals.

Lemma partial_sum_app l l' k :
  (k <= length l)%nat -> partial_sum (l ++ l') k = partial_sum l k.
Proof.
  induction k as [|k IH]; intros Hk; simpl; [reflexivity|].
  rewrite IH by lia.
  rewrite app_nth1 by lia. reflexivity.
Qed.

Lemma sum_of_lines_snoc l item :
  sum_of_lines (l ++ [item]) = (sum_of_lines l + line_total item)%float.
Proof.
  unfold sum_of_lines. rewrite length_app. simpl.
  replace (length l + 1)%nat with (S (length l)) by lia. simpl.
  rewrite partial_sum_app by lia.
  rewrite app_nth2 by lia. rewrite Nat.sub_diag. reflexivity.
Qed.

Lemma reduce_is_sum l :
  fold_left (fun sum item => (sum + quantity item * price item)%float) l 0%float
  = sum_of_lines l.
Proof.
  induction l as [|item l IH] using rev_ind; [reflexivity|].
  rewrite fold_left_app. simpl. rewrite IH.
  symmetry. apply sum_of_lines_snoc.
Qed.

Lemma subtotal_is_sum st : subtotal st = sum_of_lines (items st).
Proof. apply reduce_is_sum. Qed.

Lemma handleSubmit_consistent st :
  match fst (handleSubmit st) with
  | OnSubmit d => consistent d
  | Alert _ => True
  end.
Proof.
  unfold handleSubmit.
  destruct (_ || _ || _); [exact I|].
  destruct (existsb _ _); [exact I|].
  simpl. unfold consistent. simpl.
  repeat split. apply subtotal_is_sum.
Qed.

Lemma run_submitted_consistent evs : forall st,
  Forall consistent (submitted (fst (run st evs))).
Proof.
  induction evs as [|ev evs IH]; intros st; simpl; [constructor|].
  destruct (step st ev) as [out st'] eqn:Hstep.
  specialize (IH st'). destruct (run st' evs) as [outs st''].
  simpl in *.
  destruct out as [[text|d]|]; simpl; try exact IH.
  constructor; [|exact IH].
  destruct ev; simpl in Hstep; try discriminate.
  pose proof (handleSubmit_consistent st) as Hc.
  destruct (handleSubmit st) as [o s]. simpl in Hc.
  inversion Hstep; subst. exact Hc.
Qed.

(** Number addition is not associative: adding the same line totals from
    the right gives another subtotal.  The sum of the spec is the one
    accumulated in item order. *)
Remark sum_order_matters :
  let l := [ {| id := 1; name := "a"; quantity := 1; price := 0.1 |};
             {| id := 2; name := "b"; quantity := 1; price := 0.2 |};
             {| id := 3; name := "c"; quantity := 1; price := 0.3 |} ] in
  sum_of_lines l <> sum_from_the_right l.
Proof.
  intros l H.
  assert (E : PrimFloat.eqb (sum_of_lines l) (sum_from_the_right l) = false)
    by (vm_compute; reflexivity).
  rewrite H in E. vm_compute in E. discriminate.
Qed.

End TotalsFacts.

(** C2: for every form state, the computed subtotal is the sum over the
    items of quantity times price (Number arithmetic, accumulated in item
    order), the tax is subtotal times taxRate divided by 100 and the total is
    subtotal plus tax; and every receipt the form hands to [onSubmit], from
    any state and after any sequence of user events, satisfies
    total = subtotal + tax and subtotal = sum of quantity times price. *)
Theorem receipt_totals (st : ReceiptForm.State) (evs : list ReceiptForm.Event) :
  ReceiptForm.subtotal st = Totals.sum_of_lines (ReceiptForm.items st)
  /\ ReceiptForm.tax st
     = (ReceiptForm.subtotal st * ReceiptForm.taxRate st / 100)%float
  /\ ReceiptForm.total st = (ReceiptForm.subtotal st + ReceiptForm.tax st)%float
  /\ Forall Totals.consistent
       (ReceiptForm.submitted (fst (ReceiptForm.run st evs))).
Proof.
  split; [apply TotalsFacts.subtotal_is_sum|].
  split; [reflexivity|].
  split; [reflexivity|].
  apply TotalsFacts.run_submitted_consistent.
Qed.

(** ** The item list of the form *)

Module ItemsInvariant.
Import ReceiptForm Items.

Lemma keeps_all i l :
  ~ In i (List.map id l) -> List.filter (keeps i) l = l.
Proof.
  induction l as [|item l IH]; simpl; intros Hn; [reflexivity|].
  unfold keeps at 1.
  destruct (N.eqb_spec (id item) i) as [E|E]; simpl.
  - exfalso. apply Hn. left. exact E.
  - f_equal. apply IH. intros Hin. apply Hn. right. exact Hin.
Qed.

(** With distinct ids, removing an id drops at most one item. *)
Lemma filter_keeps_length i l :
  List.NoDup (List.map id l) ->
  (length l <= S (length (List.filter (keeps i) l)))%nat.
Proof.
  induction l as [|item l IH]; simpl; intros Hnd; [lia|].
  apply List.NoDup_cons_iff in Hnd as [Hfresh Hnd].
  unfold keeps at 1.
  destruct (N.eqb_spec (id item) i) as [E|E]; simpl.
  - subst i. rewrite keeps_all by exact Hfresh. lia.
  - specialize (IH Hnd). lia.
Qed.

Lemma filter_ids_distinct (f : Item -> bool) l :
  List.NoDup (List.map id l) -> List.NoDup (List.map id (List.filter f l)).
Proof.
  induction l as [|item l IH]; simpl; intros Hnd; [constructor|].
  apply List.NoDup_cons_iff in Hnd as [Hfresh Hnd].
  destruct (f item); simpl; [|apply IH; exact Hnd].
  apply List.NoDup_cons_iff. split; [|apply IH; exact Hnd].
  intros Hin. apply Hfresh.
  apply in_map_iff in Hin as (x & Hx & Hin).
  apply filter_In in Hin as [Hin _].
  apply in_map_iff. exists x. split; assumption.
Qed.

Lemma update_keeps_ids i fv l :
  List.map id (List.map (fun item => if (id item =? i)%N then with_field item fv else item) l)
  = List.map id l.
Proof.
  induction l as [|item l IH]; simpl; [reflexivity|].
  rewrite IH. f_equal.
  destruct (id item =? i)%N; [destruct fv|]; reflexivity.
Qed.

Lemma Inv_initial : Inv initial.
Proof.
  split; simpl.
  - discriminate.
  - constructor; [intros []|constructor].
  - constructor; [reflexivity|constructor].
Qed.

Lemma Inv_reset t : Inv {| customerName := ""; customerEmail := "";
                           transactionDate := ""; items := [blank_item 1];
                           taxRate := t; nextId := 2 |}.
Proof.
  split; simpl.
  - discriminate.
  - constructor; [intros []|constructor].
  - constructor; [reflexivity|constructor].
Qed.

Lemma Inv_handleAddItem st : Inv st -> Inv (handleAddItem st).
Proof.
  intros [Hne Hnd Hlt]. split; simpl.
  - destruct (items st); discriminate.
  - rewrite map_app. simpl. apply List.NoDup_app.
    + exact Hnd.
    + constructor; [intros []|constructor].
    + intros x Hx [E|[]]. subst x.
      apply in_map_iff in Hx as (item & E & Hin).
      rewrite List.Forall_forall in Hlt. specialize (Hlt _ Hin). simpl in Hlt. lia.
  - apply List.Forall_app. split.
    + eapply List.Forall_impl; [|exact Hlt]. simpl. intros item H. lia.
    + constructor; [simpl; lia|constructor].
Qed.

Lemma Inv_handleRemoveItem i st : Inv st -> Inv (handleRemoveItem i st).
Proof.
  intros [Hne Hnd Hlt]. unfold handleRemoveItem.
  destruct (Nat.ltb_spec 1 (length (items st))) as [Hlen|Hlen];
    [|split; assumption].
  split; simpl.
  - pose proof (filter_keeps_length i (items st) Hnd) as Hl.
    fold (keeps i). intros E. rewrite E in Hl. simpl in Hl. lia.
  - apply filter_ids_distinct. exact Hnd.
  - rewrite List.Forall_forall in *. intros item Hin.
    apply filter_In in Hin as [Hin _]. apply Hlt. exact Hin.
Qed.

Lemma handleRemoveItem_length i st :
  Inv st -> (length (items st) <= S (length (items (handleRemoveItem i st))))%nat.
Proof.
  intros [Hne Hnd Hlt]. unfold handleRemoveItem.
  destruct (Nat.ltb_spec 1 (length (items st))) as [Hlen|Hlen]; [|lia].
  simpl. apply filter_keeps_length. exact Hnd.
Qed.

Lemma Inv_handleUpdateItem i fv st : Inv st -> Inv (handleUpdateItem i fv st).
Proof.
  intros [Hne Hnd Hlt]. split; simpl.
  - destruct (items st); [congruence|discriminate].
  - rewrite update_keeps_ids. exact Hnd.
  - rewrite List.Forall_forall in *. intros item Hin.
    apply in_map_iff in Hin as (x & E & Hin). subst item.
    specialize (Hlt _ Hin).
    destruct (id x =? i)%N; [destruct fv|]; exact Hlt.
Qed.

Lemma Inv_handleSubmit st : Inv st -> Inv (snd (handleSubmit st)).
Proof.
  intros H. unfold handleSubmit.
  destruct (_ || _ || _); [exact H|].
  destruct (existsb _ _); [exact H|].
  apply Inv_reset.
Qed.

Lemma Inv_step st ev : Inv st -> Inv (snd (step st ev)).
Proof.
  intros H. destruct ev; simpl.
  1-4: destruct H as [Hne Hnd Hlt]; split; assumption.
  - apply Inv_handleAddItem, H.
  - apply Inv_handleRemoveItem, H.
  - apply Inv_handleUpdateItem, H.
  - pose proof (Inv_handleSubmit st H) as H'.
    destruct (handleSubmit st). exact H'.
Qed.

Lemma handleSubmit_items st :
  match fst (handleSubmit st) with
  | OnSubmit d => r_items d = items st
  | Alert _ => True
  end.
Proof.
  unfold handleSubmit.
  destruct (_ || _ || _); [exact I|].
  destruct (existsb _ _); [exact I|]. reflexivity.
Qed.

Lemma Inv_run evs : forall st,
  Inv st ->
  Inv (snd (run st evs))
  /\ Forall (fun d => r_items d <> []) (submitted (fst (run st evs))).
Proof.
  induction evs as [|ev evs IH]; intros st H; simpl.
  - split; [exact H|constructor].
  - pose proof (Inv_step st ev H) as H'.
    destruct (step st ev) as [out st'] eqn:Hstep. simpl in H'.
    destruct (IH st' H') as [Hinv Hsub].
    destruct (run st' evs) as [outs st'']. simpl in *.
    split; [exact Hinv|].
    destruct out as [[text|d]|]; simpl; try exact Hsub.
    constructor; [|exact Hsub].
    destruct ev; simpl in Hstep; try discriminate.
    pose proof (handleSubmit_items st) as Hi.
    destruct (handleSubmit st) as [o s]. simpl in Hi.
    inversion Hstep; subst. rewrite Hi. apply H.
Qed.

End ItemsInvariant.

Example the_last_item_stays :
  ReceiptForm.handleRemoveItem 1 ReceiptForm.initial = ReceiptForm.initial.
Proof. reflexivity. Qed.

Example one_of_two_items_goes :
  List.map ReceiptForm.id
    (ReceiptForm.items
       (ReceiptForm.handleRemoveItem 1 (ReceiptForm.handleAddItem ReceiptForm.initial)))
  = [2%N].
Proof. reflexivity. Qed.

(** C9: the item list of the receipt form is never empty.  It starts with
    one item; [handleAddItem] appends one item; [handleRemoveItem] changes
    the list only when it holds more than one item; a submit that goes
    through resets the list to one blank item; so after any sequence of user
    events the list is not empty, a removal drops at most one item of it,
    and every receipt handed to [onSubmit] has at least one line item. *)
Theorem items_never_empty (evs : list ReceiptForm.Event) (st : ReceiptForm.State) (i : N) :
  ReceiptForm.items ReceiptForm.initial = [ReceiptForm.blank_item 1]
  /\ ReceiptForm.items (ReceiptForm.handleAddItem st)
     = ReceiptForm.items st ++ [ReceiptForm.blank_item (ReceiptForm.nextId st)]
  /\ (ReceiptForm.handleRemoveItem i st = st
      \/ (1 < length (ReceiptForm.items st))%nat)
  /\ match ReceiptForm.handleSubmit st with
     | (ReceiptForm.OnSubmit _, st') =>
         ReceiptForm.items st' = [ReceiptForm.blank_item 1]
     | (ReceiptForm.Alert _, st') => st' = st
     end
  /\ ReceiptForm.items (snd (ReceiptForm.run ReceiptForm.initial evs)) <> []
  /\ (length (ReceiptForm.items (snd (ReceiptForm.run ReceiptForm.initial evs)))
      <= S (length (ReceiptForm.items
                      (ReceiptForm.handleRemoveItem i
                         (snd (ReceiptForm.run ReceiptForm.initial evs))))))%nat
  /\ Forall (fun d => ReceiptForm.r_items d <> [])
       (ReceiptForm.submitted (fst (ReceiptForm.run ReceiptForm.initial evs))).
Proof.
  split; [reflexivity|].
  split; [reflexivity|].
  split.
  { unfold ReceiptForm.handleRemoveItem.
    destruct (Nat.ltb_spec 1 (length (ReceiptForm.items st))); [right; assumption|left; reflexivity]. }
  split.
  { unfold ReceiptForm.handleSubmit.
    destruct (_ || _ || _); [reflexivity|].
    destruct (existsb _ _); reflexivity. }
  destruct (ItemsInvariant.Inv_run evs _ ItemsInvariant.Inv_initial) as [Hinv Hsub].
  split; [apply Hinv|].
  split; [|exact Hsub].
  apply ItemsInvariant.handleRemoveItem_length, Hinv.
Qed.

(** ** The requests of the API layer *)

Module ApiFacts.
Import Wire.

Lemma app_two {A} (l : list A) a b : (l ++ [a]) ++ [b] = l ++ [a; b].
Proof. rewrite <- app_assoc. reflexivity. Qed.

Lemma app_three {A} (l : list A) a b c : ((l ++ [a]) ++ [b]) ++ [c] = l ++ [a; b; c].
Proof. rewrite <- !app_assoc. reflexivity. Qed.

(** [refreshAccessToken] never throws: it issues one request and returns
    whether a new access token was stored. *)
Lemma refreshAccessToken_spec tok w :
  refreshAccessToken tok w =
  match refreshed_token (network w (requests w) (refresh w tok)) with
  | Some t => (Ret true, set_storage (insert "access_token" t) (sent (refresh w tok) w))
  | None => (Ret false, sent (refresh w tok) w)
  end.
Proof.
  unfold refreshAccessToken, try_catch, bind, base_url, fetch, refreshed_token, lift.
  fold (refresh w tok).
  destruct (network w (requests w) (refresh w tok)) as [r|e]; [|reflexivity].
  destruct (ok r); [|reflexivity].
  destruct (json r) as [data|e]; [|reflexivity].
  destruct (Js.get data "access_token"); reflexivity.
Qed.

(** [apiRequest] in terms of the network's answers. *)
Lemma apiRequest_spec endpoint options w :
  apiRequest endpoint options w =
  let o := original endpoint options w in
  match network w (requests w) o with
  | Rejects e => (Throw e, sent o w)
  | Resolves r =>
      if (status r =? 401)%N then
        match stored_refresh_token w with
        | Some tok =>
            let f := refresh w tok in
            match refreshed_token (network w (requests w ++ [o]) f) with
            | Some t =>
                let q := retry endpoint options w t in
                (settle (network w (requests w ++ [o; f]) q),
                 refreshed w t [o; f; q])
            | None => (Throw (Error "Session expired"), expired w [o; f])
            end
        | None => (Throw (Error "Session expired"), expired w [o])
        end
      else (Ret r, sent o w)
  end.
Proof.
  cbv zeta.
  unfold apiRequest, bind at 1, getToken, getItem.
  unfold bind at 1, base_url. unfold bind at 1, fetch at 1.
  fold (original endpoint options w).
  set (o := original endpoint options w).
  destruct (network w (requests w) o) as [r|e]; [|reflexivity].
  destruct (status r =? 401)%N; [|reflexivity].
  unfold stored_refresh_token.
  unfold bind at 1. simpl.
  destruct (localStorage w !! "refresh_token") as [tok|] eqn:Etok; simpl;
    [|reflexivity].
  destruct (Js.nonempty tok); [|reflexivity].
  unfold bind at 1. rewrite refreshAccessToken_spec.
  change (refresh (sent o w) tok) with (refresh w tok).
  change (requests (sent o w)) with (requests w ++ [o]).
  destruct (refreshed_token _) as [t|]; simpl.
  - unfold bind, getToken, getItem, fetch. simpl.
    rewrite lookup_insert_eq. simpl.
    fold (retry endpoint options w t). rewrite app_two.
    destruct (network w _ _); unfold refreshed, sent, set_storage; simpl;
      rewrite app_three; reflexivity.
  - unfold expired, sent. simpl. rewrite app_two. reflexivity.
Qed.

End ApiFacts.

(** C1: when the first answer to a request made through [apiRequest] is a
    401 response, then
    - with a refresh token in storage and a refresh call that yields a new
      access token, exactly three requests are issued: the original, one to
      the refresh endpoint, and one retry of the original bearing the newly
      stored access token, whose outcome is the outcome of the call;
    - with a refresh token in storage and a refresh call that fails, the
      original and one refresh request are issued, the stored tokens and the
      cached user are removed, the location becomes /login and the call
      throws Session expired;
    - with no refresh token in storage, only the original request is
      issued, and the same wipe, redirect and throw follow. *)
Theorem session_refresh (endpoint : string) (options : Options) (w : World) (r : Response) :
  network w (requests w) (Wire.original endpoint options w) = Resolves r ->
  status r = 401%N ->
  let o := Wire.original endpoint options w in
  apiRequest endpoint options w =
  match Wire.stored_refresh_token w with
  | Some refreshToken =>
      let f := Wire.refresh w refreshToken in
      match Wire.refreshed_token (network w (requests w ++ [o]) f) with
      | Some token =>
          let q := Wire.retry endpoint options w token in
          (Wire.settle (network w (requests w ++ [o; f]) q),
           Wire.refreshed w token [o; f; q])
      | None => (Throw (Error "Session expired"), Wire.expired w [o; f])
      end
  | None => (Throw (Error "Session expired"), Wire.expired w [o])
  end.
Proof.
  intros Hanswer Hstatus o. subst o.
  rewrite ApiFacts.apiRequest_spec. cbv zeta.
  rewrite Hanswer, Hstatus. reflexivity.
Qed.

Lemma session_refresh_witness :
  apiRequest "/receipts/stats" no_options Sample.expired_access
  = (Ret {| status := 200; json := Ret Sample.stats |},
     Wire.refreshed Sample.expired_access "a2"
       [Wire.original "/receipts/stats" no_options Sample.expired_access;
        Wire.refresh Sample.expired_access "r1";
        Wire.retry "/receipts/stats" no_options Sample.expired_access "a2"]).
Proof.
  refine (eq_trans
            (session_refresh "/receipts/stats" no_options Sample.expired_access
               {| status := 401; json := Ret (JObj [("msg", JStr "Token has expired")]) |}
               _ _) _).
  - vm_compute. reflexivity.
  - reflexivity.
  - vm_compute. reflexivity.
Defined.

(** ** The protected route *)

(** C6: on every render of the protected route, a spinner is shown while
    the auth context is loading; once loading is over, the route redirects
    to /login (replacing the history entry) when the context holds no
    authenticated user, that is when [user] is falsy, and renders the
    protected children otherwise. *)
Theorem protected_route_gate {A : Type} (auth : AuthContext.State) (children : A) :
  AuthContext.isAuthenticated auth = Js.truthy (AuthContext.user auth)
  /\ match AuthContext.loading auth, AuthContext.isAuthenticated auth with
     | true, _ => ProtectedRoute auth children = Spinner
     | false, false => ProtectedRoute auth children = Navigate "/login" true
     | false, true => ProtectedRoute auth children = Children children
     end.
Proof.
  split; [reflexivity|].
  unfold ProtectedRoute.
  destruct (AuthContext.loading auth); [reflexivity|].
  destruct (AuthContext.isAuthenticated auth); reflexivity.
Qed.

(** The route on the states the provider goes through: the spinner before
    the mount effect has run, the login page after a logout. *)
Lemma protected_route_initially {A : Type} (children : A) :
  ProtectedRoute AuthContext.initial children = Spinner.
Proof. reflexivity. Qed.

Lemma protected_route_after_logout {A : Type} (children : A) (u : JsVal) (w : World) :
  let auth := {| AuthContext.user := u; AuthContext.loading := false |} in
  ProtectedRoute (fst (snd (AuthContext.logout (auth, w)))) children
  = Navigate "/login" true.
Proof. reflexivity. Qed.

(** ** The receipt number *)

(** C5: [handleCreateReceipt], the form's [onSubmit], stores the submitted
    data under a receipt number that is the text REC- followed by the value
    of [Date.now()], and in the same update turns the preview on; it does
    nothing else.  So whenever the form hands over a receipt, the state in
    which the preview is first shown already carries its number. *)
Theorem receipt_number_generated (now date : float) (data : ReceiptForm.Receipt)
    (form : ReceiptForm.State) (s : Dashboard.State * World) :
  (let s' := snd (Dashboard.handleCreateReceipt now date data s) in
   fst (Dashboard.handleCreateReceipt now date data s) = Ret tt
   /\ Dashboard.formData (fst s')
      = Some (Dashboard.Composed data ("REC-" +:+ Number.toString now) date "Not Sent")
   /\ Dashboard.showPreview (fst s') = true
   /\ snd s' = snd s)
  /\ (let s' := snd (Dashboard.form_submitted now date form s) in
      match fst (ReceiptForm.handleSubmit form) with
      | ReceiptForm.OnSubmit d =>
          Dashboard.formData (fst s')
          = Some (Dashboard.Composed d ("REC-" +:+ Number.toString now) date "Not Sent")
          /\ Dashboard.showPreview (fst s') = true
      | ReceiptForm.Alert _ => s' = s
      end).
Proof.
  split.
  - repeat split.
  - unfold Dashboard.form_submitted.
    destruct (ReceiptForm.handleSubmit form) as [[text|d] form']; simpl.
    + destruct s; reflexivity.
    + split; reflexivity.
Qed.

Example receipt_number_sample :
  "REC-" +:+ Number.toString 1700000000000%float = "REC-1700000000000".
Proof. vm_compute. reflexivity. Qed.

(** ** The methods of receiptsAPI and notificationsAPI *)

Module CallFacts.
Import Calls CallTable.

Lemma append_cons x (a b : string) : String x a +:+ b = String x (a +:+ b).
Proof. reflexivity. Qed.

Lemma append_assoc (a b c : string) : (a +:+ b) +:+ c = a +:+ (b +:+ c).
Proof.
  induction a as [|x a IH]; [reflexivity|].
  rewrite !append_cons, IH. reflexivity.
Qed.

Lemma append_empty_r (a : string) : a +:+ "" = a.
Proof.
  induction a as [|x a IH]; [reflexivity|].
  rewrite append_cons, IH. reflexivity.
Qed.

Lemma append_inj_l (a x y : string) : a +:+ x = a +:+ y -> x = y.
Proof.
  induction a as [|c a IH]; intros H; [exact H|].
  rewrite !append_cons in H. apply IH. congruence.
Qed.

Lemma getAll_query page perPage search status :
  URLSearchParams.toString (receiptsAPI.getAll_params page perPage search status)
  = query page perPage search status.
Proof.
  unfold receiptsAPI.getAll_params, query, URLSearchParams.toString.
  destruct search as [[|c s]|], status as [[|c' s']|];
    cbn [default Js.nonempty app List.map Js.join];
    rewrite ?append_assoc, ?append_empty_r; reflexivity.
Qed.

Lemma perform_exchange c w :
  perform c w =
  (match fst (apiRequest (endpoint c) (options c) w) with
   | Ret r => read r
   | Throw e => Throw e
   end,
   snd (apiRequest (endpoint c) (options c) w)).
Proof.
  assert (H : forall e o, (let* response := apiRequest e o in ok_and_data response) w
                          = (match fst (apiRequest e o w) with
                             | Ret r => read r
                             | Throw x => Throw x
                             end, snd (apiRequest e o w))).
  { intros e o. unfold bind.
    destruct (apiRequest e o w) as [[r|x] w']; simpl; [|reflexivity].
    unfold ok_and_data, bind, lift, read, ret.
    destruct (json r); reflexivity. }
  destruct c; simpl perform; simpl endpoint; simpl options;
    try (rewrite <- getAll_query); apply H.
Qed.

Lemma apiRequest_issued e o w :
  requests (snd (apiRequest e o w)) = requests w ++ issued e o w.
Proof.
  rewrite ApiFacts.apiRequest_spec. unfold issued. cbv zeta.
  destruct (network w (requests w) _) as [r|x]; [|reflexivity].
  destruct (status r =? 401)%N; [|reflexivity].
  destruct (Wire.stored_refresh_token w) as [tok|]; [|reflexivity].
  destruct (Wire.refreshed_token _); reflexivity.
Qed.

End CallFacts.

Module GetAllFacts.
Import Calls CallTable CallFacts.

Lemma refresh_is_not_receipts w tok q :
  String.eqb (url (Wire.refresh w tok)) (API_BASE_URL w +:+ "/receipts?" +:+ q) = false.
Proof.
  apply String.eqb_neq. simpl. intros H.
  apply append_inj_l in H. rewrite !append_cons in H. discriminate.
Qed.

Lemma receipts_gets_length w q :
  let e := "/receipts?" +:+ q in
  length (receipts_gets w q (issued e no_options w))
  = (if retried e no_options w then 2 else 1)%nat.
Proof.
  intros e. unfold issued, retried, receipts_gets. cbv zeta.
  set (P := fun r : Request => _).
  assert (Ho : P (Wire.original e no_options w) = true).
  { unfold P. simpl. rewrite String.eqb_refl. reflexivity. }
  assert (Hf : forall tok, P (Wire.refresh w tok) = false).
  { intros tok. unfold P. rewrite refresh_is_not_receipts. reflexivity. }
  assert (Hq : forall t, P (Wire.retry e no_options w t) = true).
  { intros t. unfold P. simpl. rewrite String.eqb_refl. reflexivity. }
  destruct (network w (requests w) _) as [r|x];
    [|cbn [List.filter]; rewrite Ho; reflexivity].
  destruct (status r =? 401)%N; [|cbn [List.filter]; rewrite Ho; reflexivity].
  destruct (Wire.stored_refresh_token w) as [tok|];
    [|cbn [List.filter]; rewrite Ho; reflexivity].
  destruct (Wire.refreshed_token _) as [t|];
    cbn [List.filter]; rewrite Ho, Hf, ?Hq; reflexivity.
Qed.

End GetAllFacts.

(** C7, amended: every call [getAll(page, perPage, search, status)] goes
    through one [apiRequest] for [/receipts?query] with no method (a GET)
    and no body.  The query always holds page and per_page (1 and 20 when
    absent), holds search exactly when the search argument is a non-empty
    string, and status likewise.  One GET request is issued, and a second
    one, the retry, exactly when the first answer is a 401 and the token
    refresh succeeds.  The result is [{ ok, data }] of the last response,
    when there is one and its body parses; otherwise the call throws. *)
Theorem getAll_request (page perPage : option float) (search status : option string)
    (w : World) :
  let params := receiptsAPI.getAll_params page perPage search status in
  let q := Calls.query page perPage search status in
  let endpoint := "/receipts?" +:+ q in
  let o := Wire.original endpoint no_options w in
  let outcome := receiptsAPI.getAll page perPage search status w in
  List.map fst params
  = ["page"; "per_page"]
      ++ (match search with Some (String _ _) => ["search"] | _ => [] end)
      ++ (match status with Some (String _ _) => ["status"] | _ => [] end)
  /\ List.map snd (firstn 2 params)
     = [Number.toString (default 1%float page); Number.toString (default 20%float perPage)]
  /\ URLSearchParams.toString params = q
  /\ url o = API_BASE_URL w +:+ "/receipts?" +:+ q
  /\ method o = None
  /\ body o = None
  /\ requests (snd outcome) = requests w ++ CallTable.issued endpoint no_options w
  /\ length (Calls.receipts_gets w q (CallTable.issued endpoint no_options w))
     = (if CallTable.retried endpoint no_options w then 2 else 1)%nat
  /\ fst outcome
     = match fst (apiRequest endpoint no_options w) with
       | Ret r => Calls.read r
       | Throw e => Throw e
       end.
Proof.
  cbv zeta.
  split. { destruct search as [[|c s]|], status as [[|c' s']|]; reflexivity. }
  split. { reflexivity. }
  split. { apply CallFacts.getAll_query. }
  split. { reflexivity. }
  split. { reflexivity. }
  split. { reflexivity. }
  pose proof (CallFacts.perform_exchange
                (Calls.receipts_getAll page perPage search status) w) as H.
  simpl Calls.perform in H. simpl CallTable.endpoint in H. simpl CallTable.options in H.
  rewrite H. simpl fst. simpl snd.
  split. { apply CallFacts.apiRequest_issued. }
  split; [|reflexivity].
  apply GetAllFacts.receipts_gets_length.
Qed.

(** With an expired access token and a good refresh token, one call of
    [getAll] issues two GET requests to [/receipts], not one. *)
Lemma getAll_request_counterexample :
  length (Calls.receipts_gets Sample.expired_access "page=1&per_page=20"
            (requests (snd (receiptsAPI.getAll None None None None Sample.expired_access))))
  = 2%nat.
Proof. vm_compute. reflexivity. Qed.

(** C8, amended: every method of receiptsAPI and notificationsAPI makes
    one [apiRequest] and, when that hands back a response whose body
    parses as JSON, returns [{ ok, data }] with [ok] the ok flag of that
    response and [data] the parsed body.  In particular an answer other than
    a 401 is returned as it is, ok or not, without further classification.
    A 401 answer is not handed back but goes through the refresh of
    [apiRequest], and throws Session expired when no refresh token is
    stored; a rejected fetch and an unparsable body are thrown as well. *)
Theorem api_result (c : Calls.Call) (w : World) :
  let endpoint := CallTable.endpoint c in
  let options := CallTable.options c in
  let o := Wire.original endpoint options w in
  Calls.perform c w
  = (match fst (apiRequest endpoint options w) with
     | Ret r =>
         match json r with
         | Ret d => Ret {| res_ok := ok r; res_data := d |}
         | Throw e => Throw e
         end
     | Throw e => Throw e
     end,
     snd (apiRequest endpoint options w))
  /\ match network w (requests w) o with
     | Resolves r =>
         if (status r =? 401)%N then
           match Wire.stored_refresh_token w with
           | None => fst (Calls.perform c w) = Throw (Error "Session expired")
           | Some _ => True
           end
         else
           Calls.perform c w
           = (match json r with
              | Ret d => Ret {| res_ok := ok r; res_data := d |}
              | Throw e => Throw e
              end, sent o w)
     | Rejects e => Calls.perform c w = (Throw e, sent o w)
     end.
Proof.
  cbv zeta. split; [apply CallFacts.perform_exchange|].
  rewrite CallFacts.perform_exchange, ApiFacts.apiRequest_spec. cbv zeta.
  destruct (network w (requests w) _) as [r|e]; [|reflexivity].
  destruct (status r =? 401)%N; [|reflexivity].
  destruct (Wire.stored_refresh_token w); [exact I|reflexivity].
Qed.

(** The server answers [getStats] with a 401 response that has a JSON
    body; the method does not return [{ ok: false, data }] of it but
    throws. *)
Lemma api_result_counterexample :
  let w := Sample.signed_out in
  let r := {| status := 401; json := Ret (JObj [("msg", JStr "Token has expired")]) |} in
  network w (requests w) (Wire.original "/receipts/stats" no_options w) = Resolves r
  /\ ok r = false
  /\ fst (receiptsAPI.getStats w) = Throw (Error "Session expired")
  /\ fst (receiptsAPI.getStats w)
     <> Ret {| res_ok := false; res_data := JObj [("msg", JStr "Token has expired")] |}.
Proof.
  cbv zeta. split; [vm_compute; reflexivity|].
  split; [reflexivity|].
  assert (E : fst (receiptsAPI.getStats Sample.signed_out) = Throw (Error "Session expired"))
    by (vm_compute; reflexivity).
  split; [exact E|]. rewrite E. discriminate.
Qed.

(** ** Login and registration *)

Module AuthFacts.
Import AuthCalls.

Lemma get_get_opt data name v : Js.get data name = Ret v -> Js.get_opt data name = v.
Proof. destruct data; simpl; congruence. Qed.

Lemma get_throws_alike data name name' e :
  Js.get data name = Throw e -> exists e', Js.get data name' = Throw e'.
Proof. destruct data; simpl; intros H; try discriminate; eauto. Qed.

Lemma get_returns_alike data name name' v :
  Js.get data name = Ret v -> Js.get data name' = Ret (Js.get_opt data name').
Proof. destruct data; simpl; intros H; try discriminate; reflexivity. Qed.

(** The tail shared by [login] and [register], once the request is made. *)
Lemma exchange_spec req w :
  (let* response := fetch req in
   let* data := lift (json response) in
   (if ok response then
      let* access_token := lift (Js.get data "access_token") in
      let* refresh_token := lift (Js.get data "refresh_token") in
      setTokens access_token refresh_token >>
      let* user := lift (Js.get data "user") in
      setItem "user" (Js.stringify_toString user)
    else ret tt) >>
   ret {| res_ok := ok response; res_data := data |}) w
  = match network w (requests w) req with
    | Rejects e => (Throw e, sent req w)
    | Resolves r =>
        match json r with
        | Throw e => (Throw e, sent req w)
        | Ret data =>
            if ok r then
              match Js.get data "access_token" with
              | Throw e => (Throw e, sent req w)
              | Ret _ =>
                  (Ret {| res_ok := true; res_data := data |},
                   set_storage (session_stored data) (sent req w))
              end
            else (Ret {| res_ok := false; res_data := data |}, sent req w)
        end
    end.
Proof.
  unfold bind at 1, fetch.
  destruct (network w (requests w) req) as [r|e]; [|reflexivity].
  unfold bind at 1, lift at 1.
  destruct (json r) as [data|e]; [|reflexivity].
  destruct (ok r); [|reflexivity].
  destruct (Js.get data "access_token") as [a|e] eqn:Ea; [|reflexivity].
  rewrite (get_returns_alike _ _ "refresh_token" _ Ea).
  rewrite (get_returns_alike _ _ "user" _ Ea).
  apply get_get_opt in Ea. subst a.
  unfold session_stored, setTokens, bind, lift, setItem, ret, set_storage.
  destruct (Js.truthy (Js.get_opt data "refresh_token")); reflexivity.
Qed.

End AuthFacts.

(** C10, amended: [login] and [register] issue one request and, by its
    answer:
    - on an ok response whose body parses as JSON to a value with
      properties, write the access token and the user as JSON text to local
      storage, and the refresh token when the body carries a truthy one, and
      return [{ ok: true, data }];
    - on a response that is not ok and whose body parses, leave local
      storage as it is and return [{ ok: false, data }] without throwing;
    - on a body that does not parse, on an ok response whose body is
      [null], and on a rejected fetch, throw and leave local storage as it
      is.
    So local storage is written only after an ok response. *)
Theorem auth_session_storage (c : AuthCalls.AuthCall) (w : World) :
  let req := AuthCalls.request c w in
  localStorage (sent req w) = localStorage w
  /\ AuthCalls.perform c w
     = match network w (requests w) req with
       | Rejects e => (Throw e, sent req w)
       | Resolves r =>
           match json r with
           | Throw e => (Throw e, sent req w)
           | Ret data =>
               if ok r then
                 match Js.get data "access_token" with
                 | Throw e => (Throw e, sent req w)
                 | Ret _ =>
                     (Ret {| res_ok := true; res_data := data |},
                      set_storage (AuthCalls.session_stored data) (sent req w))
                 end
               else (Ret {| res_ok := false; res_data := data |}, sent req w)
           end
       end.
Proof.
  cbv zeta. split; [reflexivity|].
  destruct c as [email password|userData]; simpl AuthCalls.perform.
  - unfold authAPI.login. unfold bind at 1, base_url.
    apply AuthFacts.exchange_spec.
  - unfold authAPI.register. unfold bind at 1, base_url.
    apply AuthFacts.exchange_spec.
Qed.

(** The login request is answered 502 with a body that is not JSON: the
    response is not ok, and [login] throws instead of returning
    [{ ok: false, data }]. *)
Lemma auth_session_storage_counterexample :
  let w := Sample.bad_gateway in
  let c := AuthCalls.auth_login (JStr "ann@example.com") (JStr "secret") in
  let r := {| status := 502; json := Throw (SyntaxError "Unexpected token '<'") |} in
  network w (requests w) (AuthCalls.request c w) = Resolves r
  /\ ok r = false
  /\ fst (authAPI.login (JStr "ann@example.com") (JStr "secret") w)
     = Throw (SyntaxError "Unexpected token '<'")
  /\ forall data, fst (authAPI.login (JStr "ann@example.com") (JStr "secret") w)
                  <> Ret {| res_ok := false; res_data := data |}.
Proof.
  cbv zeta. split; [vm_compute; reflexivity|].
  split; [reflexivity|].
  assert (E : fst (authAPI.login (JStr "ann@example.com") (JStr "secret") Sample.bad_gateway)
              = Throw (SyntaxError "Unexpected token '<'"))
    by (vm_compute; reflexivity).
  split; [exact E|]. intros data. rewrite E. discriminate.
Qed.

Example login_accepted :
  let after := authAPI.login Sample.ann (JStr "secret") Sample.accepting in
  fst after = Ret {| res_ok := true; res_data := Sample.session |}
  /\ localStorage (snd after)
     = <[ "user" := Js.stringify_toString (JObj [("email", JStr "ann@example.com")]) ]>
         (<[ "refresh_token" := "r9" ]> (<[ "access_token" := "a9" ]> ∅)).
Proof. cbv zeta. split; vm_compute; reflexivity. Qed.

(** A refused login comes back as [{ ok: false, data }]; it does not go
    through the refresh flow, and what was stored stays. *)
Example login_refused :
  authAPI.login Sample.ann (JStr "wrong") Sample.refusing
  = (Ret {| res_ok := false;
            res_data := JObj [("error", JStr "Invalid email or password")] |},
     sent (AuthCalls.request (AuthCalls.auth_login Sample.ann (JStr "wrong")) Sample.refusing)
       Sample.refusing).
Proof. vm_compute. reflexivity. Qed.


(** ** Requests over a computation *)

Module LogFacts.
Import Log.

Section Combinators.
Context {S : Type} (R : relation S) `{!PreOrder R}.

Lemma respects_ret {A} (a : A) : respects R (ret a).
Proof. intros s. reflexivity. Qed.

Lemma respects_throw {A} (e : Exn) : respects R (throw (A := A) e).
Proof. intros s. reflexivity. Qed.

Lemma respects_lift {A} (r : Result A) : respects R (lift r).
Proof. intros s. reflexivity. Qed.

Lemma respects_bind {A B} (m : Eff S A) (k : A -> Eff S B) :
  respects R m -> (forall a, respects R (k a)) -> respects R (bind m k).
Proof.
  intros Hm Hk s. unfold bind. specialize (Hm s).
  destruct (m s) as [[a|e] s']; simpl in *; [|exact Hm].
  etransitivity; [exact Hm|apply Hk].
Qed.

Lemma respects_try_catch {A} (m : Eff S A) (h : Exn -> Eff S A) :
  respects R m -> (forall e, respects R (h e)) -> respects R (try_catch m h).
Proof.
  intros Hm Hh s. unfold try_catch. specialize (Hm s).
  destruct (m s) as [[a|e] s']; simpl in *; [exact Hm|].
  etransitivity; [exact Hm|apply Hh].
Qed.

Lemma respects_finally {A} (m : Eff S A) (f : Eff S unit) :
  respects R m -> respects R f -> respects R (finally m f).
Proof.
  intros Hm Hf s. unfold finally. specialize (Hm s).
  destruct (m s) as [r s']. specialize (Hf s'). simpl in *.
  destruct (f s') as [[u|e] s'']; simpl in *; etransitivity; eassumption.
Qed.

End Combinators.

#[global] Instance extends_preorder {S} `{HasWorld S} : PreOrder (extends (S := S)).
Proof.
  split.
  - intros s. exists []. rewrite app_nil_r. reflexivity.
  - intros s1 s2 s3 [l1 H1] [l2 H2]. exists (l1 ++ l2).
    rewrite H2, H1, app_assoc. reflexivity.
Qed.

#[global] Instance same_view_preorder : PreOrder same_view.
Proof.
  split.
  - intros s. reflexivity.
  - intros s1 s2 s3 H1 H2. unfold same_view in *. congruence.
Qed.

Section Reaching.
Context {S : Type} `{HasWorld S}.

Lemma reaches_step {A B} (m : Eff S A) (k : A -> Eff S B) s a s' l :
  m s = (Ret a, s') -> reaches (k a) s' l -> reaches (bind m k) s l.
Proof. intros Hm Hk. unfold reaches, bind. rewrite Hm. exact Hk. Qed.

Lemma reaches_first {A B} (m : Eff S A) (k : A -> Eff S B) s l rest :
  requests (world_of (snd (m s))) = l ++ rest ->
  (forall a, appends (k a)) ->
  reaches (bind m k) s l.
Proof.
  intros Hm Hk. unfold reaches, bind.
  destruct (m s) as [[a|e] s'] eqn:E; simpl in *.
  - destruct (Hk a s') as [l' Hl']. exists (rest ++ l').
    rewrite Hl', Hm, app_assoc. reflexivity.
  - exists rest. exact Hm.
Qed.

Lemma reaches_bind_l {A B} (m : Eff S A) (k : A -> Eff S B) s l :
  reaches m s l -> (forall a, appends (k a)) -> reaches (bind m k) s l.
Proof.
  intros [rest Hm] Hk. eapply reaches_first; eassumption.
Qed.

Lemma reaches_try_catch {A} (m : Eff S A) (h : Exn -> Eff S A) s l :
  reaches m s l -> (forall e, appends (h e)) -> reaches (try_catch m h) s l.
Proof.
  intros [rest Hm] Hh. unfold reaches, try_catch.
  destruct (m s) as [[a|e] s']; simpl in *; [exists rest; exact Hm|].
  destruct (Hh e s') as [l' Hl']. exists (rest ++ l').
  rewrite Hl', Hm, app_assoc. reflexivity.
Qed.

Lemma reaches_finally {A} (m : Eff S A) (f : Eff S unit) s l :
  reaches m s l -> appends f -> reaches (finally m f) s l.
Proof.
  intros [rest Hm] Hf. unfold reaches, finally.
  destruct (m s) as [r s']. destruct (Hf s') as [l' Hl']. simpl in *.
  exists (rest ++ l').
  destruct (f s') as [[u|e] s'']; simpl in *; rewrite Hl', Hm, app_assoc; reflexivity.
Qed.

End Reaching.

Create HintDb respects.

#[global] Hint Resolve respects_ret respects_throw respects_lift : respects.
#[global] Hint Extern 1 (PreOrder _) => typeclasses eauto : respects.
#[global] Hint Unfold appends : respects.

(** Goes through a computation combinator by combinator; the leaves are
    closed from the hint database. *)
Ltac respects_by_parts :=
  lazymatch goal with
  | |- appends ?m => change (respects extends m); respects_by_parts
  | |- respects _ (bind _ _) =>
      apply respects_bind; try typeclasses eauto;
      [respects_by_parts|intros ?; respects_by_parts]
  | |- respects _ (try_catch _ _) =>
      apply respects_try_catch; try typeclasses eauto;
      [respects_by_parts|intros ?; respects_by_parts]
  | |- respects _ (finally _ _) =>
      apply respects_finally; try typeclasses eauto; respects_by_parts
  | |- respects _ (if ?b then _ else _) => destruct b; respects_by_parts
  | |- respects _ (match ?x with _ => _ end) => destruct x; respects_by_parts
  | |- respects extends ?m =>
      first [solve [auto with respects]
            |change (appends m); solve [auto with respects]]
  | |- respects _ _ => solve [auto with respects]
  end.

Lemma appends_apiRequest e o : appends (apiRequest e o).
Proof.
  intros w. exists (CallTable.issued e o w). apply CallFacts.apiRequest_issued.
Qed.

Lemma appends_perform c : appends (Calls.perform c).
Proof.
  intros w. rewrite CallFacts.perform_exchange. apply appends_apiRequest.
Qed.

Lemma appends_log entry : appends (log entry).
Proof. intros w. exists []. simpl. rewrite app_nil_r. reflexivity. Qed.

Lemma appends_api {A} (m : M A) : appends m -> appends (Dashboard.api m).
Proof.
  intros Hm [st w]. unfold Dashboard.api. simpl. specialize (Hm w).
  destruct (m w) as [r w']. exact Hm.
Qed.

Lemma appends_modify f : appends (Dashboard.modify f).
Proof. intros s. exists []. simpl. rewrite app_nil_r. reflexivity. Qed.

Lemma appends_sendBoth id email phone :
  appends (notificationsAPI.sendBoth id email phone).
Proof. apply (appends_perform (Calls.notifications_sendBoth id email phone)). Qed.

Lemma appends_sendEmail id email : appends (notificationsAPI.sendEmail id email).
Proof. apply (appends_perform (Calls.notifications_sendEmail id email)). Qed.

Lemma appends_getConfig : appends notificationsAPI.getConfig.
Proof. apply (appends_perform Calls.notifications_getConfig). Qed.

Lemma appends_create d : appends (receiptsAPI.create d).
Proof. apply (appends_perform (Calls.receipts_create d)). Qed.

Lemma appends_getAll page perPage search status :
  appends (receiptsAPI.getAll page perPage search status).
Proof. apply (appends_perform (Calls.receipts_getAll page perPage search status)). Qed.

Lemma appends_setter_receipts v : appends (Dashboard.setReceipts v).
Proof. apply appends_modify. Qed.

Lemma appends_setter_formData v : appends (Dashboard.setFormData v).
Proof. apply appends_modify. Qed.

Lemma appends_setter_showPreview b : appends (Dashboard.setShowPreview b).
Proof. apply appends_modify. Qed.

Lemma appends_setter_toast t : appends (Dashboard.setToastMessage t).
Proof. apply appends_modify. Qed.

Lemma appends_setter_isSending b : appends (Dashboard.setIsSending b).
Proof. apply appends_modify. Qed.

Lemma appends_clear_toast_later : appends Dashboard.clear_toast_later.
Proof. apply appends_modify. Qed.

(** An API call leaves the dashboard state alone. *)
Lemma same_view_api {A} (m : M A) : respects same_view (Dashboard.api m).
Proof.
  intros [st w]. unfold Dashboard.api, same_view. simpl.
  destruct (m w) as [r w']. reflexivity.
Qed.

#[global] Hint Resolve appends_apiRequest appends_perform appends_log appends_api
  appends_modify appends_sendBoth appends_sendEmail appends_getConfig
  appends_create appends_getAll appends_setter_receipts appends_setter_formData
  appends_setter_showPreview appends_setter_toast appends_setter_isSending
  appends_clear_toast_later same_view_api : respects.

Lemma appends_console_error label e : appends (Dashboard.console_error label e).
Proof. unfold Dashboard.console_error. auto with respects. Qed.

Lemma same_view_console_error label e :
  respects same_view (Dashboard.console_error label e).
Proof. unfold Dashboard.console_error. auto with respects. Qed.

#[global] Hint Resolve appends_console_error same_view_console_error : respects.

Lemma appends_loadReceipts : appends Dashboard.loadReceipts.
Proof. unfold Dashboard.loadReceipts. respects_by_parts. Qed.

Lemma appends_send_step id email phone : appends (Dashboard.send_step id email phone).
Proof. unfold Dashboard.send_step. respects_by_parts. Qed.

Lemma same_view_send_step id email phone :
  respects same_view (Dashboard.send_step id email phone).
Proof. unfold Dashboard.send_step. respects_by_parts. Qed.

Lemma appends_checkNotificationConfig : appends Dashboard.checkNotificationConfig.
Proof. unfold Dashboard.checkNotificationConfig. respects_by_parts. Qed.

Lemma same_view_checkNotificationConfig :
  respects same_view Dashboard.checkNotificationConfig.
Proof. unfold Dashboard.checkNotificationConfig. respects_by_parts. Qed.

#[global] Hint Resolve appends_loadReceipts appends_send_step same_view_send_step
  appends_checkNotificationConfig same_view_checkNotificationConfig : respects.

Lemma same_view_create_step fd : respects same_view (Dashboard.create_step fd).
Proof. unfold Dashboard.create_step. respects_by_parts. Qed.

#[global] Hint Resolve same_view_create_step : respects.

Lemma same_view_create_and_send fd : respects same_view (Dashboard.create_and_send fd).
Proof. unfold Dashboard.create_and_send. respects_by_parts. Qed.

End LogFacts.

(** ** The send flow *)

Module SendFacts.
Import Log LogFacts CallTable CallFacts SendFlow.

Lemma issued_head e o w : head (issued e o w) = Some (Wire.original e o w).
Proof.
  unfold issued. cbv zeta.
  destruct (network w (requests w) _) as [r|x]; [|reflexivity].
  destruct (status r =? 401)%N; [|reflexivity].
  destruct (Wire.stored_refresh_token w) as [tok|]; [|reflexivity].
  destruct (Wire.refreshed_token _); reflexivity.
Qed.

Lemma url_eqb_same base e : String.eqb (base +:+ e) (base +:+ e) = true.
Proof. apply String.eqb_refl. Qed.

Lemma url_eqb_other base e e' : e <> e' -> String.eqb (base +:+ e) (base +:+ e') = false.
Proof.
  intros Hne. apply String.eqb_neq. intros H. apply Hne.
  eapply append_inj_l. exact H.
Qed.

Lemma attempts_issued_same e o w : attempts (API_BASE_URL w) e (issued e o w) = true.
Proof.
  pose proof (issued_head e o w) as Hh.
  destruct (issued e o w) as [|r l]; [discriminate|].
  simpl in Hh. injection Hh as ->.
  unfold attempts. cbn [existsb]. simpl url. rewrite String.eqb_refl. reflexivity.
Qed.

Lemma attempts_issued_other e e' o w :
  e <> e' -> "/auth/refresh" <> e' ->
  attempts (API_BASE_URL w) e' (issued e o w) = false.
Proof.
  intros Hne Hrefresh. unfold attempts, issued. cbv zeta.
  assert (Ho : String.eqb (url (Wire.original e o w)) (API_BASE_URL w +:+ e') = false)
    by (apply url_eqb_other; exact Hne).
  assert (Hf : forall tok, String.eqb (url (Wire.refresh w tok)) (API_BASE_URL w +:+ e') = false)
    by (intros tok; apply url_eqb_other; exact Hrefresh).
  assert (Hq : forall t, String.eqb (url (Wire.retry e o w t)) (API_BASE_URL w +:+ e') = false)
    by (intros t; apply url_eqb_other; exact Hne).
  destruct (network w (requests w) _) as [r|x]; [|cbn [existsb]; rewrite Ho; reflexivity].
  destruct (status r =? 401)%N; [|cbn [existsb]; rewrite Ho; reflexivity].
  destruct (Wire.stored_refresh_token w) as [tok|];
    [|cbn [existsb]; rewrite Ho; reflexivity].
  destruct (Wire.refreshed_token _);
    cbn [existsb]; rewrite Ho, Hf, ?Hq; reflexivity.
Qed.

Lemma apiRequest_base e o w : API_BASE_URL (snd (apiRequest e o w)) = API_BASE_URL w.
Proof.
  rewrite ApiFacts.apiRequest_spec. cbv zeta.
  destruct (network w (requests w) _) as [r|x]; [|reflexivity].
  destruct (status r =? 401)%N; [|reflexivity].
  destruct (Wire.stored_refresh_token w) as [tok|]; [|reflexivity].
  destruct (Wire.refreshed_token _); reflexivity.
Qed.

Lemma perform_requests c w :
  requests (snd (Calls.perform c w)) = requests w ++ issued (endpoint c) (options c) w.
Proof. rewrite perform_exchange. apply apiRequest_issued. Qed.

Lemma perform_base c w : API_BASE_URL (snd (Calls.perform c w)) = API_BASE_URL w.
Proof. rewrite perform_exchange. apply apiRequest_base. Qed.

Lemma both_is_not_email i :
  "/notifications/send-both/" +:+ i <> "/notifications/send-email/" +:+ i.
Proof. intros H. cbv [String.append] in H. discriminate. Qed.

Lemma refresh_is_not_email i : "/auth/refresh" <> "/notifications/send-email/" +:+ i.
Proof. intros H. cbv [String.append] in H. discriminate. Qed.

Lemma refresh_is_not_both i : "/auth/refresh" <> "/notifications/send-both/" +:+ i.
Proof. intros H. cbv [String.append] in H. discriminate. Qed.

Lemma truthy_or_false v : Js.truthy (Js.or v (JBool false)) = Js.truthy v.
Proof. unfold Js.or. destruct (Js.truthy v) eqn:E; [exact E|reflexivity]. Qed.

(** The email-only send of [send_step], from its API call. *)
Lemma email_only_spec text id email (st : Dashboard.State) w :
  (let* emailResponse := Dashboard.api (notificationsAPI.sendEmail id email) in
   let* success := (if res_ok emailResponse
                    then lift (Js.get (res_data emailResponse) "success")
                    else ret (JBool false)) in
   if res_ok emailResponse && Js.truthy success then
     ret (Dashboard.check_mark +:+ " Receipt sent via email to " +:+ Js.toString email)
   else
     let* error := lift (Js.get (res_data emailResponse) "error") in
     throw (Error (Js.toString (Js.or error (JStr text))))) (st, w)
  = (email_message text email (fst (notificationsAPI.sendEmail id email w)),
     (st, snd (notificationsAPI.sendEmail id email w))).
Proof.
  unfold bind at 1, Dashboard.api. simpl.
  destruct (notificationsAPI.sendEmail id email w) as [[v|e] w1]; [|reflexivity].
  simpl. unfold email_message, bind, lift, ret, throw.
  destruct (res_ok v); simpl.
  - destruct (Js.get (res_data v) "success") as [sv|e]; [|reflexivity].
    destruct (Js.truthy sv); [reflexivity|].
    destruct (Js.get (res_data v) "error"); reflexivity.
  - destruct (Js.get (res_data v) "error"); reflexivity.
Qed.

(** [send_step] from the outcomes of its API calls. *)
Lemma send_step_spec id email phone (st : Dashboard.State) w :
  Dashboard.send_step id email phone (st, w)
  = if Js.truthy phone then
      let combined := notificationsAPI.sendBoth id email phone w in
      match fst combined with
      | Throw e => (Throw e, (st, snd combined))
      | Ret v =>
          if res_ok v then
            (match Js.get (res_data v) "results" with
             | Ret results => combined_message email results
             | Throw e => Throw e
             end, (st, snd combined))
          else
            (email_message "Failed to send receipt" email
               (fst (notificationsAPI.sendEmail id email (snd combined))),
             (st, snd (notificationsAPI.sendEmail id email (snd combined))))
      end
    else
      (email_message "Failed to send email" email
         (fst (notificationsAPI.sendEmail id email w)),
       (st, snd (notificationsAPI.sendEmail id email w))).
Proof.
  unfold Dashboard.send_step.
  destruct (Js.truthy phone); [|apply email_only_spec].
  cbv zeta. unfold bind at 1, Dashboard.api at 1. cbn [fst snd].
  destruct (notificationsAPI.sendBoth id email phone w) as [[v|e] w1];
    cbn [fst snd]; [|reflexivity].
  destruct (res_ok v); [|apply email_only_spec].
  unfold bind, lift.
  destruct (Js.get (res_data v) "results") as [results|e]; [|reflexivity].
  rewrite !truthy_or_false.
  fold (channel_sent results "email"). fold (channel_sent results "sms").
  unfold combined_message.
  destruct (channel_sent results "email"), (channel_sent results "sms"); reflexivity.
Qed.

End SendFacts.

(** The requests and the message of Step 2, for any phone value handed to
    it.  With a truthy [phone] the first request goes to the send-both
    endpoint, and a request to send-email follows exactly when the combined
    call returned a result that is not ok; a combined call that throws ends
    the step there.  With a falsy [phone] only send-email is requested. *)
Lemma send_step_requests (receiptId email phone : JsVal) (s : Dashboard.State * World) :
  let w := snd s in
  let both := "/notifications/send-both/" +:+ Js.toString receiptId in
  let email_only := "/notifications/send-email/" +:+ Js.toString receiptId in
  let both_options :=
    post (Js.stringify (JObj (notificationsAPI.optional_field "email" email
                              ++ notificationsAPI.optional_field "phone" phone))) in
  let email_options :=
    post (Js.stringify (JObj (notificationsAPI.optional_field "email" email))) in
  let outcome := Dashboard.send_step receiptId email phone s in
  let added := drop (length (requests w)) (requests (snd (snd outcome))) in
  if Js.truthy phone then
    let combined := notificationsAPI.sendBoth receiptId email phone w in
    let failed := SendFlow.combined_failed (fst combined) in
    added = CallTable.issued both both_options w
            ++ (if failed
                then CallTable.issued email_only email_options (snd combined)
                else [])
    /\ head added = Some (Wire.original both both_options w)
    /\ Log.attempts (API_BASE_URL w) email_only added = failed
    /\ fst outcome
       = match fst combined with
         | Throw e => Throw e
         | Ret v =>
             if res_ok v then
               match Js.get (res_data v) "results" with
               | Ret results => SendFlow.combined_message email results
               | Throw e => Throw e
               end
             else
               SendFlow.email_message "Failed to send receipt" email
                 (fst (notificationsAPI.sendEmail receiptId email (snd combined)))
         end
  else
    added = CallTable.issued email_only email_options w
    /\ Log.attempts (API_BASE_URL w) both added = false
    /\ fst outcome
       = SendFlow.email_message "Failed to send email" email
           (fst (notificationsAPI.sendEmail receiptId email w)).
Proof.
  destruct s as [st w]. cbv zeta. cbn [snd].
  set (both := "/notifications/send-both/" +:+ Js.toString receiptId).
  set (email_only := "/notifications/send-email/" +:+ Js.toString receiptId).
  set (both_options := post _).
  set (email_options := post _).
  assert (Hboth : requests (snd (notificationsAPI.sendBoth receiptId email phone w))
                  = requests w ++ CallTable.issued both both_options w)
    by apply (SendFacts.perform_requests
                (Calls.notifications_sendBoth receiptId email phone) w).
  assert (Hbase : API_BASE_URL (snd (notificationsAPI.sendBoth receiptId email phone w))
                  = API_BASE_URL w)
    by apply (SendFacts.perform_base
                (Calls.notifications_sendBoth receiptId email phone) w).
  assert (Hemail : forall w',
             requests (snd (notificationsAPI.sendEmail receiptId email w'))
             = requests w' ++ CallTable.issued email_only email_options w')
    by (intros w'; apply (SendFacts.perform_requests
                            (Calls.notifications_sendEmail receiptId email) w')).
  assert (Hno_email : Log.attempts (API_BASE_URL w) email_only
                        (CallTable.issued both both_options w) = false)
    by (apply SendFacts.attempts_issued_other;
        [apply SendFacts.both_is_not_email|apply SendFacts.refresh_is_not_email]).
  rewrite SendFacts.send_step_spec.
  destruct (Js.truthy phone); cbv zeta.
  - destruct (notificationsAPI.sendBoth receiptId email phone w) as [[v|e] w1];
      cbn [fst snd] in *.
    + unfold SendFlow.combined_failed.
      destruct (res_ok v); cbn [negb fst snd].
      * (* the combined call is ok: no further request *)
        rewrite Hboth, drop_app_length, app_nil_r.
        repeat split; [apply SendFacts.issued_head|exact Hno_email].
      * (* the combined call is not ok: the email-only fallback *)
        rewrite Hemail, Hboth, <- app_assoc, drop_app_length.
        split; [reflexivity|]. split.
        { pose proof (SendFacts.issued_head both both_options w) as Hh.
          destruct (CallTable.issued both both_options w); [discriminate|exact Hh]. }
        split; [|reflexivity].
        unfold Log.attempts. rewrite existsb_app, <- Hbase.
        fold (Log.attempts (API_BASE_URL w1) email_only
                (CallTable.issued email_only email_options w1)).
        rewrite SendFacts.attempts_issued_same.
        apply orb_true_r.
    + (* the combined call throws: the flow ends *)
      rewrite Hboth, drop_app_length, app_nil_r.
      repeat split; [apply SendFacts.issued_head|exact Hno_email].
  - cbn [fst snd]. rewrite Hemail, drop_app_length.
    split; [reflexivity|]. split; [|reflexivity].
    apply SendFacts.attempts_issued_other;
      [intros H; symmetry in H; revert H; apply SendFacts.both_is_not_email
      |apply SendFacts.refresh_is_not_both].
Qed.

(** The send step on sample answers. *)
Module SendExamples.

Import Sample.

Example fallback_after_failed_combined_call :
  fst (run Sample.combined_down)
  = Ret (Dashboard.check_mark +:+ " Receipt sent via email to ann@example.com")
  /\ urls (run Sample.combined_down)
     = ["http://localhost:5000/api/notifications/send-both/r-17";
        "http://localhost:5000/api/notifications/send-email/r-17"].
Proof. split; vm_compute; reflexivity. Qed.

Example both_channels_sent :
  fst (run Sample.both_sent)
  = Ret (Dashboard.check_mark +:+ " Receipt sent via email and SMS to ann@example.com")
  /\ urls (run Sample.both_sent)
     = ["http://localhost:5000/api/notifications/send-both/r-17"].
Proof. split; vm_compute; reflexivity. Qed.

Example email_sent_sms_refused :
  fst (run Sample.sms_refused)
  = Ret (Dashboard.check_mark
         +:+ " Receipt sent via email to ann@example.com (SMS failed: Invalid number)")
  /\ urls (run Sample.sms_refused)
     = ["http://localhost:5000/api/notifications/send-both/r-17"].
Proof. split; vm_compute; reflexivity. Qed.

Example no_fallback_when_the_combined_call_throws :
  fst (run Sample.offline) = Throw (TypeError "Failed to fetch")
  /\ urls (run Sample.offline)
     = ["http://localhost:5000/api/notifications/send-both/r-17"].
Proof. split; vm_compute; reflexivity. Qed.

Example email_only_without_phone :
  let s := Dashboard.send_step Sample.receipt_id Sample.ann JNull
             (Dashboard.initial, Sample.world Sample.logged_in
                                   [Sample.answer 200 (JObj [("success", JBool true)])]) in
  fst s = Ret (Dashboard.check_mark +:+ " Receipt sent via email to ann@example.com")
  /\ urls s = ["http://localhost:5000/api/notifications/send-email/r-17"].
Proof. split; vm_compute; reflexivity. Qed.

Example no_fallback_behind_a_gateway :
  fst (run Sample.combined_behind_gateway) = Throw (SyntaxError "Unexpected token '<'")
  /\ urls (run Sample.combined_behind_gateway)
     = ["http://localhost:5000/api/notifications/send-both/r-17"].
Proof. split; vm_compute; reflexivity. Qed.

End SendExamples.

(** C3: the send flow of the dashboard at Ann's receipt, which carries her
    phone number, opened from the list and sent.

    As the backend lists it, with the phone under [customer_phone], the
    handler finds no phone ([formData.customerPhone] is what it reads): the
    receipt is stored with [customer_phone: null] and sent by email only,
    and the combined endpoint is not requested.

    Under the names the handler reads, the combined endpoint is requested
    first.  When a gateway answers that call 502 with a page that is not
    JSON, or the fetch is rejected, the call throws: the error is shown and
    logged, and no email-only send is attempted.  When the same call is
    answered 500 with a JSON body, the email-only send is attempted, and it
    goes through. *)
Theorem send_flow_divergence :
  let config := ("GET", "http://localhost:5000/api/notifications/config") in
  let create := ("POST", "http://localhost:5000/api/receipts") in
  let both := ("POST", "http://localhost:5000/api/notifications/send-both/r-17") in
  let email_only := ("POST", "http://localhost:5000/api/notifications/send-email/r-17") in
  let list := ("GET", "http://localhost:5000/api/receipts?page=1&per_page=20") in
  let as_listed := Sample.view_and_send Sample.listed_receipt (Sample.backend []) in
  let behind_gateway :=
    Sample.view_and_send Sample.phoned_receipt
      (Sample.backend [Resolves Sample.gateway_error]) in
  let offline :=
    Sample.view_and_send Sample.phoned_receipt
      (Sample.backend [Rejects (TypeError "Failed to fetch")]) in
  let refused :=
    Sample.view_and_send Sample.phoned_receipt
      (Sample.backend [Sample.answer 500 (JObj [("error", JStr "SMS gateway unreachable")])]) in
  (Js.get_opt Sample.listed_receipt "customer_phone" = Sample.phone
   /\ Sample.requested as_listed = [config; create; email_only; list]
   /\ option_map body (nth_error (requests (snd as_listed)) 1)
      = Some (Js.stringify
                (JObj [("customer_phone", JNull); ("items", Sample.lines);
                       ("subtotal", JNum 7); ("tax", JNum 1.75); ("total", JNum 8.75)])))
  /\ (ok Sample.gateway_error = false
      /\ Sample.requested behind_gateway = [config; create; both]
      /\ Dashboard.toastMessage (fst behind_gateway)
         = Dashboard.cross_mark +:+ " Error: Unexpected token '<'"
      /\ console (snd behind_gateway)
         = [ConsoleError "Error sending receipt:" (SyntaxError "Unexpected token '<'")])
  /\ (Sample.requested offline = [config; create; both]
      /\ Dashboard.toastMessage (fst offline)
         = Dashboard.cross_mark +:+ " Error: Failed to fetch")
  /\ (Sample.requested refused = [config; create; both; email_only; list]
      /\ Dashboard.toastMessage (fst refused)
         = Dashboard.check_mark +:+ " Receipt sent via email to ann@example.com").
Proof. cbv zeta. repeat split; vm_compute; reflexivity. Qed.

(** ** Where the receipt is created *)

Module CreateFacts.
Import Log LogFacts.

(** [checkNotificationConfig] catches what it throws. *)
Lemma checkNotificationConfig_returns s :
  exists configCheck, fst (Dashboard.checkNotificationConfig s) = Ret configCheck.
Proof.
  unfold Dashboard.checkNotificationConfig, try_catch.
  destruct (bind _ _ s) as [[c|e] s']; simpl; [eauto|].
  exists None. reflexivity.
Qed.

(** The requests of [receiptsAPI.create] start with the POST of the
    receipt data. *)
Lemma create_requests rd (st : Dashboard.State) w :
  exists rest,
    requests (snd (snd (Dashboard.api (receiptsAPI.create rd) (st, w))))
    = (requests w ++ [Wire.original "/receipts" (post (Js.stringify rd)) w]) ++ rest.
Proof.
  unfold Dashboard.api. cbn [fst snd].
  pose proof (SendFacts.perform_requests (Calls.receipts_create rd) w) as H.
  cbn [Calls.perform CallTable.endpoint CallTable.options] in H.
  pose proof (SendFacts.issued_head "/receipts" (post (Js.stringify rd)) w) as Hh.
  destruct (receiptsAPI.create rd w) as [r w']. cbn [snd] in *.
  destruct (CallTable.issued _ _ w) as [|o rest]; [discriminate|].
  injection Hh as ->. exists rest. rewrite H, <- app_assoc. reflexivity.
Qed.

End CreateFacts.

(** C4, amended: submitting the receipt form creates nothing on the
    backend: it issues no request, it only stores the data for the preview.
    The receipt is created when the previewed receipt is sent: with a
    receipt in [formData] whose data can be read, and unless the
    configuration check reports that no service is configured,
    [handleSendReceipt] first checks the configuration and then POSTs the
    receipt data to the receipt-create endpoint [/receipts]. *)
Theorem receipt_created_on_send (st : Dashboard.State) (w : World)
    (fd : Dashboard.FormData) (rd : JsVal) :
  Dashboard.formData st = Some fd ->
  Dashboard.formData_truthy fd = true ->
  Dashboard.receiptData_of fd = Ret rd ->
  let started :=
    snd ((Dashboard.setIsSending true >> Dashboard.setToastMessage "") (st, w)) in
  let checked := Dashboard.checkNotificationConfig started in
  (forall message, fst checked <> Ret (Some (Dashboard.config_error message))) ->
  let w1 := snd (snd checked) in
  (forall now date form s,
      snd (snd (Dashboard.form_submitted now date form s)) = snd s)
  /\ Log.reaches Dashboard.handleSendReceipt (st, w)
       (requests w1 ++ [Wire.original "/receipts" (post (Js.stringify rd)) w1]).
Proof.
  intros Hfd Htruthy Hrd started checked Hcfg w1.
  split.
  { intros now date form [st0 w0]. unfold Dashboard.form_submitted.
    destruct (ReceiptForm.handleSubmit form) as [[text|d] form']; reflexivity. }
  unfold Dashboard.handleSendReceipt.
  eapply LogFacts.reaches_step; [reflexivity|].
  cbn [fst]. rewrite Hfd, Htruthy. cbn [negb].
  eapply LogFacts.reaches_step; [reflexivity|].
  eapply LogFacts.reaches_step; [reflexivity|].
  match goal with
  | |- Log.reaches ?m _ ?l => change (Log.reaches m started l)
  end.
  apply LogFacts.reaches_finally; [|auto with respects].
  apply LogFacts.reaches_try_catch;
    [|intros e; LogFacts.respects_by_parts].
  apply LogFacts.reaches_bind_l; [|intros m; LogFacts.respects_by_parts].
  unfold Dashboard.create_and_send.
  apply LogFacts.reaches_bind_l; [|intros created; LogFacts.respects_by_parts].
  unfold Dashboard.create_step.
  destruct (CreateFacts.checkNotificationConfig_returns started) as [cfg Hret].
  fold checked in Hret.
  assert (Hchecked : Dashboard.checkNotificationConfig started = (Ret cfg, snd checked)).
  { subst checked. destruct (Dashboard.checkNotificationConfig started) as [r s1].
    simpl in *. congruence. }
  eapply LogFacts.reaches_step; [exact Hchecked|].
  assert (Hwarn : exists s1,
             (match cfg with
              | Some (Dashboard.config_error message) => throw (Error message)
              | Some (Dashboard.config_warning message) =>
                  Dashboard.api (log (ConsoleWarn message))
              | None => ret tt
              end) (snd checked) = (Ret tt, s1)
             /\ requests (snd s1) = requests w1
             /\ Wire.original "/receipts" (post (Js.stringify rd)) (snd s1)
                = Wire.original "/receipts" (post (Js.stringify rd)) w1).
  { destruct cfg as [[message|message]|].
    - exfalso. apply (Hcfg message). exact Hret.
    - eexists. split; [reflexivity|]. split; reflexivity.
    - eexists. split; [reflexivity|]. split; reflexivity. }
  destruct Hwarn as (s1 & Hs1 & Hreq & Horig).
  eapply LogFacts.reaches_step; [exact Hs1|].
  rewrite Hrd.
  eapply LogFacts.reaches_step; [reflexivity|].
  destruct s1 as [st1 w1']. cbn [snd] in Hreq, Horig.
  destruct (CreateFacts.create_requests rd st1 w1') as [rest Hrest].
  rewrite Hreq, Horig in Hrest.
  eapply LogFacts.reaches_first; [exact Hrest|].
  intros createResponse. LogFacts.respects_by_parts.
Qed.

Lemma receipt_created_on_send_witness :
  let s := Sample.previewing in
  let started :=
    snd ((Dashboard.setIsSending true >> Dashboard.setToastMessage "") (fst s, snd s)) in
  let w1 := snd (snd (Dashboard.checkNotificationConfig started)) in
  requests w1 = [Wire.original "/notifications/config" no_options Sample.healthy]
  /\ Log.reaches Dashboard.handleSendReceipt (fst s, snd s)
       (requests w1
          ++ [Wire.original "/receipts" (post (Js.stringify Sample.receipt_data)) w1]).
Proof.
  cbv zeta. split; [vm_compute; reflexivity|].
  refine (proj2 (receipt_created_on_send (fst Sample.previewing) (snd Sample.previewing)
                   (Dashboard.Composed Sample.submitted_receipt "REC-1714560000000"
                      Sample.submitted_at "Not Sent")
                   Sample.receipt_data _ _ _ _)).
  - vm_compute. reflexivity.
  - reflexivity.
  - vm_compute. reflexivity.
  - intros message. vm_compute. discriminate.
Defined.

(** The filled form is submitted: the receipt is handed over and the
    preview is shown, but no request has been issued, so nothing was sent to
    the receipt-create endpoint. *)
Lemma receipt_created_counterexample :
  fst (ReceiptForm.handleSubmit Sample.filled_form)
  = ReceiptForm.OnSubmit Sample.submitted_receipt
  /\ Dashboard.showPreview (fst Sample.previewing) = true
  /\ requests (snd Sample.previewing) = [].
Proof. repeat split; vm_compute; reflexivity. Qed.

(** ** The dashboard around the send step *)

Module DashboardFacts.
Import Dashboard.

Lemma map_lines_item_objects l :
  map_lines (List.map item_object l)
  = Ret (List.map (fun item => JObj [("name", JStr (ReceiptForm.name item));
                                      ("quantity", JNum (ReceiptForm.quantity item));
                                      ("price", JNum (ReceiptForm.price item))]) l).
Proof.
  induction l as [|item l IH]; [reflexivity|].
  cbn [List.map map_lines]. rewrite IH. reflexivity.
Qed.

(** A receipt composed in the form has no phone: the form has no such
    field, so its [receiptData] carries [customer_phone: null] and the send
    step takes the email-only branch. *)
Lemma composed_has_no_phone data number stamp status :
  exists rd,
    receiptData_of (Composed data number stamp status) = Ret rd
    /\ Js.get rd "customer_phone" = Ret JNull.
Proof.
  unfold receiptData_of. cbn [formData_get].
  change (Js.lookup "items" _)
    with (JArr (List.map item_object (ReceiptForm.r_items data))).
  unfold items_map. rewrite map_lines_item_objects.
  eexists. split; reflexivity.
Qed.

(** [loadReceipts] returns, and only ever sets [receipts]. *)
Lemma loadReceipts_keeps (st : State) (w : World) :
  exists v w',
    loadReceipts (st, w)
    = (Ret tt, ({| receipts := v; formData := formData st;
                   showPreview := showPreview st; toastMessage := toastMessage st;
                   isSending := isSending st; toastTimers := toastTimers st |}, w')).
Proof.
  assert (Hsame : forall w' : World, exists v w'',
             (Ret tt, (st, w'))
             = (Ret tt, ({| receipts := v; formData := formData st;
                            showPreview := showPreview st;
                            toastMessage := toastMessage st;
                            isSending := isSending st;
                            toastTimers := toastTimers st |}, w''))).
  { intros w'. exists (receipts st), w'. destruct st; reflexivity. }
  unfold loadReceipts, try_catch, bind at 1, api. cbn [fst snd].
  destruct (receiptsAPI.getAll _ _ _ _ w) as [[response|e] w1].
  - destruct (res_ok response); [|apply Hsame].
    unfold bind, lift.
    destruct (Js.get (res_data response) "receipts") as [list|e].
    + destruct (Js.truthy list); [|apply Hsame].
      exists list, w1. reflexivity.
    + unfold console_error, api, log. cbn [fst snd]. apply Hsame.
  - unfold console_error, api, log. cbn [fst snd]. apply Hsame.
Qed.

(** After [handleSendReceipt] on a receipt, sending is over and the toast
    shows the message of the send step, or the error that ended the flow;
    the preview is closed when the send went through and stays otherwise. *)
Lemma handleSendReceipt_toast (st : State) (w : World) (fd : FormData) :
  formData st = Some fd ->
  formData_truthy fd = true ->
  let started := snd ((setIsSending true >> setToastMessage "") (st, w)) in
  let after := fst (snd (handleSendReceipt (st, w))) in
  isSending after = false
  /\ match fst (create_and_send fd started) with
     | Ret sendMessage =>
         toastMessage after = sendMessage
         /\ showPreview after = false
         /\ formData after = None
     | Throw error =>
         toastMessage after
         = cross_mark +:+ " Error: "
           +:+ (if Js.nonempty (exn_message error)
                then exn_message error
                else "Failed to send receipt")
         /\ showPreview after = showPreview st
         /\ formData after = Some fd
     end.
Proof.
  intros Hfd Htruthy started after. subst after.
  destruct (handleSendReceipt (st, w)) as [r [st2 w2]] eqn:Hrun. cbn [fst snd].
  unfold handleSendReceipt, bind at 1, get_state in Hrun. cbn [fst snd] in Hrun.
  rewrite Hfd, Htruthy in Hrun. cbn [negb] in Hrun.
  unfold bind at 1, setIsSending at 1, modify at 1 in Hrun. cbn [fst snd] in Hrun.
  unfold bind at 1, setToastMessage at 1, modify at 1 in Hrun. cbn [fst snd] in Hrun.
  match type of Hrun with
  | finally _ _ ?s0 = _ => change s0 with started in Hrun
  end.
  unfold finally, try_catch, bind at 1 in Hrun.
  pose proof (LogFacts.same_view_create_and_send fd started) as Hview.
  unfold Log.same_view in Hview.
  destruct (create_and_send fd started) as [[sendMessage|error] [st1 w1]];
    cbn [fst snd] in *.
  - unfold bind at 1, setToastMessage at 1, modify at 1 in Hrun. cbn [fst snd] in Hrun.
    unfold bind at 1, clear_toast_later at 1, modify at 1 in Hrun. cbn [fst snd] in Hrun.
    unfold bind at 1 in Hrun.
    match type of Hrun with
    | context [loadReceipts (?st3, ?w3)] =>
        destruct (loadReceipts_keeps st3 w3) as (v & w' & Hload);
        rewrite Hload in Hrun
    end.
    injection Hrun as <- <- <-. repeat split; reflexivity.
  - injection Hrun as <- <- <-. subst st1.
    repeat split; try reflexivity. exact Hfd.
Qed.

(** The send step is run on the created receipt, and its message, or the
    error that ends it, is what the toast shows. *)
Lemma handleSendReceipt_runs_send_step (st : State) (w : World) (fd : FormData)
    (receiptData receiptId email phone : JsVal) (s1 : State * World) :
  formData st = Some fd ->
  formData_truthy fd = true ->
  let started := snd ((setIsSending true >> setToastMessage "") (st, w)) in
  create_step fd started = (Ret (receiptData, receiptId), s1) ->
  Js.get receiptData "customer_email" = Ret email ->
  Js.get receiptData "customer_phone" = Ret phone ->
  let after := fst (snd (handleSendReceipt (st, w))) in
  toastMessage after
  = match fst (send_step receiptId email phone s1) with
    | Ret sendMessage => sendMessage
    | Throw error =>
        cross_mark +:+ " Error: "
        +:+ (if Js.nonempty (exn_message error)
             then exn_message error
             else "Failed to send receipt")
    end.
Proof.
  intros Hfd Htruthy started Hcreated Hemail Hphone after.
  destruct (handleSendReceipt_toast st w fd Hfd Htruthy) as [_ Htoast].
  fold started in Htoast. fold after in Htoast.
  assert (Hsend : create_and_send fd started = send_step receiptId email phone s1).
  { unfold create_and_send, bind at 1. rewrite Hcreated. cbn [fst snd].
    rewrite Hemail, Hphone. reflexivity. }
  rewrite Hsend in Htoast.
  destruct (fst (send_step receiptId email phone s1)); apply Htoast.
Qed.

(** The phone the send step is given is [formData.customerPhone || null]. *)
Lemma receiptData_phone fd receiptData :
  receiptData_of fd = Ret receiptData ->
  exists customerPhone,
    formData_get fd "customerPhone" = Ret customerPhone
    /\ Js.get receiptData "customer_phone" = Ret (Js.or customerPhone JNull)
    /\ Js.get receiptData "customer_email" = formData_get fd "customerEmail".
Proof.
  unfold receiptData_of. intros H.
  destruct (formData_get fd "customerName"); [|discriminate].
  destruct (formData_get fd "customerEmail") as [customerEmail|]; [|discriminate].
  destruct (formData_get fd "customerPhone") as [customerPhone|]; [|discriminate].
  destruct (formData_get fd "transactionDate"); [|discriminate].
  destruct (formData_get fd "items") as [l|]; [|discriminate].
  destruct (items_map l); [|discriminate].
  destruct (formData_get fd "subtotal"); [|discriminate].
  destruct (formData_get fd "taxRate"); [|discriminate].
  destruct (formData_get fd "tax"); [|discriminate].
  destruct (formData_get fd "total"); [|discriminate].
  destruct (formData_get fd "receiptNumber"); [|discriminate].
  injection H as <-. exists customerPhone. repeat split.
Qed.

End DashboardFacts.

(** ** Tokens and sessions *)

Module SessionFacts.
Import Wire.

(** [login] and [register] by the answer to their one request. *)
Lemma perform_spec c w :
  AuthCalls.perform c w
  = let req := AuthCalls.request c w in
    match network w (requests w) req with
    | Rejects e => (Throw e, sent req w)
    | Resolves r =>
        match json r with
        | Throw e => (Throw e, sent req w)
        | Ret data =>
            if ok r then
              match Js.get data "access_token" with
              | Throw e => (Throw e, sent req w)
              | Ret _ =>
                  (Ret {| res_ok := true; res_data := data |},
                   set_storage (AuthCalls.session_stored data) (sent req w))
              end
            else (Ret {| res_ok := false; res_data := data |}, sent req w)
        end
    end.
Proof.
  destruct c as [email password|userData]; simpl AuthCalls.perform.
  - unfold authAPI.login. unfold bind at 1, base_url.
    apply AuthFacts.exchange_spec.
  - unfold authAPI.register. unfold bind at 1, base_url.
    apply AuthFacts.exchange_spec.
Qed.

(** The first request of [apiRequest]. *)
Lemma apiRequest_first endpoint options w :
  exists rest,
    requests (snd (apiRequest endpoint options w))
    = requests w ++ original endpoint options w :: rest.
Proof.
  rewrite CallFacts.apiRequest_issued.
  pose proof (SendFacts.issued_head endpoint options w) as H.
  destruct (CallTable.issued endpoint options w) as [|o rest]; [discriminate|].
  injection H as ->. exists rest. reflexivity.
Qed.

Lemma cleared_lookup storage key :
  cleared storage !! key
  = if String.eqb key "access_token" || String.eqb key "refresh_token"
       || String.eqb key "user"
    then None else storage !! key.
Proof.
  unfold cleared.
  destruct (String.eqb_spec key "user") as [->|Hu].
  { rewrite orb_true_r. apply lookup_delete_eq. }
  rewrite lookup_delete_ne by congruence.
  destruct (String.eqb_spec key "refresh_token") as [->|Hr].
  { rewrite orb_true_r. apply lookup_delete_eq. }
  rewrite lookup_delete_ne by congruence.
  destruct (String.eqb_spec key "access_token") as [->|Ha].
  { apply lookup_delete_eq. }
  rewrite lookup_delete_ne by congruence. reflexivity.
Qed.

Lemma clearTokens_spec w :
  clearTokens w = (Ret tt, set_storage cleared w).
Proof. reflexivity. Qed.

End SessionFacts.

(** X1: [refreshAccessToken] never throws.  It issues one POST to the
    refresh endpoint that bears the refresh token and has no body, and
    returns [true] exactly when the answer is an ok response whose JSON body
    can be read for [access_token]; only then does it write to local
    storage, and only the [access_token] entry.  A rejected fetch, a
    response that is not ok, a body that is not JSON and a [null] body all
    give [false] and leave local storage as it was.  The location and the
    console are never touched. *)
Theorem refresh_never_throws (refreshToken : string) (w : World) :
  let request :=
    {| url := API_BASE_URL w +:+ "/auth/refresh";
       method := Some "POST";
       headers := <[ "Authorization" := "Bearer " +:+ refreshToken ]>
                    {[ "Content-Type" := "application/json" ]};
       body := None |} in
  let outcome := refreshAccessToken refreshToken w in
  let refused :=
    fst outcome = Ret false /\ localStorage (snd outcome) = localStorage w in
  requests (snd outcome) = requests w ++ [request]
  /\ location_href (snd outcome) = location_href w
  /\ console (snd outcome) = console w
  /\ match network w (requests w) request with
     | Resolves r =>
         if ok r then
           match json r with
           | Ret data =>
               match Js.get data "access_token" with
               | Ret token =>
                   fst outcome = Ret true
                   /\ localStorage (snd outcome)
                      = <[ "access_token" := Js.toString token ]> (localStorage w)
               | Throw _ => refused
               end
           | Throw _ => refused
           end
         else refused
     | Rejects _ => refused
     end.
Proof.
  cbv zeta. rewrite ApiFacts.refreshAccessToken_spec.
  unfold Wire.refreshed_token, Wire.refresh, json_headers.
  destruct (network w (requests w) _) as [r|e]; [|repeat split].
  destruct (ok r); [|repeat split].
  destruct (json r) as [data|e]; [|repeat split].
  destruct (Js.get data "access_token"); repeat split.
Qed.

(** X2: the request [apiRequest] issues first goes to the base URL followed
    by the endpoint, with the method and body of the options.  Its content
    type is JSON unless the caller's headers name another; it bears the
    stored access token as [Bearer] whenever a non-empty one is stored, also
    over an [Authorization] header of the caller; every other header is the
    caller's. *)
Theorem request_headers (endpoint : string) (options : Options) (w : World) :
  exists (first : Request) (rest : list Request),
    requests (snd (apiRequest endpoint options w)) = requests w ++ first :: rest
    /\ url first = API_BASE_URL w +:+ endpoint
    /\ method first = opt_method options
    /\ body first = opt_body options
    /\ headers first !! "Content-Type"
       = Some (default "application/json" (opt_headers options !! "Content-Type"))
    /\ headers first !! "Authorization"
       = match localStorage w !! "access_token" with
         | Some (String c token) => Some ("Bearer " +:+ String c token)
         | _ => opt_headers options !! "Authorization"
         end
    /\ forall name,
         name <> "Content-Type" -> name <> "Authorization" ->
         headers first !! name = opt_headers options !! name.
Proof.
  destruct (SessionFacts.apiRequest_first endpoint options w) as [rest Hrest].
  exists (Wire.original endpoint options w), rest.
  split; [exact Hrest|].
  split; [reflexivity|]. split; [reflexivity|]. split; [reflexivity|].
  assert (Hunion : forall name,
             (opt_headers options ∪ json_headers) !! name
             = match opt_headers options !! name with
               | Some v => Some v
               | None => json_headers !! name
               end).
  { intros name. rewrite lookup_union.
    destruct (opt_headers options !! name), (json_headers !! name); reflexivity. }
  unfold Wire.original. cbn [headers].
  destruct (localStorage w !! "access_token") as [[|c token]|]; cbn [truthy_item Js.nonempty item_toString].
  - split; [|split].
    + rewrite Hunion. unfold json_headers. rewrite lookup_singleton_eq.
      destruct (opt_headers options !! "Content-Type"); reflexivity.
    + rewrite Hunion. unfold json_headers. rewrite lookup_singleton_ne by discriminate.
      destruct (opt_headers options !! "Authorization"); reflexivity.
    + intros name Hc Ha. rewrite Hunion. unfold json_headers.
      rewrite lookup_singleton_ne by congruence.
      destruct (opt_headers options !! name); reflexivity.
  - split; [|split].
    + rewrite lookup_insert_ne by discriminate.
      rewrite Hunion. unfold json_headers. rewrite lookup_singleton_eq.
      destruct (opt_headers options !! "Content-Type"); reflexivity.
    + rewrite lookup_insert_eq. reflexivity.
    + intros name Hc Ha. rewrite lookup_insert_ne by congruence.
      rewrite Hunion. unfold json_headers.
      rewrite lookup_singleton_ne by congruence.
      destruct (opt_headers options !! name); reflexivity.
  - split; [|split].
    + rewrite Hunion. unfold json_headers. rewrite lookup_singleton_eq.
      destruct (opt_headers options !! "Content-Type"); reflexivity.
    + rewrite Hunion. unfold json_headers. rewrite lookup_singleton_ne by discriminate.
      destruct (opt_headers options !! "Authorization"); reflexivity.
    + intros name Hc Ha. rewrite Hunion. unfold json_headers.
      rewrite lookup_singleton_ne by congruence.
      destruct (opt_headers options !! name); reflexivity.
Qed.

(** X3: logging out from the navigation bar clears the session on the
    client and nowhere else.  The three session entries of local storage are
    removed and every other entry stays; the user of the context becomes
    [null], so the context and the API layer both report that nobody is
    signed in, [getUser] returns [null], and the protected route redirects
    to /login once loading is over; the router is sent to /login.  No
    request is issued and [window.location] is not touched. *)
Theorem logout_clears_session (JSON_parse : string -> Result JsVal) (p : @Page unit) :
  let outcome := Navbar.handleLogout p in
  let after := snd outcome in
  fst outcome = Ret tt
  /\ history after = history p ++ ["/login"]
  /\ (auth after, browser after) = snd (AuthContext.logout (auth p, browser p))
  /\ AuthContext.user (auth after) = JNull
  /\ AuthContext.loading (auth after) = AuthContext.loading (auth p)
  /\ (forall key,
        localStorage (browser after) !! key
        = if String.eqb key "access_token" || String.eqb key "refresh_token"
             || String.eqb key "user"
          then None
          else localStorage (browser p) !! key)
  /\ requests (browser after) = requests (browser p)
  /\ location_href (browser after) = location_href (browser p)
  /\ AuthContext.isAuthenticated (auth after) = false
  /\ fst (authAPI.isAuthenticated (browser after)) = Ret false
  /\ fst (authAPI.getUser JSON_parse (browser after)) = Ret JNull
  /\ forall (A : Type) (children : A),
       ProtectedRoute (auth after) children
       = if AuthContext.loading (auth p) then Spinner else Navigate "/login" true.
Proof.
  cbv zeta. destruct p as [[] h a w].
  assert (Hrun : Navbar.handleLogout
                   {| view := tt; history := h; auth := a; browser := w |}
                 = (Ret tt,
                    {| view := tt;
                       history := h ++ ["/login"];
                       auth := {| AuthContext.user := JNull;
                                  AuthContext.loading := AuthContext.loading a |};
                       browser := set_storage Wire.cleared w |})) by reflexivity.
  rewrite Hrun. cbn [fst snd history auth browser view].
  assert (Hkey : forall key,
             localStorage (set_storage Wire.cleared w) !! key
             = if String.eqb key "access_token" || String.eqb key "refresh_token"
                  || String.eqb key "user"
               then None
               else localStorage w !! key)
    by (intros key; apply SessionFacts.cleared_lookup).
  repeat split; try reflexivity.
  - exact Hkey.
  - unfold authAPI.isAuthenticated, bind, getToken, getItem. cbn [fst].
    rewrite (Hkey "access_token"). reflexivity.
  - unfold authAPI.getUser, bind, getItem. cbn [fst].
    rewrite (Hkey "user"). reflexivity.
Qed.

(** X4: the session a successful [login] or [register] stores is the one
    the API layer then uses: the access token of the answer is what
    [getToken] returns, [isAuthenticated] holds, and every later
    [apiRequest] bears it as [Bearer] token. *)
Theorem session_token_is_borne (c : AuthCalls.AuthCall) (w w' : World) (data : JsVal)
    (endpoint : string) (options : Options) :
  AuthCalls.perform c w = (Ret {| res_ok := true; res_data := data |}, w') ->
  let token := Js.toString (Js.get_opt data "access_token") in
  token <> "" ->
  fst (getToken w') = Ret (Some token)
  /\ fst (authAPI.isAuthenticated w') = Ret true
  /\ exists (first : Request) (rest : list Request),
       requests (snd (apiRequest endpoint options w')) = requests w' ++ first :: rest
       /\ url first = API_BASE_URL w +:+ endpoint
       /\ headers first !! "Authorization" = Some ("Bearer " +:+ token).
Proof.
  intros Hrun token Htoken.
  assert (Hstored : localStorage w' !! "access_token" = Some token
                    /\ API_BASE_URL w' = API_BASE_URL w).
  { rewrite SessionFacts.perform_spec in Hrun. cbv zeta in Hrun.
    destruct (network w (requests w) _) as [r|e]; [|discriminate].
    destruct (json r) as [d|e]; [|discriminate].
    destruct (ok r); [|discriminate].
    destruct (Js.get d "access_token"); [|discriminate].
    injection Hrun as <- <-. split; [|reflexivity].
    unfold set_storage, AuthCalls.session_stored. cbn [localStorage].
    rewrite lookup_insert_ne by discriminate.
    destruct (Js.truthy (Js.get_opt d "refresh_token")).
    - rewrite lookup_insert_ne by discriminate. apply lookup_insert_eq.
    - apply lookup_insert_eq. }
  destruct Hstored as [Hstored Hbase]. clearbody token.
  assert (Htruthy : Js.nonempty token = true)     by (destruct token; [exfalso; apply Htoken; reflexivity|reflexivity]).
  split; [|split].
  - unfold getToken, getItem. cbn [fst]. rewrite Hstored. reflexivity.
  - unfold authAPI.isAuthenticated, bind, getToken, getItem. cbn [fst].
    rewrite Hstored. cbn [truthy_item]. rewrite Htruthy. reflexivity.
  - destruct (SessionFacts.apiRequest_first endpoint options w') as [rest Hrest].
    exists (Wire.original endpoint options w'), rest.
    split; [exact Hrest|]. split.
    + cbn [Wire.original url]. rewrite Hbase. reflexivity.
    + unfold Wire.original. cbn [headers]. rewrite Hstored.
      cbn [truthy_item item_toString]. rewrite Htruthy. apply lookup_insert_eq.
Qed.

Lemma session_token_is_borne_witness :
  let w' := snd (authAPI.login Sample.ann (JStr "secret") Sample.accepting) in
  fst (getToken w') = Ret (Some "a9")
  /\ fst (authAPI.isAuthenticated w') = Ret true
  /\ exists (first : Request) (rest : list Request),
       requests (snd (apiRequest "/receipts/stats" no_options w'))
       = requests w' ++ first :: rest
       /\ url first = "http://localhost:5000/api/receipts/stats"
       /\ headers first !! "Authorization" = Some "Bearer a9".
Proof.
  cbv zeta.
  apply (session_token_is_borne
           (AuthCalls.auth_login Sample.ann (JStr "secret")) Sample.accepting
           (snd (authAPI.login Sample.ann (JStr "secret") Sample.accepting))
           Sample.session "/receipts/stats" no_options).
  - vm_compute. reflexivity.
  - vm_compute. discriminate.
Defined.

(** X22: the profile methods of [authAPI] use the session.  [getProfile]
    is a GET of /auth/profile, [updateProfile] a PUT of the profile data as
    JSON to the same endpoint, [changePassword] a POST of the two passwords
    as JSON under [current_password] and [new_password] to
    /auth/change-password.  Each goes through [apiRequest]: its first
    request bears the stored access token when there is one, and the result
    is the ok flag and the parsed body of the response [apiRequest] hands
    back; what [apiRequest] throws, and a body that is not JSON, is
    thrown. *)
Theorem profile_calls_use_the_session (c : ProfileCalls.ProfileCall) (w : World) :
  let endpoint :=
    match c with
    | ProfileCalls.auth_changePassword _ _ => "/auth/change-password"
    | _ => "/auth/profile"
    end in
  let options :=
    match c with
    | ProfileCalls.auth_getProfile => no_options
    | ProfileCalls.auth_updateProfile profileData =>
        {| opt_method := Some "PUT"; opt_body := Js.stringify profileData;
           opt_headers := ∅ |}
    | ProfileCalls.auth_changePassword currentPassword newPassword =>
        {| opt_method := Some "POST";
           opt_body := Js.stringify (JObj [("current_password", currentPassword);
                                           ("new_password", newPassword)]);
           opt_headers := ∅ |}
    end in
  let exchange := apiRequest endpoint options w in
  ProfileCalls.perform c w
  = (match fst exchange with
     | Ret r =>
         match json r with
         | Ret data => Ret {| res_ok := ok r; res_data := data |}
         | Throw e => Throw e
         end
     | Throw e => Throw e
     end, snd exchange)
  /\ exists (first : Request) (rest : list Request),
       requests (snd (ProfileCalls.perform c w)) = requests w ++ first :: rest
       /\ url first = API_BASE_URL w +:+ endpoint
       /\ method first = opt_method options
       /\ body first = opt_body options
       /\ headers first !! "Authorization"
          = match localStorage w !! "access_token" with
            | Some (String ch token) => Some ("Bearer " +:+ String ch token)
            | _ => None
            end.
Proof.
  cbv zeta.
  assert (H : forall e o,
             (let* response := apiRequest e o in ok_and_data response) w
             = (match fst (apiRequest e o w) with
                | Ret r =>
                    match json r with
                    | Ret data => Ret {| res_ok := ok r; res_data := data |}
                    | Throw x => Throw x
                    end
                | Throw x => Throw x
                end, snd (apiRequest e o w))).
  { intros e o. unfold bind.
    destruct (apiRequest e o w) as [[r|x] w']; cbn [fst snd]; [|reflexivity].
    unfold ok_and_data, bind, lift, ret.
    destruct (json r); reflexivity. }
  assert (Hfirst : forall e o,
             opt_headers o = ∅ ->
             exists (first : Request) (rest : list Request),
               requests (snd (apiRequest e o w)) = requests w ++ first :: rest
               /\ url first = API_BASE_URL w +:+ e
               /\ method first = opt_method o
               /\ body first = opt_body o
               /\ headers first !! "Authorization"
                  = match localStorage w !! "access_token" with
                    | Some (String ch token) => Some ("Bearer " +:+ String ch token)
                    | _ => None
                    end).
  { intros e o Ho.
    destruct (SessionFacts.apiRequest_first e o w) as [rest Hrest].
    exists (Wire.original e o w), rest.
    split; [exact Hrest|]. repeat split.
    unfold Wire.original. cbn [headers]. rewrite Ho.
    destruct (localStorage w !! "access_token") as [[|ch token]|];
      cbn [truthy_item Js.nonempty item_toString].
    - rewrite lookup_union, lookup_empty. unfold json_headers.
      rewrite lookup_singleton_ne by discriminate. reflexivity.
    - apply lookup_insert_eq.
    - rewrite lookup_union, lookup_empty. unfold json_headers.
      rewrite lookup_singleton_ne by discriminate. reflexivity. }
  destruct c as [|profileData|currentPassword newPassword]; cbn [ProfileCalls.perform].
  - unfold authAPI.getProfile. rewrite H. split; [reflexivity|].
    cbn [snd]. apply Hfirst. reflexivity.
  - unfold authAPI.updateProfile. rewrite H. split; [reflexivity|].
    cbn [snd]. apply Hfirst. reflexivity.
  - unfold authAPI.changePassword. rewrite H. split; [reflexivity|].
    cbn [snd]. apply (Hfirst _ (post _)). reflexivity.
Qed.

(** ** The query string of a request *)

Module QueryFacts.
Import FormUrlencoded URLSearchParams CallFacts.

Lemma decode_encode_byte c t : decode (encode_byte c +:+ t) = String c (decode t).
Proof.
  destruct c as [[] [] [] [] [] [] [] []]; reflexivity.
Qed.

Lemma decode_encode s : decode (encode s) = s.
Proof.
  induction s as [|c s IH]; [reflexivity|].
  cbn [encode]. rewrite decode_encode_byte, IH. reflexivity.
Qed.

Lemma free_of_app p a b : free_of p (a +:+ b) = free_of p a && free_of p b.
Proof.
  induction a as [|c a IH]; [reflexivity|].
  rewrite append_cons. cbn [free_of]. rewrite IH, andb_assoc. reflexivity.
Qed.

Lemma free_of_encode_byte c : free_of delimiter (encode_byte c) = true.
Proof.
  destruct c as [[] [] [] [] [] [] [] []]; reflexivity.
Qed.

Lemma free_of_encode s : free_of delimiter (encode s) = true.
Proof.
  induction s as [|c s IH]; [reflexivity|].
  cbn [encode]. rewrite free_of_app, free_of_encode_byte, IH. reflexivity.
Qed.

Lemma free_of_weaken (p q : ascii -> bool) s :
  (forall c, q c = true -> p c = true) -> free_of p s = true -> free_of q s = true.
Proof.
  intros Hpq. induction s as [|c s IH]; [reflexivity|].
  cbn [free_of]. intros H. apply andb_prop in H as [Hc Hs].
  rewrite (IH Hs), andb_true_r.
  destruct (q c) eqn:E; [|reflexivity].
  rewrite (Hpq c E) in Hc. discriminate.
Qed.

Lemma name_value_cut n v :
  free_of (fun c => Ascii.eqb c "=") n = true ->
  name_value (n +:+ "=" +:+ v) = (n, v).
Proof.
  induction n as [|c n IH]; intros H; [reflexivity|].
  cbn [free_of] in H. apply andb_prop in H as [Hc Hn].
  rewrite append_cons. cbn [name_value].
  destruct (Ascii.eqb c "="); [discriminate|].
  rewrite (IH Hn). reflexivity.
Qed.

Lemma split_whole s :
  free_of (fun c => Ascii.eqb c "&") s = true -> split "&" s = [s].
Proof.
  induction s as [|c s IH]; intros H; [reflexivity|].
  cbn [free_of] in H. apply andb_prop in H as [Hc Hs].
  cbn [split]. destruct (Ascii.eqb c "&"); [discriminate|].
  rewrite (IH Hs). reflexivity.
Qed.

Lemma split_cut s t :
  free_of (fun c => Ascii.eqb c "&") s = true ->
  split "&" (s +:+ "&" +:+ t) = s :: split "&" t.
Proof.
  induction s as [|c s IH]; intros H; [reflexivity|].
  cbn [free_of] in H. apply andb_prop in H as [Hc Hs].
  rewrite append_cons. cbn [split]. destruct (Ascii.eqb c "&"); [discriminate|].
  rewrite (IH Hs). reflexivity.
Qed.

Lemma split_join l :
  l <> [] ->
  Forall (fun s => free_of (fun c => Ascii.eqb c "&") s = true) l ->
  split "&" (Js.join "&" l) = l.
Proof.
  induction l as [|s l IH]; intros Hne Hfree; [congruence|].
  apply List.Forall_cons_iff in Hfree as [Hs Hl].
  destruct l as [|s' l]; [apply split_whole; exact Hs|].
  change (Js.join "&" (s :: s' :: l)) with (s +:+ "&" +:+ Js.join "&" (s' :: l)).
  rewrite (split_cut _ _ Hs), IH; [reflexivity|discriminate|exact Hl].
Qed.

Lemma free_of_amp_encode s :
  free_of (fun c => Ascii.eqb c "&") (encode s) = true.
Proof.
  apply (free_of_weaken delimiter); [|apply free_of_encode].
  intros c H. unfold delimiter. rewrite H. reflexivity.
Qed.

Lemma free_of_eq_encode s :
  free_of (fun c => Ascii.eqb c "=") (encode s) = true.
Proof.
  apply (free_of_weaken delimiter); [|apply free_of_encode].
  intros c H. unfold delimiter. rewrite H. apply orb_true_r.
Qed.

Lemma pair_text_free kv :
  free_of (fun c => Ascii.eqb c "&") (pair_text kv) = true.
Proof.
  destruct kv as [k v]. unfold pair_text.
  rewrite !free_of_app, !free_of_amp_encode. reflexivity.
Qed.

Lemma pair_text_nonempty kv : Js.nonempty (pair_text kv) = true.
Proof.
  destruct kv as [k v]. unfold pair_text.
  destruct (encode k); reflexivity.
Qed.

Lemma pair_text_parsed kv :
  (let '(n, v) := name_value (pair_text kv) in (decode n, decode v)) = kv.
Proof.
  destruct kv as [k v]. unfold pair_text. rewrite name_value_cut.
  - rewrite !decode_encode. reflexivity.
  - apply free_of_eq_encode.
Qed.

Lemma parse_toString params : parse (toString params) = params.
Proof.
  unfold parse, toString.
  change (fun '(k, v) => encode k +:+ "=" +:+ encode v) with pair_text.
  destruct params as [|kv params]; [reflexivity|].
  rewrite split_join.
  - induction (kv :: params) as [|x l IH]; [reflexivity|].
    cbn [List.map List.filter]. rewrite pair_text_nonempty.
    cbn [List.map]. rewrite pair_text_parsed. f_equal. exact IH.
  - discriminate.
  - apply List.Forall_forall. intros s Hin.
    apply in_map_iff in Hin as (x & <- & _). apply pair_text_free.
Qed.

End QueryFacts.

(** X5: the query string [URLSearchParams] serialises round-trips: each
    name and value decodes to itself, and the serialised parameters parse
    back to the same list, whatever bytes the names and values hold.  So the
    query string of [getAll] carries exactly its parameters: a search or
    status text cannot add or alter a parameter. *)
Theorem query_string_round_trip (params : list (string * string))
    (page perPage : option float) (search status : option string) :
  (forall text, FormUrlencoded.decode (URLSearchParams.encode text) = text)
  /\ FormUrlencoded.parse (URLSearchParams.toString params) = params
  /\ FormUrlencoded.parse
       (URLSearchParams.toString (receiptsAPI.getAll_params page perPage search status))
     = [("page", Number.toString (default 1%float page));
        ("per_page", Number.toString (default 20%float perPage))]
       ++ (if Js.nonempty (default "" search) then [("search", default "" search)] else [])
       ++ (if Js.nonempty (default "" status) then [("status", default "" status)] else []).
Proof.
  split; [apply QueryFacts.decode_encode|].
  split; apply QueryFacts.parse_toString.
Qed.

Example search_text_with_delimiters :
  URLSearchParams.toString
    (receiptsAPI.getAll_params None None (Some "a&status=sent 100%") None)
  = "page=1&per_page=20&search=a%26status%3Dsent+100%25".
Proof. vm_compute. reflexivity. Qed.

(** ** The auth context and the pages *)

Module ContextFacts.
Import ContextCalls.

Lemma enter_spec c (st : AuthContext.State) w :
  enter c (st, w)
  = match AuthCalls.perform c w with
    | (Throw e, w') => (Throw e, (st, w'))
    | (Ret result, w') =>
        if res_ok result then
          match Js.get (res_data result) "user" with
          | Ret u =>
              (Ret {| AuthContext.success := true; AuthContext.error := JUndefined |},
               ({| AuthContext.user := u;
                   AuthContext.loading := AuthContext.loading st |}, w'))
          | Throw e => (Throw e, (st, w'))
          end
        else
          match Js.get (res_data result) "error" with
          | Ret e =>
              (Ret {| AuthContext.success := false; AuthContext.error := e |}, (st, w'))
          | Throw e => (Throw e, (st, w'))
          end
    end.
Proof.
  destruct c as [email password|userData]; cbn [enter AuthCalls.perform].
  - unfold AuthContext.login, bind at 1, AuthContext.api. cbn [fst snd].
    destruct (authAPI.login email password w) as [[result|e] w']; [|reflexivity].
    destruct (res_ok result); unfold bind, lift.
    + destruct (Js.get (res_data result) "user"); reflexivity.
    + destruct (Js.get (res_data result) "error"); reflexivity.
  - unfold AuthContext.signup, bind at 1, AuthContext.api. cbn [fst snd].
    destruct (authAPI.register userData w) as [[result|e] w']; [|reflexivity].
    destruct (res_ok result); unfold bind, lift.
    + destruct (Js.get (res_data result) "user"); reflexivity.
    + destruct (Js.get (res_data result) "error"); reflexivity.
Qed.

(** The pages wrap the call in the same [try], [catch] and [finally]. *)
Lemma page_attempt {S} (m : AuthContext.C AuthContext.Outcome) (text : string)
    (with_error : JsVal -> S -> S) (with_loading : bool -> S -> S) (p : @Page S) :
  finally
    (try_catch
       (let* result := Router.context m in
        if AuthContext.success result then Router.navigate "/"
        else Router.set_view (with_error (Js.or (AuthContext.error result) (JStr text))))
       (fun _ => Router.set_view
                   (with_error (JStr "An unexpected error occurred. Please try again."))))
    (Router.set_view (with_loading false)) p
  = let attempt := m (auth p, browser p) in
    (Ret tt,
     {| view := with_loading false
                  (match fst attempt with
                   | Ret result =>
                       if AuthContext.success result then view p
                       else with_error (Js.or (AuthContext.error result) (JStr text))
                                       (view p)
                   | Throw _ =>
                       with_error (JStr "An unexpected error occurred. Please try again.")
                                  (view p)
                   end);
        history := history p ++ fst (shown text (fst attempt));
        auth := fst (snd attempt);
        browser := snd (snd attempt) |}).
Proof.
  cbv zeta. unfold finally, try_catch, bind, Router.context.
  destruct (m (auth p, browser p)) as [[result|e] [a w]]; cbn [fst snd shown].
  - destruct (AuthContext.success result);
      cbn [fst snd Router.navigate Router.set_view view history auth browser].
    + reflexivity.
    + rewrite app_nil_r. reflexivity.
  - cbn [Router.set_view fst snd view history auth browser].
    rewrite app_nil_r. reflexivity.
Qed.

Lemma auth_perform_requests c w :
  requests (snd (AuthCalls.perform c w)) = requests w ++ [AuthCalls.request c w].
Proof.
  rewrite SessionFacts.perform_spec. cbv zeta.
  destruct (network w (requests w) _) as [r|e]; [|reflexivity].
  destruct (json r) as [data|e]; [|reflexivity].
  destruct (ok r); [|reflexivity].
  destruct (Js.get data "access_token"); reflexivity.
Qed.

Lemma enter_browser c (st : AuthContext.State) w :
  snd (snd (enter c (st, w))) = snd (AuthCalls.perform c w).
Proof.
  rewrite enter_spec.
  destruct (AuthCalls.perform c w) as [[result|e] w']; [|reflexivity].
  destruct (res_ok result).
  - destruct (Js.get (res_data result) "user"); reflexivity.
  - destruct (Js.get (res_data result) "error"); reflexivity.
Qed.

(** The body of the registration request: an empty phone is left out. *)
Lemma userData_body fd :
  Js.stringify (Signup.userData fd)
  = Js.stringify
      (JObj ([("email", JStr (Signup.email fd));
              ("password", JStr (Signup.password fd));
              ("business_name", JStr (Signup.business_name fd))]
             ++ (if Js.nonempty (Signup.phone fd)
                 then [("phone", JStr (Signup.phone fd))]
                 else []))).
Proof.
  unfold Signup.userData, Js.or. cbn [Js.truthy].
  destruct (Js.nonempty (Signup.phone fd)); reflexivity.
Qed.

(** The mount effect by what local storage holds. *)
Lemma on_mount_spec JSON_parse (st : AuthContext.State) w :
  AuthContext.on_mount JSON_parse (st, w)
  = match localStorage w !! "user" with
    | Some (String c text) =>
        match JSON_parse (String c text) with
        | Ret storedUser =>
            (Ret tt,
             ({| AuthContext.user :=
                   match localStorage w !! "access_token" with
                   | Some (String _ _) =>
                       if Js.truthy storedUser then storedUser
                       else AuthContext.user st
                   | _ => AuthContext.user st
                   end;
                 AuthContext.loading := false |}, w))
        | Throw e => (Throw e, (st, w))
        end
    | _ => (Ret tt, ({| AuthContext.user := AuthContext.user st;
                        AuthContext.loading := false |}, w))
    end.
Proof.
  unfold AuthContext.on_mount, bind at 1, AuthContext.api at 1. cbn [fst snd].
  unfold authAPI.getUser, bind at 1, getItem. cbn [fst snd].
  destruct (localStorage w !! "user") as [[|c text]|];
    cbn [truthy_item Js.nonempty item_toString]; try reflexivity.
  unfold lift. destruct (JSON_parse (String c text)) as [storedUser|e]; [|reflexivity].
  unfold bind at 1.
  destruct (Js.truthy storedUser) eqn:Etruthy.
  - unfold AuthContext.api, authAPI.isAuthenticated, bind at 1, getToken, getItem.
    cbn [fst snd].
    destruct (localStorage w !! "access_token") as [[|c' token]|]; reflexivity.
  - destruct (localStorage w !! "access_token") as [[|c' token]|]; reflexivity.
Qed.

End ContextFacts.

(** X6: after [login] or [signup] of the auth context, the user held in
    memory and the session in local storage agree.  On success the context
    user is the [user] of the answer, local storage holds that same user as
    JSON text and the access token of the answer, and the context counts as
    authenticated exactly when that user is truthy.  On a refusal, and when
    the call throws, the context and local storage are as they were; the
    error handed back is the [error] of the answer.  [loading] is never
    changed. *)
Theorem context_user_matches_storage (c : AuthCalls.AuthCall)
    (s : AuthContext.State * World) :
  let outcome := ContextCalls.enter c s in
  let after := snd outcome in
  let kept := fst after = fst s /\ localStorage (snd after) = localStorage (snd s) in
  AuthContext.loading (fst after) = AuthContext.loading (fst s)
  /\ snd after = snd (AuthCalls.perform c (snd s))
  /\ match fst outcome with
     | Ret result =>
         exists data,
           fst (AuthCalls.perform c (snd s))
           = Ret {| res_ok := AuthContext.success result; res_data := data |}
           /\ if AuthContext.success result then
                AuthContext.user (fst after) = Js.get_opt data "user"
                /\ localStorage (snd after) !! "user"
                   = Some (Js.stringify_toString (AuthContext.user (fst after)))
                /\ localStorage (snd after) !! "access_token"
                   = Some (Js.toString (Js.get_opt data "access_token"))
                /\ AuthContext.isAuthenticated (fst after)
                   = Js.truthy (Js.get_opt data "user")
                /\ AuthContext.error result = JUndefined
              else
                kept /\ AuthContext.error result = Js.get_opt data "error"
     | Throw _ => kept
     end.
Proof.
  cbv zeta. destruct s as [st w]. cbn [fst snd].
  rewrite ContextFacts.enter_spec, SessionFacts.perform_spec. cbv zeta.
  destruct (network w (requests w) _) as [r|e]; [|repeat split].
  destruct (json r) as [data|e]; [|repeat split].
  destruct (ok r).
  - destruct (Js.get data "access_token") as [t|e] eqn:Et; cbn [res_ok res_data fst snd].
    + rewrite (AuthFacts.get_returns_alike _ _ "user" _ Et). cbn [fst snd].
      split; [reflexivity|]. split; [reflexivity|].
      exists data. split; [reflexivity|]. cbn [AuthContext.success AuthContext.user].
      repeat split.
      * unfold set_storage, AuthCalls.session_stored. cbn [localStorage].
        apply lookup_insert_eq.
      * unfold set_storage, AuthCalls.session_stored. cbn [localStorage].
        rewrite lookup_insert_ne by discriminate.
        destruct (Js.truthy (Js.get_opt data "refresh_token")).
        -- rewrite lookup_insert_ne by discriminate. apply lookup_insert_eq.
        -- apply lookup_insert_eq.
    + repeat split.
  - cbn [res_ok res_data].
    destruct (Js.get data "error") as [x|x] eqn:Ex; cbn [fst snd]; [|repeat split].
    split; [reflexivity|]. split; [reflexivity|].
    exists data. split; [reflexivity|]. cbn [AuthContext.success AuthContext.error].
    repeat split. symmetry. apply AuthFacts.get_get_opt. exact Ex.
Qed.

(** X7: the effect the auth provider runs on mount restores the session
    from local storage without a request.  With no stored user, or an empty
    one, it only ends loading.  With a stored user that parses, it ends
    loading and puts the parsed user in the context when that user is truthy
    and a non-empty access token is stored.  With a stored user that does
    not parse, [JSON.parse] throws out of the effect before the user is set
    or loading is ended.  Whenever the effect returns, the protected route
    no longer shows the spinner: it renders its children when the context
    user is truthy and redirects to /login otherwise. *)
Theorem mount_restores_session (JSON_parse : string -> Result JsVal)
    (s : AuthContext.State * World) :
  let outcome := AuthContext.on_mount JSON_parse s in
  let after := fst (snd outcome) in
  let ended := fun user =>
    outcome = (Ret tt, ({| AuthContext.user := user; AuthContext.loading := false |},
                        snd s)) in
  snd (snd outcome) = snd s
  /\ match localStorage (snd s) !! "user" with
     | Some (String c text) =>
         match JSON_parse (String c text) with
         | Ret storedUser =>
             ended (match localStorage (snd s) !! "access_token" with
                    | Some (String _ _) =>
                        if Js.truthy storedUser then storedUser
                        else AuthContext.user (fst s)
                    | _ => AuthContext.user (fst s)
                    end)
         | Throw e => outcome = (Throw e, s)
         end
     | _ => ended (AuthContext.user (fst s))
     end
  /\ match fst outcome with
     | Ret _ =>
         forall (A : Type) (children : A),
           ProtectedRoute after children
           = if Js.truthy (AuthContext.user after)
             then Children children
             else Navigate "/login" true
     | Throw _ => True
     end.
Proof.
  cbv zeta. destruct s as [st w]. cbn [fst snd].
  rewrite ContextFacts.on_mount_spec.
  destruct (localStorage w !! "user") as [[|c text]|];
    try (split; [reflexivity|]; split; [reflexivity|];
         cbn [fst snd]; intros A children; unfold ProtectedRoute, AuthContext.isAuthenticated;
         cbn [AuthContext.loading AuthContext.user];
         destruct (Js.truthy _); reflexivity).
  destruct (JSON_parse (String c text)) as [storedUser|e].
  - split; [reflexivity|]. split; [reflexivity|].
    cbn [fst snd]. intros A children.
    unfold ProtectedRoute, AuthContext.isAuthenticated.
    cbn [AuthContext.loading AuthContext.user].
    destruct (Js.truthy _); reflexivity.
  - split; [reflexivity|]. split; [reflexivity|exact I].
Qed.

(** X8: submitting the login page never throws and always ends with
    [loading] off.  It calls [login] of the context once with the email and
    password of the page; when that succeeds the router is sent to / and no
    error is shown; when it is refused the error of the answer is shown, or
    a fixed text when there is none; when it throws a fixed text is shown;
    in both cases the page stays where it is.  The inputs are left as they
    are. *)
Theorem login_page_submit (p : @Page Login.State) :
  let attempt :=
    AuthContext.login (JStr (Login.email (view p))) (JStr (Login.password (view p)))
      (auth p, browser p) in
  let shown := ContextCalls.shown "Login failed. Please try again." (fst attempt) in
  Login.handleSubmit p
  = (Ret tt,
     {| view := {| Login.email := Login.email (view p);
                   Login.password := Login.password (view p);
                   Login.showPassword := Login.showPassword (view p);
                   Login.error := snd shown;
                   Login.loading := false |};
        history := history p ++ fst shown;
        auth := fst (snd attempt);
        browser := snd (snd attempt) |}).
Proof.
  cbv zeta. unfold Login.handleSubmit, bind at 1, Router.get_view. cbn [fst snd].
  unfold bind at 1, Login.setError at 1, Router.set_view at 1. cbn [fst snd].
  unfold bind at 1, Login.setLoading at 1, Router.set_view at 1. cbn [fst snd].
  etransitivity.
  { apply (ContextFacts.page_attempt _ "Login failed. Please try again."
             (fun v st => {| Login.email := Login.email st;
                             Login.password := Login.password st;
                             Login.showPassword := Login.showPassword st;
                             Login.error := v; Login.loading := Login.loading st |})
             (fun b st => {| Login.email := Login.email st;
                             Login.password := Login.password st;
                             Login.showPassword := Login.showPassword st;
                             Login.error := Login.error st; Login.loading := b |})). }
  cbv zeta. cbn [view history auth browser].
  destruct (AuthContext.login _ _ _) as [[result|e] s']; cbn [fst snd ContextCalls.shown];
    [destruct (AuthContext.success result)|]; reflexivity.
Qed.

(** X9: submitting the signup page never throws.  When the two passwords
    differ, or the password has fewer than six UTF-16 code units, it only
    shows the matching error: nothing is requested and [loading] is not
    touched.  Otherwise it calls [signup] of the context once, which issues
    one POST to the register endpoint; its body holds email, password and
    business name, the phone only when it is not empty, and never the
    confirmation.  It ends with [loading] off, at / when the signup
    succeeded, and with the error shown otherwise.  The inputs are left as
    they are. *)
Theorem signup_page_submit (p : @Page Signup.State) :
  let fd := Signup.formData (view p) in
  let outcome := Signup.handleSubmit p in
  let after := snd outcome in
  let refusal :=
    if negb (String.eqb (Signup.password fd) (Signup.confirmPassword fd))
    then Some "Passwords do not match"
    else if (JsString.length (Signup.password fd) <? 6)%nat
    then Some "Password must be at least 6 characters"
    else None in
  fst outcome = Ret tt
  /\ Signup.formData (view after) = fd
  /\ match refusal with
     | Some text =>
         Signup.error (view after) = JStr text
         /\ Signup.loading (view after) = Signup.loading (view p)
         /\ history after = history p
         /\ auth after = auth p
         /\ browser after = browser p
     | None =>
         let attempt := AuthContext.signup (Signup.userData fd) (auth p, browser p) in
         let shown :=
           ContextCalls.shown "Registration failed. Please try again." (fst attempt) in
         Signup.loading (view after) = false
         /\ Signup.error (view after) = snd shown
         /\ history after = history p ++ fst shown
         /\ (auth after, browser after) = snd attempt
         /\ requests (browser after)
            = requests (browser p)
              ++ [ {| url := API_BASE_URL (browser p) +:+ "/auth/register";
                      method := Some "POST";
                      headers := {[ "Content-Type" := "application/json" ]};
                      body :=
                        Js.stringify
                          (JObj ([("email", JStr (Signup.email fd));
                                  ("password", JStr (Signup.password fd));
                                  ("business_name", JStr (Signup.business_name fd))]
                                 ++ (if Js.nonempty (Signup.phone fd)
                                     then [("phone", JStr (Signup.phone fd))]
                                     else []))) |} ]
     end.
Proof.
  cbv zeta.
  set (fd := Signup.formData (view p)).
  set (with_error := fun v st =>
         {| Signup.formData := Signup.formData st;
            Signup.showPassword := Signup.showPassword st;
            Signup.showConfirmPassword := Signup.showConfirmPassword st;
            Signup.error := v; Signup.loading := Signup.loading st |}).
  set (with_loading := fun b st =>
         {| Signup.formData := Signup.formData st;
            Signup.showPassword := Signup.showPassword st;
            Signup.showConfirmPassword := Signup.showConfirmPassword st;
            Signup.error := Signup.error st; Signup.loading := b |}).
  set (cleared := {| view := with_error (JStr "") (view p); history := history p;
                     auth := auth p; browser := browser p |}).
  set (started := {| view := with_loading true (view cleared); history := history p;
                     auth := auth p; browser := browser p |}).
  assert (Hrun :
    Signup.handleSubmit p
    = if negb (String.eqb (Signup.password fd) (Signup.confirmPassword fd)) then
        Signup.setError (JStr "Passwords do not match") cleared
      else if (JsString.length (Signup.password fd) <? 6)%nat then
        Signup.setError (JStr "Password must be at least 6 characters") cleared
      else
        finally
          (try_catch
             (let* result := Router.context (AuthContext.signup (Signup.userData fd)) in
              if AuthContext.success result then Router.navigate "/"
              else Router.set_view
                     (with_error (Js.or (AuthContext.error result)
                                    (JStr "Registration failed. Please try again."))))
             (fun _ => Router.set_view
                         (with_error
                            (JStr "An unexpected error occurred. Please try again."))))
          (Router.set_view (with_loading false)) started).
  { unfold Signup.handleSubmit, bind at 1, Router.get_view. cbn [fst snd].
    unfold bind at 1, Signup.setError at 1, Router.set_view at 1. cbn [fst snd].
    fold fd.
    destruct (negb (String.eqb (Signup.password fd) (Signup.confirmPassword fd)));
      [reflexivity|].
    destruct (JsString.length (Signup.password fd) <? 6)%nat; reflexivity. }
  rewrite Hrun. clear Hrun.
  destruct (negb (String.eqb (Signup.password fd) (Signup.confirmPassword fd)));
    [repeat split|].
  destruct (JsString.length (Signup.password fd) <? 6)%nat; [repeat split|].
  rewrite ContextFacts.page_attempt. cbv zeta.
  cbn [fst snd view history auth browser started cleared].
  pose proof (ContextFacts.enter_browser
                (AuthCalls.auth_register (Signup.userData fd)) (auth p) (browser p))
    as Hbrowser.
  cbn [ContextCalls.enter] in Hbrowser.
  pose proof (ContextFacts.auth_perform_requests
                (AuthCalls.auth_register (Signup.userData fd)) (browser p)) as Hreq.
  rewrite <- Hbrowser in Hreq. cbn [AuthCalls.request] in Hreq.
  rewrite ContextFacts.userData_body in Hreq.
  change (auth started) with (auth p). change (browser started) with (browser p).
  change (history started) with (history p).
  destruct (AuthContext.signup (Signup.userData fd) (auth p, browser p))
    as [[result|e] [a w]]; cbn [fst snd ContextCalls.shown] in *.
  - destruct (AuthContext.success result); repeat split; exact Hreq.
  - repeat split; exact Hreq.
Qed.

(** X20: [login] and [register] stand outside the session handling of the
    other API methods.  Each issues exactly one request, a POST with the JSON
    content type as its only header: the stored access token is not sent.
    Whatever the answer, a 401 included, there is no token refresh and no
    retry, the location is left alone, and the stored session is only ever
    replaced by that of an ok answer, never cleared. *)
Theorem login_bypasses_the_session (c : AuthCalls.AuthCall) (w : World) :
  let outcome := AuthCalls.perform c w in
  let after := snd outcome in
  exists request,
    requests after = requests w ++ [request]
    /\ url request
       = API_BASE_URL w
         +:+ match c with
             | AuthCalls.auth_login _ _ => "/auth/login"
             | AuthCalls.auth_register _ => "/auth/register"
             end
    /\ method request = Some "POST"
    /\ headers request = {[ "Content-Type" := "application/json" ]}
    /\ headers request !! "Authorization" = None
    /\ location_href after = location_href w
    /\ console after = console w
    /\ (localStorage after = localStorage w
        \/ exists data,
             fst outcome = Ret {| res_ok := true; res_data := data |}
             /\ localStorage after = AuthCalls.session_stored data (localStorage w)).
Proof.
  cbv zeta. exists (AuthCalls.request c w).
  split; [apply ContextFacts.auth_perform_requests|].
  split; [destruct c; reflexivity|].
  split; [destruct c; reflexivity|].
  split; [destruct c; reflexivity|].
  split; [destruct c; reflexivity|].
  rewrite SessionFacts.perform_spec. cbv zeta.
  destruct (network w (requests w) _) as [r|e]; [|repeat split; left; reflexivity].
  destruct (json r) as [data|e]; [|repeat split; left; reflexivity].
  destruct (ok r); [|repeat split; left; reflexivity].
  destruct (Js.get data "access_token"); [|repeat split; left; reflexivity].
  repeat split. right. exists data. split; reflexivity.
Qed.

(** X21: a session survives a reload.  After a [login] or [signup] that
    succeeded with a user object, the mount effect of a fresh auth provider
    over the same local storage ends loading and restores that user,
    provided [JSON.parse] gives the user back from its JSON text and the
    stored access token is not empty; with an empty token the context stays
    signed out. *)
Theorem session_survives_reload (JSON_parse : string -> Result JsVal)
    (c : AuthCalls.AuthCall) (s s' : AuthContext.State * World)
    (result : AuthContext.Outcome) (props : list (string * JsVal)) :
  ContextCalls.enter c s = (Ret result, s') ->
  AuthContext.success result = true ->
  AuthContext.user (fst s') = JObj props ->
  JSON_parse (Js.stringify_toString (JObj props)) = Ret (JObj props) ->
  exists token,
    localStorage (snd s') !! "access_token" = Some token
    /\ AuthContext.on_mount JSON_parse (AuthContext.initial, snd s')
       = (Ret tt,
          ({| AuthContext.user := if Js.nonempty token then JObj props else JNull;
              AuthContext.loading := false |}, snd s')).
Proof.
  intros Hrun Hsuccess Huser Hparse.
  assert (Hstored : localStorage (snd s') !! "user"
                    = Some (Js.stringify_toString (JObj props))
                    /\ exists token, localStorage (snd s') !! "access_token" = Some token).
  { destruct s as [st w]. rewrite ContextFacts.enter_spec, SessionFacts.perform_spec in Hrun.
    cbv zeta in Hrun.
    destruct (network w (requests w) _) as [r|e]; [|discriminate].
    destruct (json r) as [data|e]; [|discriminate].
    destruct (ok r).
    - destruct (Js.get data "access_token") as [t|e] eqn:Et; [|discriminate].
      cbn [res_ok res_data] in Hrun.
      rewrite (AuthFacts.get_returns_alike _ _ "user" _ Et) in Hrun.
      injection Hrun as <- <-. cbn [fst snd AuthContext.user] in *.
      unfold set_storage, AuthCalls.session_stored. cbn [localStorage].
      split.
      + rewrite Huser. apply lookup_insert_eq.
      + rewrite lookup_insert_ne by discriminate.
        destruct (Js.truthy (Js.get_opt data "refresh_token")).
        * rewrite lookup_insert_ne by discriminate. rewrite lookup_insert_eq. eauto.
        * rewrite lookup_insert_eq. eauto.
    - cbn [res_ok res_data] in Hrun.
      destruct (Js.get data "error"); [|discriminate].
      injection Hrun as <- <-. discriminate. }
  destruct Hstored as [Hstored [token Htoken]].
  exists token. split; [exact Htoken|].
  rewrite ContextFacts.on_mount_spec, Hstored, Htoken.
  assert (Htext : exists ch text, Js.stringify_toString (JObj props) = String ch text).
  { unfold Js.stringify_toString. cbn [Js.stringify]. eexists _, _. reflexivity. }
  destruct Htext as (ch & text & Htext). rewrite Htext in *. rewrite Hparse.
  destruct token; reflexivity.
Qed.

Lemma session_survives_reload_witness :
  let user := JObj [("email", JStr "ann@example.com")] in
  let JSON_parse := fun text =>
    if String.eqb text (Js.stringify_toString user) then Ret user
    else Throw (SyntaxError "Unexpected token") in
  let s' := snd (AuthContext.login Sample.ann (JStr "secret")
                   (AuthContext.initial, Sample.accepting)) in
  exists token,
    localStorage (snd s') !! "access_token" = Some token
    /\ AuthContext.on_mount JSON_parse (AuthContext.initial, snd s')
       = (Ret tt,
          ({| AuthContext.user := if Js.nonempty token then user else JNull;
              AuthContext.loading := false |}, snd s')).
Proof.
  cbv zeta.
  apply (session_survives_reload
           (fun text =>
              if String.eqb text
                   (Js.stringify_toString (JObj [("email", JStr "ann@example.com")]))
              then Ret (JObj [("email", JStr "ann@example.com")])
              else Throw (SyntaxError "Unexpected token"))
           (AuthCalls.auth_login Sample.ann (JStr "secret"))
           (AuthContext.initial, Sample.accepting)
           (snd (AuthContext.login Sample.ann (JStr "secret")
                   (AuthContext.initial, Sample.accepting)))
           {| AuthContext.success := true; AuthContext.error := JUndefined |}
           [("email", JStr "ann@example.com")]).
  - vm_compute. reflexivity.
  - reflexivity.
  - vm_compute. reflexivity.
  - vm_compute. reflexivity.
Defined.

(** ** What the form lets through *)

Module ValidityFacts.
Import ReceiptForm Validity.

Lemma nonempty_true s : Js.nonempty s = true <-> s <> "".
Proof. destruct s; simpl; split; intros H; congruence. Qed.

Lemma existsb_incomplete l :
  existsb incomplete l = false
  <-> Forall (fun item => name item <> "" /\ (price item <=? 0)%float = false) l.
Proof.
  induction l as [|item l IH]; simpl.
  - split; [constructor|reflexivity].
  - rewrite orb_false_iff, IH. unfold incomplete.
    rewrite orb_false_iff, negb_false_iff, nonempty_true.
    split.
    + intros [[Hn Hp] Hl]. constructor; [split|]; assumption.
    + intros H. apply List.Forall_cons_iff in H as [[Hn Hp] Hl]. repeat split; assumption.
Qed.

Lemma handleSubmit_complete st :
  (exists d, fst (handleSubmit st) = OnSubmit d) <-> complete st.
Proof.
  unfold handleSubmit, complete, filled.
  destruct (Js.nonempty (customerName st)) eqn:E1; simpl.
  2: { split; [intros [d H]; discriminate|].
       intros (H & _). apply nonempty_true in H. congruence. }
  destruct (Js.nonempty (customerEmail st)) eqn:E2; simpl.
  2: { split; [intros [d H]; discriminate|].
       intros (_ & H & _). apply nonempty_true in H. congruence. }
  destruct (Js.nonempty (transactionDate st)) eqn:E3; simpl.
  2: { split; [intros [d H]; discriminate|].
       intros (_ & _ & H & _). apply nonempty_true in H. congruence. }
  apply nonempty_true in E1, E2, E3.
  destruct (existsb incomplete (items st)) eqn:E4; simpl.
  - split; [intros [d H]; discriminate|].
    intros (_ & _ & _ & H). apply existsb_incomplete in H. congruence.
  - split; [|eauto]. intros _. apply existsb_incomplete in E4. repeat split; assumption.
Qed.

Lemma handleSubmit_valid st :
  match fst (handleSubmit st) with
  | OnSubmit d => valid d
  | Alert _ => True
  end.
Proof.
  destruct (fst (handleSubmit st)) as [text|d] eqn:E; [exact I|].
  assert (Hc : complete st) by (apply handleSubmit_complete; eauto).
  unfold handleSubmit in E.
  destruct (_ || _ || _); [discriminate|].
  destruct (existsb _ _); [discriminate|].
  injection E as <-. exact Hc.
Qed.

Lemma run_submitted_valid evs : forall st,
  Forall valid (submitted (fst (run st evs))).
Proof.
  induction evs as [|ev evs IH]; intros st; simpl; [constructor|].
  destruct (step st ev) as [out st'] eqn:Hstep.
  specialize (IH st'). destruct (run st' evs) as [outs st''].
  simpl in *.
  destruct out as [[text|d]|]; simpl; try exact IH.
  constructor; [|exact IH].
  destruct ev; simpl in Hstep; try discriminate.
  pose proof (handleSubmit_valid st) as Hv.
  destruct (handleSubmit st) as [o s]. simpl in Hv.
  inversion Hstep; subst. exact Hv.
Qed.

End ValidityFacts.

(** X10: the form hands a receipt to [onSubmit] exactly when no customer
    field is empty, every item has a name and no price compares as at most
    0; otherwise it alerts.  So every receipt it hands over, from any state
    and after any sequence of user events, has its customer name, email and
    date filled in and only named items whose price is not at most 0.  The
    quantity of an item is not looked at. *)
Theorem submitted_receipts_are_valid (st : ReceiptForm.State)
    (evs : list ReceiptForm.Event) :
  ((exists d, fst (ReceiptForm.handleSubmit st) = ReceiptForm.OnSubmit d)
   <-> Validity.complete st)
  /\ ((exists text, fst (ReceiptForm.handleSubmit st) = ReceiptForm.Alert text)
      <-> ~ Validity.complete st)
  /\ Forall Validity.valid (ReceiptForm.submitted (fst (ReceiptForm.run st evs))).
Proof.
  split; [apply ValidityFacts.handleSubmit_complete|].
  split; [|apply ValidityFacts.run_submitted_valid].
  rewrite <- ValidityFacts.handleSubmit_complete.
  destruct (fst (ReceiptForm.handleSubmit st)) as [text|d].
  - split; [intros _ [d H]; discriminate|eauto].
  - split; [intros [text H]; discriminate|]. intros H. exfalso. apply H. eauto.
Qed.

(** A price that is not a number is not at most 0, and a quantity of 0 is
    not looked at: such an item goes through. *)
Example unpriced_item_goes_through :
  let item := {| ReceiptForm.id := 1; ReceiptForm.name := "Pen";
                 ReceiptForm.quantity := 0; ReceiptForm.price := nan |} in
  exists d,
    fst (ReceiptForm.handleSubmit
           {| ReceiptForm.customerName := "Ann";
              ReceiptForm.customerEmail := "ann@example.com";
              ReceiptForm.transactionDate := "2024-05-01";
              ReceiptForm.items := [item];
              ReceiptForm.taxRate := 10; ReceiptForm.nextId := 2 |})
    = ReceiptForm.OnSubmit d
    /\ ReceiptForm.r_items d = [item].
Proof. eexists. split; vm_compute; reflexivity. Qed.

(** ** The ids of the items *)

Module IdFacts.
Import ReceiptForm Items ItemsInvariant.

Lemma filter_drops_one i l :
  List.NoDup (List.map id l) -> In i (List.map id l) ->
  S (length (List.filter (keeps i) l)) = length l.
Proof.
  induction l as [|item l IH]; simpl; intros Hnd Hin; [contradiction|].
  apply List.NoDup_cons_iff in Hnd as [Hfresh Hnd].
  unfold keeps at 1.
  destruct (N.eqb_spec (id item) i) as [E|E]; simpl.
  - subst i. rewrite keeps_all by exact Hfresh. reflexivity.
  - destruct Hin as [Hin|Hin]; [contradiction|].
    rewrite (IH Hnd Hin). reflexivity.
Qed.

Lemma filter_drops_id i l : ~ In i (List.map id (List.filter (keeps i) l)).
Proof.
  intros Hin. apply in_map_iff in Hin as (item & E & Hin).
  apply filter_In in Hin as [_ Hk]. unfold keeps in Hk.
  apply negb_true_iff, N.eqb_neq in Hk. contradiction.
Qed.

Lemma set_items_same st : set_items (items st) st = st.
Proof. destruct st; reflexivity. Qed.

Lemma handleSubmit_distinct st :
  Inv st ->
  match fst (handleSubmit st) with
  | OnSubmit d => List.NoDup (List.map id (r_items d))
  | Alert _ => True
  end.
Proof.
  intros [_ Hnd _]. pose proof (handleSubmit_items st) as H.
  destruct (fst (handleSubmit st)) as [text|d]; [exact I|].
  rewrite H. exact Hnd.
Qed.

Lemma run_submitted_distinct evs : forall st,
  Inv st ->
  Forall (fun d => List.NoDup (List.map id (r_items d))) (submitted (fst (run st evs))).
Proof.
  induction evs as [|ev evs IH]; intros st H; simpl; [constructor|].
  pose proof (Inv_step st ev H) as H'.
  destruct (step st ev) as [out st'] eqn:Hstep. simpl in H'.
  specialize (IH st' H'). destruct (run st' evs) as [outs st'']. simpl in *.
  destruct out as [[text|d]|]; simpl; try exact IH.
  constructor; [|exact IH].
  destruct ev; simpl in Hstep; try discriminate.
  pose proof (handleSubmit_distinct st H) as Hd.
  destruct (handleSubmit st) as [o s]. simpl in Hd.
  inversion Hstep; subst. exact Hd.
Qed.

Lemma update_absent i fv l :
  ~ In i (List.map id l) ->
  List.map (fun item => if (id item =? i)%N then with_field item fv else item) l = l.
Proof.
  induction l as [|item l IH]; simpl; intros Hn; [reflexivity|].
  destruct (N.eqb_spec (id item) i) as [E|E].
  - exfalso. apply Hn. left. exact E.
  - f_equal. apply IH. intros Hin. apply Hn. right. exact Hin.
Qed.

Lemma fold_left_renamed i text l : forall acc,
  fold_left (fun sum item => (sum + quantity item * price item)%float)
    (List.map (fun item => if (id item =? i)%N
                           then with_field item (name_value text) else item) l) acc
  = fold_left (fun sum item => (sum + quantity item * price item)%float) l acc.
Proof.
  induction l as [|item l IH]; intros acc; simpl; [reflexivity|].
  rewrite IH. destruct (id item =? i)%N; reflexivity.
Qed.

End IdFacts.

(** X11: the ids of the items are what tells them apart.  After any
    sequence of user events the ids of the items are pairwise distinct and
    below the id the next added item gets, and so are the ids of the items
    of every receipt handed over.  Hence removing the id of an item, when
    there is more than one item, removes that item and no other, and
    removing an id that no item has changes nothing. *)
Theorem item_ids_are_distinct (evs : list ReceiptForm.Event) (i : N) :
  let st := snd (ReceiptForm.run ReceiptForm.initial evs) in
  let ids := List.map ReceiptForm.id (ReceiptForm.items st) in
  let removed := ReceiptForm.handleRemoveItem i st in
  List.NoDup ids
  /\ Forall (fun k => (k < ReceiptForm.nextId st)%N) ids
  /\ Forall (fun d => List.NoDup (List.map ReceiptForm.id (ReceiptForm.r_items d)))
       (ReceiptForm.submitted (fst (ReceiptForm.run ReceiptForm.initial evs)))
  /\ (In i ids -> (1 < length ids)%nat ->
      S (length (ReceiptForm.items removed)) = length ids
      /\ ~ In i (List.map ReceiptForm.id (ReceiptForm.items removed))
      /\ forall item, In item (ReceiptForm.items st) -> ReceiptForm.id item <> i ->
                      In item (ReceiptForm.items removed))
  /\ (~ In i ids -> removed = st).
Proof.
  cbv zeta.
  destruct (ItemsInvariant.Inv_run evs _ ItemsInvariant.Inv_initial) as [[Hne Hnd Hlt] _].
  pose proof (IdFacts.run_submitted_distinct evs _ ItemsInvariant.Inv_initial) as Hsub.
  set (st := snd (ReceiptForm.run ReceiptForm.initial evs)) in *.
  split; [exact Hnd|].
  split; [apply List.Forall_map; exact Hlt|].
  split; [exact Hsub|].
  split.
  - intros Hin Hlen. rewrite length_map in Hlen.
    unfold ReceiptForm.handleRemoveItem.
    apply Nat.ltb_lt in Hlen. rewrite Hlen. cbn [ReceiptForm.set_items ReceiptForm.items].
    fold (Items.keeps i). rewrite length_map.
    split; [apply IdFacts.filter_drops_one; assumption|].
    split; [apply IdFacts.filter_drops_id|].
    intros item Hitem Hid. apply filter_In. split; [exact Hitem|].
    unfold Items.keeps. apply negb_true_iff, N.eqb_neq. exact Hid.
  - intros Hn. unfold ReceiptForm.handleRemoveItem.
    destruct (1 <? length (ReceiptForm.items st))%nat; [|reflexivity].
    fold (Items.keeps i). rewrite ItemsInvariant.keeps_all by exact Hn.
    apply IdFacts.set_items_same.
Qed.

(** X12: adding an item and removing it again gives back the item list:
    after any sequence of user events, [handleAddItem] followed by
    [handleRemoveItem] on the id just given leaves the items, and with them
    the totals, as they were.  The id is not given again: the counter stays
    one up. *)
Theorem add_then_remove (evs : list ReceiptForm.Event) :
  let st := snd (ReceiptForm.run ReceiptForm.initial evs) in
  let added := ReceiptForm.handleAddItem st in
  let back := ReceiptForm.handleRemoveItem (ReceiptForm.nextId st) added in
  ReceiptForm.items added
  = ReceiptForm.items st ++ [ReceiptForm.blank_item (ReceiptForm.nextId st)]
  /\ ReceiptForm.items back = ReceiptForm.items st
  /\ ReceiptForm.subtotal back = ReceiptForm.subtotal st
  /\ ReceiptForm.total back = ReceiptForm.total st
  /\ ReceiptForm.nextId back = (ReceiptForm.nextId st + 1)%N.
Proof.
  cbv zeta.
  destruct (ItemsInvariant.Inv_run evs _ ItemsInvariant.Inv_initial) as [[Hne Hnd Hlt] _].
  set (st := snd (ReceiptForm.run ReceiptForm.initial evs)) in *.
  assert (Hitems : ReceiptForm.items
                     (ReceiptForm.handleRemoveItem (ReceiptForm.nextId st)
                        (ReceiptForm.handleAddItem st))
                   = ReceiptForm.items st).
  { unfold ReceiptForm.handleRemoveItem. cbn [ReceiptForm.handleAddItem ReceiptForm.items].
    rewrite length_app. cbn [length].
    destruct (ReceiptForm.items st) as [|item l] eqn:El; [congruence|].
    replace (1 <? length (item :: l) + 1)%nat with true
      by (symmetry; apply Nat.ltb_lt; simpl; lia).
    cbn [ReceiptForm.set_items ReceiptForm.items].
    fold (Items.keeps (ReceiptForm.nextId st)).
    rewrite List.filter_app.
    change (List.filter (Items.keeps (ReceiptForm.nextId st))
              [ReceiptForm.blank_item (ReceiptForm.nextId st)])
      with (if negb (ReceiptForm.nextId st =? ReceiptForm.nextId st)%N
            then [ReceiptForm.blank_item (ReceiptForm.nextId st)] else []).
    rewrite N.eqb_refl. cbn [negb]. rewrite app_nil_r.
    apply ItemsInvariant.keeps_all. intros Hin.
    apply in_map_iff in Hin as (x & Ex & Hx).
    rewrite List.Forall_forall in Hlt. specialize (Hlt x Hx). lia. }
  assert (Hrate : ReceiptForm.taxRate
                    (ReceiptForm.handleRemoveItem (ReceiptForm.nextId st)
                       (ReceiptForm.handleAddItem st))
                  = ReceiptForm.taxRate st).
  { unfold ReceiptForm.handleRemoveItem. destruct (_ <? _)%nat; reflexivity. }
  assert (Hsub : ReceiptForm.subtotal
                   (ReceiptForm.handleRemoveItem (ReceiptForm.nextId st)
                      (ReceiptForm.handleAddItem st))
                 = ReceiptForm.subtotal st).
  { unfold ReceiptForm.subtotal. rewrite Hitems. reflexivity. }
  split; [reflexivity|]. split; [exact Hitems|]. split; [exact Hsub|].
  split.
  - unfold ReceiptForm.total, ReceiptForm.tax. rewrite Hsub, Hrate. reflexivity.
  - unfold ReceiptForm.handleRemoveItem. destruct (_ <? _)%nat; reflexivity.
Qed.

(** X13: [handleUpdateItem] rewrites items in place.  It keeps the number,
    the order and the ids of the items, the customer fields, the tax rate
    and the id counter; it changes nothing when no item has the id; and
    editing a name leaves subtotal, tax and total as they were. *)
Theorem update_item_in_place (i : N) (fv : ReceiptForm.FieldValue) (text : string)
    (st : ReceiptForm.State) :
  let updated := ReceiptForm.handleUpdateItem i fv st in
  let renamed := ReceiptForm.handleUpdateItem i (ReceiptForm.name_value text) st in
  List.map ReceiptForm.id (ReceiptForm.items updated)
  = List.map ReceiptForm.id (ReceiptForm.items st)
  /\ length (ReceiptForm.items updated) = length (ReceiptForm.items st)
  /\ ReceiptForm.set_items (ReceiptForm.items st) updated = st
  /\ (~ In i (List.map ReceiptForm.id (ReceiptForm.items st)) -> updated = st)
  /\ (forall item, In item (ReceiptForm.items st) -> ReceiptForm.id item <> i ->
                   In item (ReceiptForm.items updated))
  /\ ReceiptForm.subtotal renamed = ReceiptForm.subtotal st
  /\ ReceiptForm.tax renamed = ReceiptForm.tax st
  /\ ReceiptForm.total renamed = ReceiptForm.total st.
Proof.
  cbv zeta.
  assert (Hsub : ReceiptForm.subtotal
                   (ReceiptForm.handleUpdateItem i (ReceiptForm.name_value text) st)
                 = ReceiptForm.subtotal st)
    by apply IdFacts.fold_left_renamed.
  split; [apply ItemsInvariant.update_keeps_ids|].
  split; [apply length_map|].
  split; [destruct st; reflexivity|].
  split.
  { intros Hn. unfold ReceiptForm.handleUpdateItem.
    rewrite IdFacts.update_absent by exact Hn. apply IdFacts.set_items_same. }
  split.
  { intros item Hin Hid. cbn [ReceiptForm.handleUpdateItem ReceiptForm.set_items ReceiptForm.items].
    apply in_map_iff. exists item. split; [|exact Hin].
    apply N.eqb_neq in Hid. rewrite Hid. reflexivity. }
  split; [exact Hsub|].
  unfold ReceiptForm.total, ReceiptForm.tax. rewrite Hsub. split; reflexivity.
Qed.

Module HandlerFacts.
Import Dashboard Console.

Lemma loadReceipts_spec (st : State) (w : World) :
  loadReceipts (st, w)
  = let call := receiptsAPI.getAll (Some 1%float) (Some 20%float) None None w in
    (Ret tt,
     match fst call with
     | Ret response =>
         if res_ok response then
           match Js.get (res_data response) "receipts" with
           | Ret list =>
               if Js.truthy list
               then (fst (snd (setReceipts list (st, w))), snd call)
               else (st, snd call)
           | Throw e => (st, logged "Failed to load receipts:" e (snd call))
           end
         else (st, snd call)
     | Throw e => (st, logged "Failed to load receipts:" e (snd call))
     end).
Proof.
  cbv zeta. unfold loadReceipts, try_catch, bind at 1, api. cbn [fst snd].
  destruct (receiptsAPI.getAll _ _ _ _ w) as [[response|e] w1]; cbn [fst snd];
    [|reflexivity].
  destruct (res_ok response); [|reflexivity].
  unfold bind, lift.
  destruct (Js.get (res_data response) "receipts") as [list|e]; [|reflexivity].
  destruct (Js.truthy list); reflexivity.
Qed.

Lemma checkNotificationConfig_spec (st : State) (w : World) :
  checkNotificationConfig (st, w)
  = let call := notificationsAPI.getConfig w in
    match fst call with
    | Ret response =>
        if res_ok response then
          match Js.get (res_data response) "email" with
          | Ret email =>
              let sms := Js.get_opt (res_data response) "sms" in
              (Ret (if Js.truthy (Js.get_opt email "configured") then None
                    else if Js.truthy (Js.get_opt sms "configured")
                    then Some (config_warning "Email service is not configured. Only SMS will be sent if phone number is available.")
                    else Some (config_error "Email and SMS services are not configured. Please configure at least one service in your backend environment variables.")),
               (st, snd call))
          | Throw e =>
              (Ret None,
               (st, logged "Failed to check notification config:" e (snd call)))
          end
        else (Ret None, (st, snd call))
    | Throw e =>
        (Ret None, (st, logged "Failed to check notification config:" e (snd call)))
    end.
Proof.
  cbv zeta. unfold checkNotificationConfig, try_catch, bind at 1, api. cbn [fst snd].
  destruct (notificationsAPI.getConfig w) as [[response|e] w1]; cbn [fst snd];
    [|reflexivity].
  destruct (res_ok response); [|reflexivity].
  unfold bind at 1, lift at 1.
  destruct (Js.get (res_data response) "email") as [email|e] eqn:Eemail; [|reflexivity].
  unfold bind at 1, lift at 1.
  rewrite (AuthFacts.get_returns_alike _ _ "sms" _ Eemail).
  destruct (Js.truthy (Js.get_opt email "configured"));
    destruct (Js.truthy (Js.get_opt (Js.get_opt (res_data response) "sms") "configured"));
    reflexivity.
Qed.

(** The request log only grows over a computation, so the requests before
    it are a prefix of those after it. *)
Lemma getAll_first w :
  exists rest,
    requests (snd (receiptsAPI.getAll (Some 1%float) (Some 20%float) None None w))
    = requests w
      ++ Wire.original "/receipts?page=1&per_page=20" no_options w :: rest.
Proof.
  pose proof (SendFacts.perform_requests
                (Calls.receipts_getAll (Some 1%float) (Some 20%float) None None) w) as H.
  cbn [Calls.perform CallTable.options] in H.
  replace (CallTable.endpoint
             (Calls.receipts_getAll (Some 1%float) (Some 20%float) None None))
    with "/receipts?page=1&per_page=20" in H by (vm_compute; reflexivity).
  pose proof (SendFacts.issued_head "/receipts?page=1&per_page=20" no_options w) as Hh.
  destruct (CallTable.issued _ _ w) as [|o rest]; [discriminate|].
  injection Hh as ->. exists rest. exact H.
Qed.

Lemma loadReceipts_requests (st : State) (w : World) :
  exists rest,
    requests (snd (snd (loadReceipts (st, w))))
    = requests w
      ++ Wire.original "/receipts?page=1&per_page=20" no_options w :: rest.
Proof.
  destruct (getAll_first w) as [rest Hfirst]. exists rest.
  rewrite loadReceipts_spec. cbv zeta. cbn [snd].
  destruct (receiptsAPI.getAll _ _ _ _ w) as [[response|e] w1]; cbn [fst snd] in *;
    [|exact Hfirst].
  destruct (res_ok response); [|exact Hfirst].
  destruct (Js.get (res_data response) "receipts") as [list|e]; [|exact Hfirst].
  destruct (Js.truthy list); exact Hfirst.
Qed.

(** [handleSendReceipt] on a receipt, from the outcome of its [try]
    block up to [sendMessage]. *)
Lemma handleSendReceipt_spec (st : State) (w : World) (fd : FormData) :
  formData st = Some fd ->
  formData_truthy fd = true ->
  let started := snd ((setIsSending true >> setToastMessage "") (st, w)) in
  let attempt := create_and_send fd started in
  handleSendReceipt (st, w)
  = (Ret tt,
     match fst attempt with
     | Ret sendMessage =>
         let shown :=
           {| receipts := receipts st; formData := Some fd;
              showPreview := showPreview st; toastMessage := sendMessage;
              isSending := true; toastTimers := S (toastTimers st) |} in
         let loaded := snd (loadReceipts (shown, snd (snd attempt))) in
         ({| receipts := receipts (fst loaded); formData := None;
             showPreview := false; toastMessage := sendMessage;
             isSending := false; toastTimers := S (toastTimers st) |},
          snd loaded)
     | Throw error =>
         ({| receipts := receipts st; formData := Some fd;
             showPreview := showPreview st;
             toastMessage :=
               cross_mark +:+ " Error: "
               +:+ (if Js.nonempty (exn_message error)
                    then exn_message error
                    else "Failed to send receipt");
             isSending := false; toastTimers := S (toastTimers st) |},
          logged "Error sending receipt:" error (snd (snd attempt)))
     end).
Proof.
  intros Hfd Htruthy started attempt.
  unfold handleSendReceipt, bind at 1, get_state. cbn [fst snd].
  rewrite Hfd, Htruthy. cbn [negb].
  unfold bind at 1, setIsSending at 1, modify at 1. cbn [fst snd].
  unfold bind at 1, setToastMessage at 1, modify at 1. cbn [fst snd].
  match goal with
  | |- finally _ _ ?s0 = _ => change s0 with started
  end.
  unfold finally, try_catch, bind at 1. fold attempt.
  pose proof (LogFacts.same_view_create_and_send fd started) as Hview.
  unfold Log.same_view in Hview. fold attempt in Hview.
  destruct attempt as [[sendMessage|error] [st1 w1]]; cbn [fst snd] in *; subst st1.
  - unfold bind at 1, setToastMessage at 1, modify at 1. cbn [fst snd].
    unfold bind at 1, clear_toast_later at 1, modify at 1. cbn [fst snd].
    unfold bind at 1. cbv zeta. subst started.
    cbv [bind setIsSending setToastMessage setShowPreview setFormData modify].
    cbn [fst snd receipts formData showPreview toastMessage isSending toastTimers].
    rewrite ?Hfd.
    set (shown := {| receipts := receipts st; formData := Some fd;
                     showPreview := showPreview st; toastMessage := sendMessage;
                     isSending := true; toastTimers := S (toastTimers st) |}).
    destruct (DashboardFacts.loadReceipts_keeps shown w1) as (v & w' & Hload).
    rewrite Hload. reflexivity.
  - subst started.
    cbv [bind setIsSending setToastMessage clear_toast_later console_error api modify].
    cbn [fst snd receipts formData showPreview toastMessage isSending toastTimers].
    rewrite ?Hfd. reflexivity.
Qed.

End HandlerFacts.

(** X14: [loadReceipts] never throws and changes nothing of the dashboard
    but the receipt list.  It asks for the first page of twenty receipts;
    the list is replaced exactly when the answer is ok and carries a truthy
    [receipts], whatever that value is; an answer that is not ok is passed
    over in silence, and a call that throws, or an ok answer whose body is
    [null], leaves the list as it was and logs the error to the console. *)
Theorem receipts_are_loaded (st : Dashboard.State) (w : World) :
  let call := receiptsAPI.getAll (Some 1%float) (Some 20%float) None None w in
  let outcome := Dashboard.loadReceipts (st, w) in
  let after := fst (snd outcome) in
  let browser := snd (snd outcome) in
  let kept := Dashboard.receipts after = Dashboard.receipts st in
  let silent := browser = snd call in
  let logged := fun e =>
    browser = snd (log (ConsoleError "Failed to load receipts:" e) (snd call)) in
  fst outcome = Ret tt
  /\ after = fst (snd (Dashboard.setReceipts (Dashboard.receipts after) (st, w)))
  /\ requests browser = requests (snd call)
  /\ localStorage browser = localStorage (snd call)
  /\ (exists (first : Request) (rest : list Request),
        requests browser = requests w ++ first :: rest
        /\ url first = API_BASE_URL w +:+ "/receipts?page=1&per_page=20"
        /\ method first = None
        /\ body first = None)
  /\ match fst call with
     | Ret response =>
         if res_ok response then
           match Js.get (res_data response) "receipts" with
           | Ret list =>
               silent
               /\ if Js.truthy list then Dashboard.receipts after = list else kept
           | Throw e => kept /\ logged e
           end
         else kept /\ silent
     | Throw e => kept /\ logged e
     end.
Proof.
  cbv zeta. rewrite HandlerFacts.loadReceipts_spec. cbv zeta.
  destruct (HandlerFacts.getAll_first w) as [rest Hfirst].
  assert (Hreq : exists (first : Request) (rest : list Request),
             requests (snd (receiptsAPI.getAll (Some 1%float) (Some 20%float) None None w))
             = requests w ++ first :: rest
             /\ url first = API_BASE_URL w +:+ "/receipts?page=1&per_page=20"
             /\ method first = None
             /\ body first = None).
  { eexists _, rest. split; [exact Hfirst|]. repeat split. }
  cbn [fst snd].
  destruct (receiptsAPI.getAll _ _ _ _ w) as [[response|e] w1]; cbn [fst snd] in *.
  - destruct (res_ok response).
    + destruct (Js.get (res_data response) "receipts") as [list|e].
      * destruct (Js.truthy list); cbn [fst snd]; repeat split;
          try exact Hreq; destruct st; reflexivity.
      * cbn [fst snd]. repeat split; try exact Hreq; destruct st; reflexivity.
    + cbn [fst snd]. repeat split; try exact Hreq; destruct st; reflexivity.
  - repeat split; try exact Hreq; destruct st; reflexivity.
Qed.

(** X15: the notification check before a send never throws, leaves the
    dashboard state as it is, and fails open.  It reports an error only when
    the ok answer of the config endpoint says that neither email nor SMS is
    configured, and a warning only when it says that email is not and SMS
    is; an answer that is not ok gives [null] in silence, and a call that
    throws, or an ok answer whose body is [null], gives [null] after logging
    the error: the send then goes ahead unchecked. *)
Theorem config_check_fails_open (st : Dashboard.State) (w : World) :
  let call := notificationsAPI.getConfig w in
  let outcome := Dashboard.checkNotificationConfig (st, w) in
  let browser := snd (snd outcome) in
  let silent := browser = snd call in
  let logged := fun e =>
    browser
    = snd (log (ConsoleError "Failed to check notification config:" e) (snd call)) in
  fst (snd outcome) = st
  /\ requests browser = requests (snd call)
  /\ localStorage browser = localStorage (snd call)
  /\ match fst call with
     | Ret response =>
         if res_ok response then
           match Js.get (res_data response) "email" with
           | Ret email =>
               let configured := fun service =>
                 Js.truthy (Js.get_opt (Js.get_opt (res_data response) service)
                                       "configured") in
               silent
               /\ match fst outcome with
                  | Ret (Some (Dashboard.config_error _)) =>
                      configured "email" = false /\ configured "sms" = false
                  | Ret (Some (Dashboard.config_warning _)) =>
                      configured "email" = false /\ configured "sms" = true
                  | Ret None => configured "email" = true
                  | Throw _ => False
                  end
           | Throw e => fst outcome = Ret None /\ logged e
           end
         else fst outcome = Ret None /\ silent
     | Throw e => fst outcome = Ret None /\ logged e
     end.
Proof.
  cbv zeta. rewrite HandlerFacts.checkNotificationConfig_spec. cbv zeta.
  destruct (notificationsAPI.getConfig w) as [[response|e] w1]; cbn [fst snd];
    [|repeat split].
  destruct (res_ok response); [|repeat split].
  destruct (Js.get (res_data response) "email") as [email|e] eqn:Eemail;
    [|repeat split].
  apply AuthFacts.get_get_opt in Eemail. rewrite Eemail. cbn [fst snd].
  destruct (Js.truthy (Js.get_opt email "configured"));
    destruct (Js.truthy (Js.get_opt (Js.get_opt (res_data response) "sms") "configured"));
    repeat split.
Qed.

(** X16: [handleSendReceipt] never throws and always ends with [isSending]
    off.  With no receipt in [formData] it does nothing.  With one, it
    schedules one clearing of the toast and shows either the message of the
    send, closing the preview, dropping the receipt and then reloading the
    receipt list from the backend, or the error that ended the attempt, in
    which case the error is logged, nothing more is requested, the preview
    stays open on the same receipt and the receipt list is as it was. *)
Theorem send_receipt_outcome (st : Dashboard.State) (w : World) :
  let outcome := Dashboard.handleSendReceipt (st, w) in
  let after := fst (snd outcome) in
  fst outcome = Ret tt
  /\ match Dashboard.formData st with
     | Some fd =>
         if Dashboard.formData_truthy fd then
           let started :=
             snd ((Dashboard.setIsSending true >> Dashboard.setToastMessage "") (st, w)) in
           let attempt := Dashboard.create_and_send fd started in
           Dashboard.isSending after = false
           /\ Dashboard.toastTimers after = S (Dashboard.toastTimers st)
           /\ match fst attempt with
              | Ret sendMessage =>
                  Dashboard.toastMessage after = sendMessage
                  /\ Dashboard.showPreview after = false
                  /\ Dashboard.formData after = None
                  /\ exists (first : Request) (rest : list Request),
                       requests (snd (snd outcome))
                       = requests (snd (snd attempt)) ++ first :: rest
                       /\ url first
                          = API_BASE_URL (snd (snd attempt))
                            +:+ "/receipts?page=1&per_page=20"
                       /\ method first = None
              | Throw error =>
                  Dashboard.toastMessage after
                  = Dashboard.cross_mark +:+ " Error: "
                    +:+ (if Js.nonempty (exn_message error)
                         then exn_message error
                         else "Failed to send receipt")
                  /\ Dashboard.showPreview after = Dashboard.showPreview st
                  /\ Dashboard.formData after = Some fd
                  /\ Dashboard.receipts after = Dashboard.receipts st
                  /\ requests (snd (snd outcome)) = requests (snd (snd attempt))
                  /\ console (snd (snd outcome))
                     = console (snd (snd attempt))
                       ++ [ConsoleError "Error sending receipt:" error]
              end
         else snd outcome = (st, w)
     | None => snd outcome = (st, w)
     end.
Proof.
  cbv zeta. destruct (Dashboard.formData st) as [fd|] eqn:Hfd.
  2: { unfold Dashboard.handleSendReceipt, bind, Dashboard.get_state. cbn [fst snd].
       rewrite Hfd. split; reflexivity. }
  destruct (Dashboard.formData_truthy fd) eqn:Htruthy.
  2: { unfold Dashboard.handleSendReceipt, bind, Dashboard.get_state. cbn [fst snd].
       rewrite Hfd, Htruthy. split; reflexivity. }
  rewrite (HandlerFacts.handleSendReceipt_spec st w fd Hfd Htruthy). cbv zeta.
  cbn [fst snd].
  destruct (Dashboard.create_and_send fd _) as [[sendMessage|error] [st1 w1]];
    cbn [fst snd]; [|repeat split].
  match goal with
  | |- context [Dashboard.loadReceipts (?shown, w1)] =>
      destruct (HandlerFacts.loadReceipts_requests shown w1) as [rest Hrest]
  end.
  repeat split. eexists _, rest. split; [exact Hrest|]. split; reflexivity.
Qed.

(** ** The dashboard handlers *)

Module ChannelFacts.
Import Log LogFacts Channels CallFacts.

#[global] Instance without_sms_preorder {S} `{HasWorld S} :
  PreOrder (without_sms (S := S)).
Proof.
  split.
  - intros s. split; [reflexivity|]. exists []. rewrite app_nil_r.
    split; [reflexivity|constructor].
  - intros s1 s2 s3 [Hb1 (l1 & H1 & F1)] [Hb2 (l2 & H2 & F2)].
    split; [congruence|]. exists (l1 ++ l2).
    split; [rewrite H2, H1, app_assoc; reflexivity|].
    apply List.Forall_app. split; [exact F1|].
    rewrite Hb1 in F2. exact F2.
Qed.

Lemma prefix_append a b c : String.prefix (a +:+ b) (a +:+ c) = String.prefix b c.
Proof.
  induction a as [|x a IH]; [reflexivity|].
  rewrite !append_cons. cbn [String.prefix].
  destruct (ascii_dec x x); [exact IH|congruence].
Qed.

(** A request to a plain endpoint, or to the refresh endpoint, is none of
    the SMS channel. *)
Lemma plain_not_sms base endpoint r :
  plain endpoint = true ->
  url r = base +:+ endpoint \/ url r = base +:+ "/auth/refresh" ->
  sms base r = false.
Proof.
  unfold plain, sms. intros Hp [-> | ->]; rewrite !prefix_append.
  - apply andb_prop in Hp as [H1 H2].
    apply negb_true_iff in H1, H2. rewrite H1, H2. reflexivity.
  - reflexivity.
Qed.

Lemma issued_urls e o w :
  Forall (fun r => url r = API_BASE_URL w +:+ e \/ url r = API_BASE_URL w +:+ "/auth/refresh")
         (CallTable.issued e o w).
Proof.
  unfold CallTable.issued. cbv zeta.
  assert (Ho : url (Wire.original e o w) = API_BASE_URL w +:+ e) by reflexivity.
  assert (Hq : forall t, url (Wire.retry e o w t) = API_BASE_URL w +:+ e) by reflexivity.
  assert (Hf : forall t, url (Wire.refresh w t) = API_BASE_URL w +:+ "/auth/refresh")
    by reflexivity.
  destruct (network w (requests w) _) as [r|x]; [|repeat constructor; exact Ho].
  destruct (status r =? 401)%N; [|repeat constructor; exact Ho].
  destruct (Wire.stored_refresh_token w) as [tok|]; [|repeat constructor; exact Ho].
  destruct (Wire.refreshed_token _) as [t|].
  - constructor; [left; exact Ho|]. constructor; [right; apply Hf|].
    constructor; [left; apply Hq|constructor].
  - constructor; [left; exact Ho|]. constructor; [right; apply Hf|constructor].
Qed.

Lemma without_sms_perform c :
  plain (CallTable.endpoint c) = true -> respects without_sms (Calls.perform c).
Proof.
  intros Hp w. split; [apply SendFacts.perform_base|].
  exists (CallTable.issued (CallTable.endpoint c) (CallTable.options c) w).
  split; [apply SendFacts.perform_requests|].
  eapply List.Forall_impl; [|apply issued_urls].
  intros r. apply plain_not_sms. exact Hp.
Qed.

Lemma without_sms_log entry : respects without_sms (log entry).
Proof.
  intros w. split; [reflexivity|]. exists []. simpl. rewrite app_nil_r.
  split; [reflexivity|constructor].
Qed.

Lemma without_sms_api {A} (m : M A) :
  respects without_sms m -> respects without_sms (Dashboard.api m).
Proof.
  intros Hm [st w]. unfold Dashboard.api. simpl. specialize (Hm w).
  destruct (m w) as [r w']. exact Hm.
Qed.

Lemma without_sms_modify f : respects without_sms (Dashboard.modify f).
Proof.
  intros s. split; [reflexivity|]. exists []. simpl. rewrite app_nil_r.
  split; [reflexivity|constructor].
Qed.

(** What the handlers are made of stays off the SMS channel: the API
    calls they make but for the two SMS ones, the console, and the state
    setters. *)
Lemma without_sms_parts :
  (forall A (m : M A), respects without_sms m -> respects without_sms (Dashboard.api m))
  /\ respects without_sms notificationsAPI.getConfig
  /\ (forall d, respects without_sms (receiptsAPI.create d))
  /\ (forall id email, respects without_sms (notificationsAPI.sendEmail id email))
  /\ (forall page perPage search status,
        respects without_sms (receiptsAPI.getAll page perPage search status))
  /\ (forall entry, respects without_sms (log entry))
  /\ (forall label e, respects without_sms (Dashboard.console_error label e))
  /\ (forall v, respects without_sms (Dashboard.setReceipts v))
  /\ (forall v, respects without_sms (Dashboard.setFormData v))
  /\ (forall b, respects without_sms (Dashboard.setShowPreview b))
  /\ (forall t, respects without_sms (Dashboard.setToastMessage t))
  /\ (forall b, respects without_sms (Dashboard.setIsSending b))
  /\ respects without_sms Dashboard.clear_toast_later.
Proof.
  split; [intros A m; apply without_sms_api|].
  split; [apply (without_sms_perform Calls.notifications_getConfig); reflexivity|].
  split; [intros d; apply (without_sms_perform (Calls.receipts_create d)); reflexivity|].
  split.
  { intros id email.
    apply (without_sms_perform (Calls.notifications_sendEmail id email)).
    vm_compute. reflexivity. }
  split.
  { intros page perPage search status.
    apply (without_sms_perform (Calls.receipts_getAll page perPage search status)).
    reflexivity. }
  split; [apply without_sms_log|].
  split.
  { intros label e. unfold Dashboard.console_error.
    apply without_sms_api, without_sms_log. }
  repeat split; intros; apply without_sms_modify.
Qed.

Lemma without_sms_loadReceipts : respects without_sms Dashboard.loadReceipts.
Proof.
  destruct without_sms_parts
    as (Hapi & Hconfig & Hcreate & Hemail & HgetAll & Hlog & Hconsole
        & HsetReceipts & HsetFormData & HsetShowPreview & HsetToast & HsetSending
        & Hlater).
  unfold Dashboard.loadReceipts. respects_by_parts.
Qed.

Lemma without_sms_checkNotificationConfig :
  respects without_sms Dashboard.checkNotificationConfig.
Proof.
  destruct without_sms_parts
    as (Hapi & Hconfig & Hcreate & Hemail & HgetAll & Hlog & Hconsole
        & HsetReceipts & HsetFormData & HsetShowPreview & HsetToast & HsetSending
        & Hlater).
  unfold Dashboard.checkNotificationConfig. respects_by_parts.
Qed.

Lemma without_sms_create_step fd : respects without_sms (Dashboard.create_step fd).
Proof.
  destruct without_sms_parts
    as (Hapi & Hconfig & Hcreate & Hemail & HgetAll & Hlog & Hconsole
        & HsetReceipts & HsetFormData & HsetShowPreview & HsetToast & HsetSending
        & Hlater).
  pose proof without_sms_checkNotificationConfig as Hcheck.
  unfold Dashboard.create_step. respects_by_parts.
Qed.

(** Without a phone the send step stays on the email channel. *)
Lemma without_sms_email_only id email :
  respects without_sms (Dashboard.send_step id email JNull).
Proof.
  destruct without_sms_parts
    as (Hapi & Hconfig & Hcreate & Hemail & HgetAll & Hlog & Hconsole
        & HsetReceipts & HsetFormData & HsetShowPreview & HsetToast & HsetSending
        & Hlater).
  unfold Dashboard.send_step. cbn [Js.truthy]. respects_by_parts.
Qed.

(** What [create_step] returns as [receiptData] is the object built from
    [formData]. *)
Lemma create_step_data fd s rd id s1 :
  Dashboard.create_step fd s = (Ret (rd, id), s1) ->
  Dashboard.receiptData_of fd = Ret rd.
Proof.
  unfold Dashboard.create_step, bind, lift, ret, throw.
  destruct (Dashboard.checkNotificationConfig s) as [[[[m|m]|]|e] s0]; try discriminate.
  - destruct (Dashboard.api (log (ConsoleWarn m)) s0) as [[[]|e] s2]; [|discriminate].
    destruct (Dashboard.receiptData_of fd) as [rd0|e]; [|discriminate].
    destruct (Dashboard.api (receiptsAPI.create rd0) s2) as [[resp|e] s3]; [|discriminate].
    destruct (negb (res_ok resp)).
    + destruct (Js.get (res_data resp) "error"); discriminate.
    + destruct (Js.get (res_data resp) "receipt") as [rc|e]; [|discriminate].
      destruct (negb (Js.truthy _)); [discriminate|]. congruence.
  - destruct (Dashboard.receiptData_of fd) as [rd0|e]; [|discriminate].
    destruct (Dashboard.api (receiptsAPI.create rd0) s0) as [[resp|e] s3]; [|discriminate].
    destruct (negb (res_ok resp)).
    + destruct (Js.get (res_data resp) "error"); discriminate.
    + destruct (Js.get (res_data resp) "receipt") as [rc|e]; [|discriminate].
      destruct (negb (Js.truthy _)); [discriminate|]. congruence.
Qed.

(** A receipt composed in the form is sent without a phone. *)
Lemma create_and_send_composed data number stamp status s :
  Dashboard.create_and_send (Dashboard.Composed data number stamp status) s
  = match Dashboard.create_step (Dashboard.Composed data number stamp status) s with
    | (Ret created, s1) =>
        Dashboard.send_step (snd created) (JStr (ReceiptForm.r_customerEmail data)) JNull s1
    | (Throw e, s1) => (Throw e, s1)
    end.
Proof.
  unfold Dashboard.create_and_send, bind at 1.
  destruct (Dashboard.create_step _ s) as [[[rd id]|e] s1] eqn:Hstep; [|reflexivity].
  apply create_step_data in Hstep.
  destruct (DashboardFacts.composed_has_no_phone data number stamp status)
    as (rd' & Hrd' & Hphone).
  rewrite Hrd' in Hstep. injection Hstep as ->.
  destruct (DashboardFacts.receiptData_phone _ _ Hrd') as (p & _ & _ & Hemail).
  cbn [fst snd]. unfold bind, lift. rewrite Hemail, Hphone. reflexivity.
Qed.

Lemma without_sms_create_and_send_composed data number stamp status :
  respects without_sms
    (Dashboard.create_and_send (Dashboard.Composed data number stamp status)).
Proof.
  intros s. rewrite create_and_send_composed.
  pose proof (without_sms_create_step (Dashboard.Composed data number stamp status) s)
    as Hstep.
  destruct (Dashboard.create_step _ s) as [[created|e] s1]; cbn [snd] in *;
    [|exact Hstep].
  etransitivity; [exact Hstep|]. apply without_sms_email_only.
Qed.

End ChannelFacts.

(** X17: a receipt composed in the form is never sent by SMS.  The form
    has no phone field, so the receipt data built when the previewed receipt
    is sent carries [customer_phone: null], the send step takes its
    email-only branch, and none of the requests [handleSendReceipt] issues
    goes to the send-both or the send-sms endpoint, whatever the network
    answers. *)
Theorem composed_receipt_is_emailed_only (now date : float) (data : ReceiptForm.Receipt)
    (s0 : Dashboard.State * World) :
  let s := snd (Dashboard.handleCreateReceipt now date data s0) in
  let added :=
    drop (length (requests (snd s0)))
         (requests (snd (snd (Dashboard.handleSendReceipt s)))) in
  (exists fd receiptData,
      Dashboard.formData (fst s) = Some fd
      /\ Dashboard.receiptData_of fd = Ret receiptData
      /\ Js.get receiptData "customer_phone" = Ret JNull)
  /\ requests (snd (snd (Dashboard.handleSendReceipt s))) = requests (snd s0) ++ added
  /\ Forall (fun r => Channels.sms (API_BASE_URL (snd s0)) r = false) added.
Proof.
  cbv zeta. destruct s0 as [st0 w0]. cbn [snd].
  set (fd := Dashboard.Composed data ("REC-" +:+ Number.toString now) date "Not Sent").
  split.
  { destruct (DashboardFacts.composed_has_no_phone
                data ("REC-" +:+ Number.toString now) date "Not Sent")
      as (rd & Hrd & Hphone).
    exists fd, rd. repeat split; assumption. }
  assert (Hsend : Log.respects Channels.without_sms
                    (Dashboard.setIsSending true >>
                     Dashboard.setToastMessage "" >>
                     finally
                       (try_catch
                          (let* sendMessage := Dashboard.create_and_send fd in
                           Dashboard.setToastMessage sendMessage >>
                           Dashboard.clear_toast_later >>
                           Dashboard.loadReceipts >>
                           Dashboard.setShowPreview false >>
                           Dashboard.setFormData None)
                          (fun error =>
                             Dashboard.console_error "Error sending receipt:" error >>
                             Dashboard.setToastMessage
                               (Dashboard.cross_mark +:+ " Error: "
                                +:+ (if Js.nonempty (exn_message error)
                                     then exn_message error
                                     else "Failed to send receipt")) >>
                             Dashboard.clear_toast_later))
                       (Dashboard.setIsSending false))).
  { pose proof (ChannelFacts.without_sms_create_and_send_composed
                  data ("REC-" +:+ Number.toString now) date "Not Sent") as Hcomposed.
    fold fd in Hcomposed.
    pose proof ChannelFacts.without_sms_loadReceipts as Hload.
    destruct ChannelFacts.without_sms_parts
      as (Hapi & Hconfig & Hcreate & Hemail & HgetAll & Hlog & Hconsole
          & HsetReceipts & HsetFormData & HsetShowPreview & HsetToast & HsetSending
          & Hlater).
    LogFacts.respects_by_parts. }
  match type of Hsend with
  | Log.respects _ ?m => set (body := m) in Hsend
  end.
  set (s := snd (Dashboard.handleCreateReceipt now date data (st0, w0))).
  assert (Hrun : Dashboard.handleSendReceipt s = body s) by reflexivity.
  rewrite Hrun. destruct (Hsend s) as [_ (l & Hl & Hforall)].
  change (requests (snd (snd (body s))) = requests w0 ++ l) in Hl.
  change (Forall (fun r => Channels.sms (API_BASE_URL w0) r = false) l) in Hforall.
  rewrite Hl, drop_app_length. split; [reflexivity|exact Hforall].
Qed.

(** ** The receipt card and the preview *)

Example toFixed_samples :
  List.map (NumberFormat.toFixed 2)
    [8.75; 1.005; 0; 2.5; 0.125; (-1.5); (-0.001); 1e21; 123456789.987; 0.005; 1e-7;
     999.995; 0.615; 10; (-0); infinity; nan; 1.45; 8.345; 1234.5678; 4.35; 0.045]%float
  = ["8.75"; "1.00"; "0.00"; "2.50"; "0.13"; "-1.50"; "-0.00"; "1e+21"; "123456789.99";
     "0.01"; "0.00"; "1000.00"; "0.61"; "10.00"; "0.00"; "Infinity"; "NaN"; "1.45"; "8.35";
     "1234.57"; "4.35"; "0.04"].
Proof. vm_compute. reflexivity. Qed.

Module CardFacts.
Import ReceiptCard.

Lemma truthy_or a b : Js.truthy (Js.or a b) = Js.truthy a || Js.truthy b.
Proof. unfold Js.or. destruct (Js.truthy a) eqn:E; [exact E|reflexivity]. Qed.

Lemma element_of receipt c :
  element receipt = Ret c ->
  status c = Js.or (Js.get_opt receipt "status") (JStr "created")
  /\ emailSent c = Js.or (Js.get_opt receipt "email_sent") (JBool false)
  /\ smsSent c = Js.or (Js.get_opt receipt "sms_sent") (JBool false)
  /\ check_icon c
     = (JsString.strict_eq (status c) "Sent"
        || JsString.strict_eq (status c) "email_sent"
        || JsString.strict_eq (status c) "sms_sent"
        || JsString.strict_eq (status c) "both_sent"
        || Js.truthy (emailSent c) || Js.truthy (smsSent c))
  /\ statusInfo c = getStatusInfo (status c) (emailSent c) (smsSent c)
  /\ total c = Js.or (Js.get_opt receipt "total") (JNum 0)
  /\ toFixed2 (total c) = Ret (total_text c)
  /\ children c
     = [Js.or (Js.get_opt receipt "receiptNumber")
              (Js.or (Js.get_opt receipt "receipt_number") (JStr "N/A"));
        Js.or (Js.get_opt receipt "customerName")
              (Js.or (Js.get_opt receipt "customer_name") (JStr "Unknown Customer"));
        Js.or (Js.get_opt receipt "transactionDate")
              (Js.or (Js.get_opt receipt "transaction_date") (JStr "N/A"))].
Proof.
  unfold element.
  destruct (Js.get receipt "receiptNumber") as [v|e]; [|discriminate].
  destruct (toFixed2 _) as [text|e] eqn:Etext; [|discriminate].
  intros H. injection H as <-.
  cbn [status emailSent smsSent statusInfo total total_text children
       receiptNumber customerName transactionDate].
  repeat split; try exact Etext. unfold check_icon. cbn [isSent].
  destruct (_ || _ || _ || _); [reflexivity|].
  rewrite truthy_or. reflexivity.
Qed.

(** The call throws for no receipt, and for a total that is not a
    Number. *)
Lemma element_throws receipt :
  (exists e, element receipt = Throw e)
  <-> receipt = JNull \/ receipt = JUndefined
      \/ forall x, Js.or (Js.get_opt receipt "total") (JNum 0) <> JNum x.
Proof.
  unfold element. split.
  - intros [e H].
    destruct (Js.get receipt "receiptNumber") as [v|e'] eqn:E.
    2: { destruct receipt; simpl in E; try discriminate; auto. }
    destruct (Js.or (Js.get_opt receipt "total") (JNum 0)); simpl in H;
      try discriminate; right; right; intros x0 Hx; discriminate.
  - intros [->|[->|H]]; [eexists; reflexivity|eexists; reflexivity|].
    destruct (Js.get receipt "receiptNumber") as [v|e']; [|eauto].
    destruct (Js.or (Js.get_opt receipt "total") (JNum 0)) as [| |b|x|t|l|ps];
      simpl; eauto.
    exfalso. apply (H x). reflexivity.
Qed.




End CardFacts.

(** X18: the check icon and the status line of a receipt card agree, and
    the card is rendered unless the receipt is missing, its total is not a
    Number, or one of the three values it shows is an object.  For every
    receipt whose card is shown, the icon is there exactly when the status
    line reads something other than Pending, which is exactly when it is
    drawn in the success colour; a receipt counts as sent when its status
    is one of the four sent words or one of its [email_sent] and [sms_sent]
    flags is truthy; the total is shown with two decimals.  The render
    throws a [TypeError] exactly when the receipt is [null] or [undefined]
    or its total is truthy and not a Number; otherwise React refuses it
    exactly when the receipt number, the customer name or the transaction
    date (each under either of its two names) is an object or an array
    holding one. *)
Theorem card_status_is_consistent (receipt : JsVal) :
  let first_of := fun name other text =>
    Js.or (Js.get_opt receipt name) (Js.or (Js.get_opt receipt other) (JStr text)) in
  let shown :=
    [first_of "receiptNumber" "receipt_number" "N/A";
     first_of "customerName" "customer_name" "Unknown Customer";
     first_of "transactionDate" "transaction_date" "N/A"] in
  let unreadable :=
    receipt = JNull \/ receipt = JUndefined
    \/ (Js.truthy (Js.get_opt receipt "total") = true
        /\ forall x, Js.get_opt receipt "total" <> JNum x) in
  match ReceiptCard.card receipt with
  | React.Shown c =>
      let info := ReceiptCard.statusInfo c in
      let word := fun text => JsString.strict_eq (ReceiptCard.status c) text in
      ReceiptCard.check_icon c
      = (word "Sent" || word "email_sent" || word "sms_sent" || word "both_sent"
         || Js.truthy (Js.get_opt receipt "email_sent")
         || Js.truthy (Js.get_opt receipt "sms_sent"))
      /\ (ReceiptCard.check_icon c = true
          <-> ReceiptCard.text info <> ReceiptCard.pending_mark +:+ " Pending")
      /\ (ReceiptCard.check_icon c = true
          <-> ReceiptCard.color info = "text-success")
      /\ (ReceiptCard.check_icon c = false
          <-> ReceiptCard.color info = "text-warning")
      /\ (exists x, Js.or (Js.get_opt receipt "total") (JNum 0) = JNum x
                    /\ ReceiptCard.total_text c = NumberFormat.toFixed 2 x)
      /\ ReceiptCard.children c = shown
      /\ forallb React.valid_child shown = true
      /\ ~ unreadable
  | React.Threw e =>
      ReceiptCard.element receipt = Throw e /\ unreadable
  | React.Refused =>
      ~ unreadable /\ forallb React.valid_child shown = false
  end.
Proof.
  cbv zeta.
  assert (Hno : (receipt = JNull \/ receipt = JUndefined
                 \/ (Js.truthy (Js.get_opt receipt "total") = true
                     /\ forall x, Js.get_opt receipt "total" <> JNum x))
                <-> exists e, ReceiptCard.element receipt = Throw e).
  { rewrite CardFacts.element_throws. unfold Js.or.
    destruct (Js.truthy (Js.get_opt receipt "total")).
    - split; (intros [H|[H|H]]; [auto|auto|right; right]); [apply H|split; [reflexivity|exact H]].
    - split; (intros [H|[H|H]]; [auto|auto|exfalso]).
      + destruct H as [H _]. discriminate.
      + apply (H 0%float). reflexivity. }
  unfold ReceiptCard.card, React.render.
  destruct (ReceiptCard.element receipt) as [c|e] eqn:Eelement.
  2: { split; [reflexivity|]. apply Hno. eauto. }
  assert (Hnot : ~ (receipt = JNull \/ receipt = JUndefined
                    \/ (Js.truthy (Js.get_opt receipt "total") = true
                        /\ forall x, Js.get_opt receipt "total" <> JNum x))).
  { rewrite Hno. intros [e He]. discriminate. }
  destruct (CardFacts.element_of receipt c Eelement)
    as (Hstatus & Hemail & Hsms & Hicon & Hinfo & Htotal & Htext & Hchildren).
  rewrite Hchildren.
  destruct (forallb React.valid_child _) eqn:Evalid; [|split; [exact Hnot|reflexivity]].
  rewrite Hicon, Hinfo. unfold ReceiptCard.getStatusInfo.
  assert (He : Js.truthy (ReceiptCard.emailSent c)
               = Js.truthy (Js.get_opt receipt "email_sent"))
    by (rewrite Hemail, CardFacts.truthy_or; apply orb_false_r).
  assert (Hs : Js.truthy (ReceiptCard.smsSent c)
               = Js.truthy (Js.get_opt receipt "sms_sent"))
    by (rewrite Hsms, CardFacts.truthy_or; apply orb_false_r).
  assert (Hshown : exists x, Js.or (Js.get_opt receipt "total") (JNum 0) = JNum x
                             /\ ReceiptCard.total_text c = NumberFormat.toFixed 2 x).
  { rewrite <- Htotal. unfold ReceiptCard.toFixed2 in Htext.
    destruct (ReceiptCard.total c) as [| |b|x|t|l|ps]; try discriminate.
    exists x. split; [reflexivity|]. congruence. }
  rewrite He, Hs.
  destruct (JsString.strict_eq (ReceiptCard.status c) "Sent");
    destruct (JsString.strict_eq (ReceiptCard.status c) "email_sent");
    destruct (JsString.strict_eq (ReceiptCard.status c) "sms_sent");
    destruct (JsString.strict_eq (ReceiptCard.status c) "both_sent");
    destruct (Js.truthy (Js.get_opt receipt "email_sent"));
    destruct (Js.truthy (Js.get_opt receipt "sms_sent"));
    cbn [orb andb ReceiptCard.text ReceiptCard.color];
    (split; [reflexivity|]);
    (split; [|split; [|split; [|split; [exact Hshown|
       repeat split; first [exact Hchildren|exact Evalid|exact Hnot]]]]]);
    split; intros H; try reflexivity; try discriminate;
    try (exfalso; apply H; reflexivity);
    try (vm_compute in H; discriminate).
Qed.

(** An object under one of the names the card shows makes React refuse
    the card; an array of texts is shown. *)
Example card_refuses_an_object :
  ReceiptCard.card (JObj [("receiptNumber", JObj [("n", JNum 7)]); ("total", JNum 5)])
  = React.Refused
  /\ ReceiptCard.card (JObj [("customer_name", JObj []); ("total", JNum 5)])
     = React.Refused
  /\ ReceiptCard.card (JObj [("transaction_date", JArr [JStr "May"; JObj []])])
     = React.Refused
  /\ (exists c, ReceiptCard.card (JObj [("customer_name", JArr [JStr "Ann"; JNum 2])])
                = React.Shown c)
  /\ ReceiptCard.card (JObj [("total", JStr "5")])
     = React.Threw (TypeError "total.toFixed is not a function").
Proof. repeat split; try (eexists; reflexivity); reflexivity. Qed.

